(** * Metadata string-table editor: the binary codec of [app.py]

    A shallow embedding of the class [MetadataFile] (methods [parse],
    [get_strings], [set_string], [save]) and of the route
    [get_strings_page], followed by the properties of the codec.

    Python integers are [Z]; a [bytearray]/[bytes] value is a list of
    [byte]; a [str] is the list of its code points.  The [struct] module's
    ["<I"] format is little-endian, modelled with [le_combine] and
    [le_split]. *)

From Stdlib Require Import ZArith List Lia Bool String.
From coqutil Require Import Byte Word.LittleEndianList.
Import ListNotations.
Local Open Scope Z_scope.

(** ** Python values *)

Definition bytes := list byte.

(** A [str]: the sequence of its code points. *)
Definition str := list Z.

Definition len {A : Type} (l : list A) : Z := Z.of_nat (List.length l).

(** Exceptions raised by the code and by the builtins it calls.
    [struct_error size offset buflen] is the error of [unpack_from] and
    [pack_into] on a buffer too small for [size] bytes at [offset];
    [struct_error_range] is the error of packing a number outside
    [0 .. 4294967295] with format [I]. *)
Inductive exn : Type :=
| Exception (msg : string)
| struct_error (size offset buflen : Z)
| struct_error_range
| IndexError
| UnicodeEncodeError.

Inductive outcome (A : Type) : Type :=
| Return (a : A)
| Raise (e : exn).

Arguments Return {A} a.
Arguments Raise {A} e.

Definition bind {A B : Type} (m : outcome A) (k : A -> outcome B) : outcome B :=
  match m with
  | Return a => k a
  | Raise e => Raise e
  end.

Notation "x <- m ;; k" := (bind m (fun x => k))
  (at level 61, m at next level, right associativity).
Notation "' p <- m ;; k" := (bind m (fun x => let p := x in k))
  (at level 61, p pattern, m at next level, right associativity).

(** *** Slices

    [adjust_index n i] is what Python does to one bound of a slice with
    step 1 on a sequence of length [n]: a negative bound counts from the
    end, and the result is clipped to [0 .. n]. *)
Definition adjust_index (n i : Z) : Z :=
  if i <? 0 then Z.max 0 (i + n) else Z.min i n.

(** [l[i:j]] *)
Definition getslice {A : Type} (l : list A) (i j : Z) : list A :=
  let n := len l in
  let start := adjust_index n i in
  let stop := adjust_index n j in
  firstn (Z.to_nat (stop - start)) (skipn (Z.to_nat start) l).

(** [l[i:j] = data] on a [bytearray]: the clipped range is replaced by
    [data], whatever the two lengths are. *)
Definition setslice {A : Type} (l : list A) (i j : Z) (data : list A) : list A :=
  let n := len l in
  let start := adjust_index n i in
  let stop := Z.max start (adjust_index n j) in
  firstn (Z.to_nat start) l ++ data ++ skipn (Z.to_nat stop) l.

(** [l[index] = v] on a list: a negative index counts from the end;
    outside [-n .. n-1] it raises [IndexError] and [l] is not touched. *)
Fixpoint replace_nth {A : Type} (n : nat) (l : list A) (v : A) : list A :=
  match l, n with
  | [], _ => []
  | _ :: t, O => v :: t
  | h :: t, S n' => h :: replace_nth n' t v
  end.

Definition setitem {A : Type} (l : list A) (index : Z) (v : A) : outcome (list A) :=
  let n := len l in
  let i := if index <? 0 then index + n else index in
  if (0 <=? i) && (i <? n) then Return (replace_nth (Z.to_nat i) l v)
  else Raise IndexError.

(** [l[index]] *)
Definition getitem {A : Type} (l : list A) (index : Z) : outcome A :=
  let n := len l in
  let i := if index <? 0 then index + n else index in
  if (0 <=? i) && (i <? n) then
    match nth_error l (Z.to_nat i) with
    | Some v => Return v
    | None => Raise IndexError
    end
  else Raise IndexError.

(** *** The [struct] module, formats ["<I"], ["<i"] and ["<II"]

    Every offset the code passes is a sum of unsigned fields, so the
    negative-offset convention of [struct] is not modelled. *)
Definition u32_max : Z := 4294967295.

Definition unpack_from_I (buffer : bytes) (offset : Z) : outcome Z :=
  if len buffer - offset <? 4 then Raise (struct_error 4 offset (len buffer))
  else Return (le_combine (firstn 4 (skipn (Z.to_nat offset) buffer))).

Definition unpack_from_i (buffer : bytes) (offset : Z) : outcome Z :=
  u <- unpack_from_I buffer offset ;;
  Return (if u <? 2147483648 then u else u - 4294967296).

Definition unpack_from_II (buffer : bytes) (offset : Z) : outcome (Z * Z) :=
  if len buffer - offset <? 8 then Raise (struct_error 8 offset (len buffer))
  else Return (le_combine (firstn 4 (skipn (Z.to_nat offset) buffer)),
               le_combine (firstn 4 (skipn (Z.to_nat (offset + 4)) buffer))).

Definition pack_I (v : Z) : outcome bytes :=
  if (0 <=? v) && (v <=? u32_max) then Return (le_split 4 v)
  else Raise struct_error_range.

Definition pack_into_II (buffer : bytes) (offset v1 v2 : Z) : outcome bytes :=
  if len buffer - offset <? 8 then Raise (struct_error 8 offset (len buffer))
  else
    b1 <- pack_I v1 ;;
    b2 <- pack_I v2 ;;
    Return (setslice buffer offset (offset + 8) (b1 ++ b2)).

(** *** [bytes.rstrip(chars)] *)
Definition byte_in (b : byte) (chars : bytes) : bool :=
  existsb (fun c => byte.unsigned c =? byte.unsigned b) chars.

Definition rstrip (s chars : bytes) : bytes :=
  fold_right
    (fun b acc =>
       match acc with
       | [] => if byte_in b chars then [] else [b]
       | _ :: _ => b :: acc
       end) [] s.

(** *** UTF-8

    [str.encode("utf-8")]: a lone surrogate cannot be encoded. *)
Definition encode_char (c : Z) : option bytes :=
  if c <? 0 then None
  else if c <? 128 then Some [byte.of_Z c]
  else if c <? 2048 then
    Some [byte.of_Z (192 + c / 64); byte.of_Z (128 + c mod 64)]
  else if c <? 65536 then
    if (55296 <=? c) && (c <? 57344) then None
    else Some [byte.of_Z (224 + c / 4096);
               byte.of_Z (128 + (c / 64) mod 64);
               byte.of_Z (128 + c mod 64)]
  else if c <? 1114112 then
    Some [byte.of_Z (240 + c / 262144);
          byte.of_Z (128 + (c / 4096) mod 64);
          byte.of_Z (128 + (c / 64) mod 64);
          byte.of_Z (128 + c mod 64)]
  else None.

Fixpoint encode_utf8 (s : str) : outcome bytes :=
  match s with
  | [] => Return []
  | c :: s' =>
      match encode_char c with
      | None => Raise UnicodeEncodeError
      | Some bs => rest <- encode_utf8 s' ;; Return (bs ++ rest)
      end
  end.

(** [bytes.decode("utf-8", errors="ignore")].  The decoder reports the
    longest ill-formed prefix and ["ignore"] drops it; the bytes of that
    prefix after its first are continuation bytes, which cannot start a
    character, so dropping one byte and rescanning yields the same text. *)
Definition is_cont (b : byte) : bool :=
  (128 <=? byte.unsigned b) && (byte.unsigned b <? 192).

Definition cont_bits (b : byte) : Z := byte.unsigned b - 128.

Fixpoint decode_utf8_ignore (s : bytes) : str :=
  match s with
  | [] => []
  | b0 :: s1 =>
      let c0 := byte.unsigned b0 in
      if c0 <? 128 then c0 :: decode_utf8_ignore s1
      else if c0 <? 194 then decode_utf8_ignore s1
      else if c0 <? 224 then
        match s1 with
        | b1 :: s2 =>
            if is_cont b1
            then ((c0 - 192) * 64 + cont_bits b1) :: decode_utf8_ignore s2
            else decode_utf8_ignore s1
        | [] => decode_utf8_ignore s1
        end
      else if c0 <? 240 then
        match s1 with
        | b1 :: (b2 :: s3) =>
            if is_cont b1 && is_cont b2
               && negb ((c0 =? 224) && (byte.unsigned b1 <? 160))
               && negb ((c0 =? 237) && (160 <=? byte.unsigned b1))
            then ((c0 - 224) * 4096 + cont_bits b1 * 64 + cont_bits b2)
                   :: decode_utf8_ignore s3
            else decode_utf8_ignore s1
        | _ => decode_utf8_ignore s1
        end
      else if c0 <? 245 then
        match s1 with
        | b1 :: (b2 :: (b3 :: s4)) =>
            if is_cont b1 && is_cont b2 && is_cont b3
               && negb ((c0 =? 240) && (byte.unsigned b1 <? 144))
               && negb ((c0 =? 244) && (144 <=? byte.unsigned b1))
            then ((c0 - 240) * 262144 + cont_bits b1 * 4096
                  + cont_bits b2 * 64 + cont_bits b3)
                   :: decode_utf8_ignore s4
            else decode_utf8_ignore s1
        | _ => decode_utf8_ignore s1
        end
      else decode_utf8_ignore s1
  end.

(** ** class MetadataFile *)

Module StringLiteral.
Record t : Type := mk { length : Z; offset : Z }.
End StringLiteral.

Module MetadataFile.

Definition MAGIC : Z := 4205910959. (* 0xFAB11BAF *)

Record t : Type := mk {
  file_data : bytes;
  string_literals : list StringLiteral.t;
  str_bytes : list bytes;
  version : Z;
  string_literal_offset : Z;
  string_literal_count : Z;
  data_info_position : Z;
  string_literal_data_offset : Z;
  string_literal_data_count : Z
}.

(** The loop of [parse]: [for i in range(self.string_literal_count)],
    with [n] iterations left. *)
Fixpoint parse_loop (f : bytes) (string_literal_offset string_literal_data_offset : Z)
    (i : Z) (n : nat) (string_literals : list StringLiteral.t) (str_bytes : list bytes)
  : outcome (list StringLiteral.t * list bytes) :=
  match n with
  | O => Return (string_literals, str_bytes)
  | S n' =>
      let pos := string_literal_offset + i * 8 in
      '(length, offset) <- unpack_from_II f pos ;;
      parse_loop f string_literal_offset string_literal_data_offset (i + 1) n'
        (string_literals ++ [StringLiteral.mk length offset])
        (str_bytes ++ [getslice f (string_literal_data_offset + offset)
                                  (string_literal_data_offset + offset + length)])
  end.

Definition parse (self : t) : outcome t :=
  let f := file_data self in
  magic <- unpack_from_I f 0 ;;
  if negb (magic =? MAGIC) then Raise (Exception "Invalid metadata file")
  else
    version <- unpack_from_i f 4 ;;
    string_literal_offset <- unpack_from_I f 8 ;;
    string_literal_table_size <- unpack_from_I f 12 ;;
    let string_literal_count := string_literal_table_size / 8 in
    let data_info_position := 16 in
    string_literal_data_offset <- unpack_from_I f 16 ;;
    string_literal_data_count <- unpack_from_I f 20 ;;
    '(lits, strs) <- parse_loop f string_literal_offset string_literal_data_offset
                       0 (Z.to_nat string_literal_count)
                       (string_literals self) (str_bytes self) ;;
    Return (mk f lits strs version string_literal_offset string_literal_count
               data_info_position string_literal_data_offset
               string_literal_data_count).

(** [MetadataFile(file_path)], given the content of the file.  When
    [parse] raises, the constructor raises and no object exists. *)
Definition init (content : bytes) : outcome t :=
  parse (mk content [] [] 0 0 0 0 0 0).

Definition decode_text (s : bytes) : str :=
  decode_utf8_ignore (rstrip s [Byte.x00]).

(** [get_strings] reads [self] and assigns nothing: the object after the
    call is the object before it, returned here beside the result. *)
Definition get_strings (self : t) : t * list str :=
  (self, map decode_text (str_bytes self)).

Definition with_str_bytes (self : t) (l : list bytes) : t :=
  mk (file_data self) (string_literals self) l (version self)
     (string_literal_offset self) (string_literal_count self)
     (data_info_position self) (string_literal_data_offset self)
     (string_literal_data_count self).

(** [set_string] returns the object after the call beside the outcome:
    the right-hand side is evaluated first, then the item assignment
    either raises or replaces one element. *)
Definition set_string (self : t) (index : Z) (new_value : str) : t * outcome unit :=
  match encode_utf8 new_value with
  | Raise e => (self, Raise e)
  | Return encoded =>
      match setitem (str_bytes self) index (encoded ++ [Byte.x00]) with
      | Raise e => (self, Raise e)
      | Return l => (with_str_bytes self l, Return tt)
      end
  end.

(** The first loop of [save]:
    [for i, lit in enumerate(self.string_literals)]. *)
Fixpoint save_loop (lits : list StringLiteral.t) (i : Z) (str_bytes : list bytes)
    (file_data : bytes) (pos offset_count : Z)
  : outcome (list StringLiteral.t * bytes * Z) :=
  match lits with
  | [] => Return ([], file_data, offset_count)
  | _ :: lits' =>
      s <- getitem str_bytes i ;;
      let lit := StringLiteral.mk (len s) offset_count in
      file_data <- pack_into_II file_data pos
                     (StringLiteral.length lit) (StringLiteral.offset lit) ;;
      '(lits'', file_data, offset_count) <-
         save_loop lits' (i + 1) str_bytes file_data (pos + 8)
                   (offset_count + StringLiteral.length lit) ;;
      Return (lit :: lits'', file_data, offset_count)
  end.

(** The second loop of [save]: [for data in self.str_bytes]. *)
Fixpoint write_loop (str_bytes : list bytes) (file_data : bytes) (new_pos : Z) : bytes :=
  match str_bytes with
  | [] => file_data
  | data :: rest =>
      write_loop rest (setslice file_data new_pos (new_pos + len data) data)
                 (new_pos + len data)
  end.

Definition padding_needed (string_literal_data_offset offset_count : Z) : Z :=
  (4 - ((string_literal_data_offset + offset_count) mod 4)) mod 4.

(** The [if padding_needed:] block of [save]. *)
Definition pad (file_data : bytes) (string_literal_data_offset offset_count : Z)
  : bytes * Z :=
  let padding_needed := padding_needed string_literal_data_offset offset_count in
  if padding_needed =? 0 then (file_data, offset_count)
  else
    let end_pos := string_literal_data_offset + offset_count in
    let file_data :=
      if end_pos + padding_needed >? len file_data
      then file_data
             ++ repeat Byte.x00 (Z.to_nat (end_pos + padding_needed - len file_data))
      else file_data in
    (setslice file_data end_pos (end_pos + padding_needed)
              (repeat Byte.x00 (Z.to_nat padding_needed)),
     offset_count + padding_needed).

(** [save] returns the object after the call and the content of the
    [BytesIO] it builds.  When it raises, every caller drops the object,
    so no state is returned then. *)
Definition save (self : t) : outcome (t * bytes) :=
  let pos := string_literal_offset self in
  let offset_count := 0 in
  '(lits, file_data, offset_count) <-
     save_loop (string_literals self) 0 (str_bytes self) (file_data self)
               pos offset_count ;;
  let '(file_data, offset_count) :=
    pad file_data (string_literal_data_offset self) offset_count in
  let new_pos := string_literal_data_offset self in
  let file_data := write_loop (str_bytes self) file_data new_pos in
  file_data <- pack_into_II file_data (data_info_position self)
                 (string_literal_data_offset self) offset_count ;;
  Return (mk file_data lits (str_bytes self) (version self)
             (string_literal_offset self) (string_literal_count self)
             (data_info_position self) (string_literal_data_offset self)
             (string_literal_data_count self),
          file_data).

End MetadataFile.

(** ** The route [/get_strings_page]

    [content] is the content of the uploaded file (the route answers 404
    before anything else when the file does not exist); the result is the
    triple of the JSON fields [strings], [start_index] and [has_more]. *)
Definition get_strings_page (content : bytes) (page limit : Z)
  : outcome (list str * Z * bool) :=
  meta_obj <- MetadataFile.init content ;;
  let all_strings := snd (MetadataFile.get_strings meta_obj) in
  let start := (page - 1) * limit in
  let end_ := Z.min (start + limit) (len all_strings) in
  let batch := getslice all_strings start end_ in
  Return (batch, start, end_ <? len all_strings).

(** Every mutation of [file_data] in [save] is a slice assignment of
    [data] at [p .. p + len data]. *)
Definition store (l : bytes) (p : Z) (data : bytes) : bytes :=
  setslice l p (p + len data) data.

(** The position where a write at [p] lands in a buffer [l]. *)
Definition landing (l : bytes) (p : Z) : nat := Nat.min (Z.to_nat p) (List.length l).

(** A sequence of writes, first to last. *)
Definition apply_writes (ws : list (Z * bytes)) (l : bytes) : bytes :=
  fold_left (fun l w => store l (fst w) (snd w)) ws l.

Definition outside (k : nat) (w : Z * bytes) : Prop :=
  Z.of_nat k < fst w \/ fst w + len (snd w) <= Z.of_nat k.

Definition nonneg_pos (w : Z * bytes) : Prop := 0 <= fst w.

Definition inplace (n : nat) (w : Z * bytes) : Prop :=
  0 <= fst w /\ fst w + len (snd w) <= Z.of_nat n.

(** ** What [parse] reads and what [save] writes, in closed form *)

Definition total_len (strs : list bytes) : Z :=
  fold_right (fun s acc => len s + acc) 0 strs.

(** The descriptors [save] assigns: lengths of the payloads and running
    offsets, from [offset_count] on. *)
Fixpoint packed_literals (strs : list bytes) (offset_count : Z) : list StringLiteral.t :=
  match strs with
  | [] => []
  | s :: rest =>
      StringLiteral.mk (len s) offset_count :: packed_literals rest (offset_count + len s)
  end.

Definition literal_bytes (lit : StringLiteral.t) : bytes :=
  le_split 4 (StringLiteral.length lit) ++ le_split 4 (StringLiteral.offset lit).

Fixpoint table_writes (lits : list StringLiteral.t) (pos : Z) : list (Z * bytes) :=
  match lits with
  | [] => []
  | lit :: rest => (pos, literal_bytes lit) :: table_writes rest (pos + 8)
  end.

Fixpoint payload_writes (strs : list bytes) (new_pos : Z) : list (Z * bytes) :=
  match strs with
  | [] => []
  | data :: rest => (new_pos, data) :: payload_writes rest (new_pos + len data)
  end.

Definition pad_writes (n sdo offset_count : Z) : list (Z * bytes) :=
  let padding := MetadataFile.padding_needed sdo offset_count in
  if padding =? 0 then []
  else
    let end_pos := sdo + offset_count in
    (if end_pos + padding >? n
     then [(n, repeat Byte.x00 (Z.to_nat (end_pos + padding - n)))]
     else [])
    ++ [(end_pos, repeat Byte.x00 (Z.to_nat padding))].

(** The size [save] writes at offset 20: payload bytes plus padding. *)
Definition packed_size (self : MetadataFile.t) : Z :=
  let total := total_len (MetadataFile.str_bytes self) in
  total + MetadataFile.padding_needed (MetadataFile.string_literal_data_offset self) total.

Definition header_pair (self : MetadataFile.t) : bytes :=
  le_split 4 (MetadataFile.string_literal_data_offset self) ++ le_split 4 (packed_size self).

Definition save_writes (self : MetadataFile.t) : list (Z * bytes) :=
  let strs := MetadataFile.str_bytes self in
  let sdo := MetadataFile.string_literal_data_offset self in
  table_writes (packed_literals strs 0) (MetadataFile.string_literal_offset self)
  ++ pad_writes (len (MetadataFile.file_data self)) sdo (total_len strs)
  ++ payload_writes strs sdo
  ++ [(MetadataFile.data_info_position self, header_pair self)].

(** The buffer before the last write of [save]. *)
Definition before_header (self : MetadataFile.t) : bytes :=
  apply_writes
    (table_writes (packed_literals (MetadataFile.str_bytes self) 0)
                  (MetadataFile.string_literal_offset self)
     ++ pad_writes (len (MetadataFile.file_data self))
                   (MetadataFile.string_literal_data_offset self)
                   (total_len (MetadataFile.str_bytes self))
     ++ payload_writes (MetadataFile.str_bytes self)
                       (MetadataFile.string_literal_data_offset self))
    (MetadataFile.file_data self).

Definition saved (self : MetadataFile.t) : MetadataFile.t :=
  MetadataFile.mk
    (apply_writes (save_writes self) (MetadataFile.file_data self))
    (packed_literals (MetadataFile.str_bytes self) 0)
    (MetadataFile.str_bytes self) (MetadataFile.version self)
    (MetadataFile.string_literal_offset self) (MetadataFile.string_literal_count self)
    (MetadataFile.data_info_position self) (MetadataFile.string_literal_data_offset self)
    (MetadataFile.string_literal_data_count self).

Definition read_u32 (f : bytes) (pos : Z) : Z :=
  le_combine (firstn 4 (skipn (Z.to_nat pos) f)).

Definition read_literal (f : bytes) (pos : Z) : StringLiteral.t :=
  StringLiteral.mk (read_u32 f pos) (read_u32 f (pos + 4)).

Fixpoint read_table (f : bytes) (slo i : Z) (n : nat) : list StringLiteral.t :=
  match n with
  | O => []
  | S n' => read_literal f (slo + i * 8) :: read_table f slo (i + 1) n'
  end.

(** The payload [parse] copies for a descriptor: a slice, clipped to the buffer. *)
Definition payload_of (f : bytes) (sdo : Z) (lit : StringLiteral.t) : bytes :=
  getslice f (sdo + StringLiteral.offset lit)
             (sdo + StringLiteral.offset lit + StringLiteral.length lit).

(** The object the constructor builds, when it builds one: it is
    determined by the header and the descriptor table. *)
Definition loaded_from (content : bytes) : MetadataFile.t :=
  let slo := read_u32 content 8 in
  let count := read_u32 content 12 / 8 in
  let sdo := read_u32 content 16 in
  let lits := read_table content slo 0 (Z.to_nat count) in
  MetadataFile.mk content lits (map (payload_of content sdo) lits)
    (let u := read_u32 content 4 in if u <? 2147483648 then u else u - 4294967296)
    slo count 16 sdo (read_u32 content 20).

(** ** Documents

    A document is an object built by the constructor and then edited by
    any number of calls of [set_string], failed calls included. *)
Definition set_strings (edits : list (Z * str)) (self : MetadataFile.t) : MetadataFile.t :=
  fold_left (fun self e => fst (MetadataFile.set_string self (fst e) (snd e))) edits self.

(** What the constructor establishes and [set_string] keeps. *)
Record loaded_inv (self : MetadataFile.t) : Prop := {
  inv_magic : read_u32 (MetadataFile.file_data self) 0 = MetadataFile.MAGIC;
  inv_version :
    unpack_from_i (MetadataFile.file_data self) 4 = Return (MetadataFile.version self);
  inv_slo : read_u32 (MetadataFile.file_data self) 8 = MetadataFile.string_literal_offset self;
  inv_count :
    MetadataFile.string_literal_count self = read_u32 (MetadataFile.file_data self) 12 / 8;
  inv_dip : MetadataFile.data_info_position self = 16;
  inv_sdo : 0 <= MetadataFile.string_literal_data_offset self <= u32_max;
  inv_header : 24 <= len (MetadataFile.file_data self);
  inv_lits : len (MetadataFile.string_literals self) = MetadataFile.string_literal_count self;
  inv_strs : len (MetadataFile.str_bytes self) = MetadataFile.string_literal_count self;
  inv_table :
    MetadataFile.string_literal_count self = 0
    \/ MetadataFile.string_literal_offset self + 8 * MetadataFile.string_literal_count self
       <= len (MetadataFile.file_data self)
}.

(** ** Layouts

    [table_apart]: the descriptor table lies after the header and does not
    meet the repacked string data region (payloads and padding). *)
Definition table_apart (self : MetadataFile.t) : Prop :=
  let slo := MetadataFile.string_literal_offset self in
  let sdo := MetadataFile.string_literal_data_offset self in
  let n := len (MetadataFile.str_bytes self) in
  24 <= slo /\ (slo + 8 * n <= sdo \/ sdo + packed_size self <= slo).

(** [regular_layout]: header, descriptor table and repacked string data
    region are pairwise disjoint, and the string data region starts inside
    the buffer or at its end. *)
Definition regular_layout (self : MetadataFile.t) : Prop :=
  24 <= MetadataFile.string_literal_data_offset self <= len (MetadataFile.file_data self)
  /\ (MetadataFile.str_bytes self = [] \/ table_apart self).

(** ** Sample files *)

Definition bytes_of (l : list Z) : bytes := map byte.of_Z l.

(** Magic, version 1, table at 24 (8 bytes), string data at 32 (6 bytes);
    one descriptor (length 6, offset 0); payload ["abc\0\0\0"]. *)
Definition sample_file : bytes :=
  bytes_of [175; 27; 177; 250;  1; 0; 0; 0;  24; 0; 0; 0;  8; 0; 0; 0;
            32; 0; 0; 0;  6; 0; 0; 0;
            6; 0; 0; 0;  0; 0; 0; 0;
            97; 98; 99; 0; 0; 0].

(** ["hello"] *)
Definition hello : str := [104; 101; 108; 108; 111].

Definition sample_doc : MetadataFile.t := loaded_from sample_file.

Definition sample_edited : MetadataFile.t := set_strings [(0, hello)] sample_doc.

(** A file whose string data region starts at 16, on the header pair:
    table at 24 (one descriptor: length 4, offset 16), payload ["abc\0"]
    at 32. *)
Definition overlap_header_file : bytes :=
  bytes_of [175; 27; 177; 250;  1; 0; 0; 0;  24; 0; 0; 0;  8; 0; 0; 0;
            16; 0; 0; 0;  4; 0; 0; 0;
            4; 0; 0; 0;  16; 0; 0; 0;
            97; 98; 99; 0].

(** A file whose string data region starts at 24, on the descriptor
    table: one descriptor (length 4, offset 8), payload ["abcd"] at 32. *)
Definition overlap_table_file : bytes :=
  bytes_of [175; 27; 177; 250;  1; 0; 0; 0;  24; 0; 0; 0;  8; 0; 0; 0;
            24; 0; 0; 0;  4; 0; 0; 0;
            4; 0; 0; 0;  8; 0; 0; 0;
            97; 98; 99; 100].

(** The object the constructor builds from the bytes [save] returned,
    under a regular layout. *)
Definition reloaded (self : MetadataFile.t) : MetadataFile.t :=
  MetadataFile.mk
    (MetadataFile.file_data (saved self))
    (packed_literals (MetadataFile.str_bytes self) 0)
    (MetadataFile.str_bytes self) (MetadataFile.version self)
    (MetadataFile.string_literal_offset self) (MetadataFile.string_literal_count self)
    16 (MetadataFile.string_literal_data_offset self) (packed_size self).

(** The round trip and idempotence properties of one document, given by
    the file it is loaded from and the edits made to it. *)
Definition roundtrip_at (content : bytes) (edits : list (Z * str)) : Prop :=
  forall self0 self' out,
    MetadataFile.init content = Return self0 ->
    MetadataFile.save (set_strings edits self0) = Return (self', out) ->
    exists again,
      MetadataFile.init out = Return again
      /\ snd (MetadataFile.get_strings again)
         = snd (MetadataFile.get_strings (set_strings edits self0)).

Definition idempotent_at (content : bytes) (edits : list (Z * str)) : Prop :=
  forall self0 self' out,
    MetadataFile.init content = Return self0 ->
    MetadataFile.save (set_strings edits self0) = Return (self', out) ->
    (exists again self'',
       MetadataFile.init out = Return again
       /\ MetadataFile.save again = Return (self'', out))
    /\ (exists self'', MetadataFile.save self' = Return (self'', out)).

(** The sample file cut after three payload bytes: the span of its
    descriptor, 32..38, runs past the end of the 35-byte buffer. *)
Definition truncated_file : bytes :=
  bytes_of [175; 27; 177; 250;  1; 0; 0; 0;  24; 0; 0; 0;  8; 0; 0; 0;
            32; 0; 0; 0;  6; 0; 0; 0;
            6; 0; 0; 0;  0; 0; 0; 0;
            97; 98; 99].

(** Two descriptors, payloads ["ab\0"] and ["cd\0"]. *)
Definition two_strings_file : bytes :=
  bytes_of [175; 27; 177; 250;  1; 0; 0; 0;  24; 0; 0; 0;  16; 0; 0; 0;
            40; 0; 0; 0;  6; 0; 0; 0;
            3; 0; 0; 0;  0; 0; 0; 0;
            3; 0; 0; 0;  3; 0; 0; 0;
            97; 98; 0;  99; 100; 0].

(** The magic and four more bytes. *)
Definition short_file : bytes := bytes_of [175; 27; 177; 250;  1; 0; 0; 0].

(** ** The claims as stated, as predicates *)

(** Some descriptor of the file has a payload span that ends after the
    end of the buffer. *)
Definition payload_span_exceeds (content : bytes) : Prop :=
  let slo := read_u32 content 8 in
  let sdo := read_u32 content 16 in
  let n := Z.to_nat (read_u32 content 12 / 8) in
  exists j lit,
    nth_error (read_table content slo 0 n) j = Some lit
    /\ len content < sdo + StringLiteral.offset lit + StringLiteral.length lit.

Definition truncated_payload_rejected (content : bytes) : Prop :=
  payload_span_exceeds content -> exists e, MetadataFile.init content = Raise e.

(** Slot [i] of the descriptor table in the bytes [save] returns holds the
    length of payload [i] and the sum of the lengths of the payloads
    before it. *)
Definition descriptors_as_specified (content : bytes) (edits : list (Z * str)) : Prop :=
  forall self0 self' out,
    MetadataFile.init content = Return self0 ->
    MetadataFile.save (set_strings edits self0) = Return (self', out) ->
    let strs := MetadataFile.str_bytes (set_strings edits self0) in
    forall i s,
      nth_error strs i = Some s ->
      unpack_from_II out (MetadataFile.string_literal_offset self0 + 8 * Z.of_nat i)
      = Return (len s, total_len (firstn i strs)).

Definition index_error_iff_past_end (self : MetadataFile.t) (index : Z) (text : str) : Prop :=
  snd (MetadataFile.set_string self index text) = Raise IndexError
  <-> MetadataFile.string_literal_count self <= index.

(** Follows the spec's words: strip the trailing NUL characters of a text. *)
Definition strip_trailing_nul (s : str) : str :=
  fold_right
    (fun c acc =>
       match acc with
       | [] => if c =? 0 then [] else [c]
       | _ :: _ => c :: acc
       end) [] s.

(** Follows the spec's words: decode the payload lossily, then strip the
    trailing NUL characters of the decoded text. *)
Definition spec_decode_text (p : bytes) : str :=
  strip_trailing_nul (decode_utf8_ignore p).

(** The page the spec describes: the strings at the indices
    [(page-1)*limit .. min(page*limit, count) - 1], the first index, and
    whether strings remain after the page. *)
Definition page_as_specified (content : bytes) (page limit : Z) : Prop :=
  forall self,
    MetadataFile.init content = Return self ->
    let all_strings := snd (MetadataFile.get_strings self) in
    let count := MetadataFile.string_literal_count self in
    let first := (page - 1) * limit in
    let last := Z.min (page * limit) count in
    exists batch has_more,
      get_strings_page content page limit = Return (batch, first, has_more)
      /\ len batch = Z.max 0 (last - first)
      /\ (forall k, 0 <= k < last - first ->
            nth_error batch (Z.to_nat k) = nth_error all_strings (Z.to_nat (first + k)))
      /\ (has_more = true <-> last < count).

(** One step of [decode_utf8_ignore] on [b0 :: s1]: the character decoded,
    if any, and the bytes left to decode. *)
Definition decode_step (b0 : byte) (s1 : bytes) : option Z * bytes :=
  let c0 := byte.unsigned b0 in
  if c0 <? 128 then (Some c0, s1)
  else if c0 <? 194 then (None, s1)
  else if c0 <? 224 then
    match s1 with
    | b1 :: s2 =>
        if is_cont b1 then (Some ((c0 - 192) * 64 + cont_bits b1), s2) else (None, s1)
    | [] => (None, s1)
    end
  else if c0 <? 240 then
    match s1 with
    | b1 :: (b2 :: s3) =>
        if is_cont b1 && is_cont b2
           && negb ((c0 =? 224) && (byte.unsigned b1 <? 160))
           && negb ((c0 =? 237) && (160 <=? byte.unsigned b1))
        then (Some ((c0 - 224) * 4096 + cont_bits b1 * 64 + cont_bits b2), s3)
        else (None, s1)
    | _ => (None, s1)
    end
  else if c0 <? 245 then
    match s1 with
    | b1 :: (b2 :: (b3 :: s4)) =>
        if is_cont b1 && is_cont b2 && is_cont b3
           && negb ((c0 =? 240) && (byte.unsigned b1 <? 144))
           && negb ((c0 =? 244) && (144 <=? byte.unsigned b1))
        then (Some ((c0 - 240) * 262144 + cont_bits b1 * 4096
                    + cont_bits b2 * 64 + cont_bits b3), s4)
        else (None, s1)
    | _ => (None, s1)
    end
  else (None, s1).

(** ** The routes [/update], [/download] and [/edit]

    A route sees the uploaded file through the file system: [file] is
    what is at [os.path.join(UPLOAD_FOLDER, filename)], [None] when
    [os.path.isfile] is false, [Some content] otherwise.  The form fields
    are taken as parsed: [index] is the integer [int(request.form["index"])]
    of a request whose field is an integer literal.  The routes of app.py
    are modelled for requests that carry a [filename] field. *)

Inductive update_response : Type :=
| UpdateMissingFilename          (* {"error": "Missing filename"}, 400; App.py only *)
| UpdateNotFound                 (* {"error": "File not found"}, 404 *)
| UpdateSuccess                  (* {"success": True} *)
| UpdateError (e : exn).         (* {"error": str(e)}, 500 *)

(** [update] of app.py returns the file after the request and the
    response.  [open(filepath, "wb")] is evaluated before [save()] is
    called, so the file is already empty when [save] raises. *)
Definition update (file : option bytes) (index : Z) (new_value : str)
  : option bytes * update_response :=
  match file with
  | None => (None, UpdateNotFound)
  | Some content =>
      match MetadataFile.init content with
      | Raise e => (file, UpdateError e)
      | Return meta_obj =>
          match MetadataFile.set_string meta_obj index new_value with
          | (_, Raise e) => (file, UpdateError e)
          | (meta_obj, Return _) =>
              match MetadataFile.save meta_obj with
              | Raise e => (Some [], UpdateError e)
              | Return (_, output) => (Some output, UpdateSuccess)
              end
          end
      end
  end.

Inductive download_response : Type :=
| DownloadRedirect               (* redirect(url_for("index")) *)
| DownloadAttachment (data : bytes)
| DownloadError (e : exn).       (* the exception of the constructor or of save *)

Definition download (file : option bytes) : download_response :=
  match file with
  | None => DownloadRedirect
  | Some content =>
      match MetadataFile.init content with
      | Raise e => DownloadError e
      | Return meta_obj =>
          match MetadataFile.save meta_obj with
          | Raise e => DownloadError e
          | Return (_, output) => DownloadAttachment output
          end
      end
  end.

Module App.

(** [if not filename]: the form field is absent or empty. *)
Definition not_filename (filename : option string) : bool :=
  match filename with
  | None => true
  | Some EmptyString => true
  | Some (String _ _) => false
  end.

(** [update] of App.py answers 400 when the form has no filename, before
    it looks at the file system; it calls [save()] first and opens the
    file afterwards. *)
Definition update (filename : option string) (file : option bytes)
                  (index : Z) (new_value : str)
  : option bytes * update_response :=
  if not_filename filename then (file, UpdateMissingFilename)
  else
    match file with
    | None => (None, UpdateNotFound)
    | Some content =>
        match MetadataFile.init content with
        | Raise e => (file, UpdateError e)
        | Return meta_obj =>
            match MetadataFile.set_string meta_obj index new_value with
            | (_, Raise e) => (file, UpdateError e)
            | (meta_obj, Return _) =>
                match MetadataFile.save meta_obj with
                | Raise e => (file, UpdateError e)
                | Return (_, output) => (Some output, UpdateSuccess)
                end
            end
        end
    end.

Inductive edit_response : Type :=
| EditRedirect
| EditBadRequest (e : exn)       (* "Failed to parse metadata file: ...", 400 *)
| EditPage (strings : list str).

(** [edit] of App.py renders [meta_obj.get_strings()[:100]]. *)
Definition edit (file : option bytes) : edit_response :=
  match file with
  | None => EditRedirect
  | Some content =>
      match MetadataFile.init content with
      | Raise e => EditBadRequest e
      | Return meta_obj =>
          let strings := getslice (snd (MetadataFile.get_strings meta_obj)) 0 100 in
          EditPage strings
      end
  end.

End App.

(** The [strings] field of the answer of [/get_strings_page]; empty when
    the route raises. *)
Definition page_strings (content : bytes) (page limit : Z) : list str :=
  match get_strings_page content page limit with
  | Return (batch, _, _) => batch
  | Raise _ => []
  end.

(** Pages [1 .. k], one after the other. *)
Definition pages_upto (content : bytes) (limit : Z) (k : nat) : list str :=
  List.concat (map (fun p => page_strings content (Z.of_nat p) limit) (seq 1 k)).

(** A Unicode scalar value: a code point that is not a surrogate. *)
Definition scalar_value (c : Z) : Prop :=
  0 <= c < 1114112 /\ ~ (55296 <= c < 57344).

(** A file of 32 bytes whose string data offset, 38, lies past its end:
    table at 24 (one descriptor: length 6, offset 0), no payload bytes. *)
Definition past_end_file : bytes :=
  bytes_of [175; 27; 177; 250;  1; 0; 0; 0;  24; 0; 0; 0;  8; 0; 0; 0;
            38; 0; 0; 0;  6; 0; 0; 0;
            6; 0; 0; 0;  0; 0; 0; 0].

(** ** Buffers: reads and writes by position *)

Lemma len_nonneg {A} (l : list A) : 0 <= len l.
Proof. unfold len. lia. Qed.

Lemma len_app {A} (l l' : list A) : len (l ++ l') = len l + len l'.
Proof. unfold len. rewrite length_app. lia. Qed.

Lemma len_repeat {A} (a : A) n : len (repeat a n) = Z.of_nat n.
Proof. unfold len. now rewrite repeat_length. Qed.

Lemma len_le_split n z : len (le_split n z) = Z.of_nat n.
Proof. unfold len. now rewrite length_le_split. Qed.

Lemma adjust_index_nonneg n i : 0 <= i -> adjust_index n i = Z.min i n.
Proof. unfold adjust_index. intros. destruct (Z.ltb_spec i 0); lia. Qed.

Lemma store_unfold l p d :
  0 <= p ->
  store l p d =
    firstn (landing l p) l ++ d
      ++ skipn (Nat.max (landing l p) (Nat.min (Z.to_nat p + List.length d) (List.length l))) l.
Proof.
  intros Hp. unfold store, setslice, landing.
  pose proof (len_nonneg l) as Hl. pose proof (len_nonneg d) as Hd.
  rewrite !adjust_index_nonneg by lia. unfold len in *.
  f_equal; [f_equal; lia|]. f_equal. f_equal. lia.
Qed.

Lemma nth_error_store l p d k :
  0 <= p ->
  nth_error (store l p d) k =
    if (k <? landing l p)%nat then nth_error l k
    else if (k <? landing l p + List.length d)%nat then nth_error d (k - landing l p)
         else nth_error l k.
Proof.
  intros Hp. rewrite store_unfold by assumption.
  set (P := landing l p).
  assert (HP : (P <= List.length l)%nat) by (unfold P, landing; lia).
  rewrite nth_error_app, length_firstn, Nat.min_l by assumption.
  destruct (Nat.ltb_spec k P) as [Hk|Hk].
  - rewrite nth_error_firstn. destruct (Nat.ltb_spec k P); [reflexivity|lia].
  - rewrite nth_error_app.
    destruct (Nat.ltb_spec (k - P) (List.length d)) as [Hd|Hd];
      destruct (Nat.ltb_spec k (P + List.length d)); try lia; try reflexivity.
    rewrite nth_error_skipn.
    destruct (Nat.le_gt_cases (Z.to_nat p + List.length d) (List.length l)) as [Hin|Hout].
    + rewrite Nat.min_l by assumption.
      assert (P = Z.to_nat p) by (unfold P, landing; lia).
      f_equal. lia.
    + transitivity (@None byte).
      * apply nth_error_None. lia.
      * symmetry. apply nth_error_None. unfold P, landing in *. lia.
Qed.

Lemma length_store l p d :
  0 <= p ->
  List.length (store l p d) = Nat.max (List.length l) (landing l p + List.length d).
Proof.
  intros Hp. rewrite store_unfold by assumption.
  rewrite !length_app, length_firstn, length_skipn. unfold landing. lia.
Qed.

Lemma length_store_ge l p d : 0 <= p -> (List.length l <= List.length (store l p d))%nat.
Proof. intros. rewrite length_store by assumption. lia. Qed.

Lemma length_store_inplace l p d :
  0 <= p -> p + len d <= len l -> List.length (store l p d) = List.length l.
Proof.
  intros. rewrite length_store by assumption. unfold landing, len in *. lia.
Qed.

(** A write leaves alone every byte of the buffer outside its range. *)
Lemma nth_error_store_other l p d k :
  0 <= p -> (k < List.length l)%nat ->
  Z.of_nat k < p \/ p + len d <= Z.of_nat k ->
  nth_error (store l p d) k = nth_error l k.
Proof.
  intros Hp Hk Hout. rewrite nth_error_store by assumption.
  unfold landing, len in *.
  destruct (Nat.ltb_spec k (Nat.min (Z.to_nat p) (List.length l))); [reflexivity|].
  destruct (Nat.ltb_spec k (Nat.min (Z.to_nat p) (List.length l) + List.length d));
    [lia|reflexivity].
Qed.

(** A write that starts inside the buffer (or at its end) can be read back. *)
Lemma nth_error_store_same l p d k :
  0 <= p <= len l -> p <= Z.of_nat k < p + len d ->
  nth_error (store l p d) k = nth_error d (k - Z.to_nat p).
Proof.
  intros Hp Hk. rewrite nth_error_store by lia.
  unfold landing, len in *. rewrite Nat.min_l by lia.
  destruct (Nat.ltb_spec k (Z.to_nat p)); [lia|].
  destruct (Nat.ltb_spec k (Z.to_nat p + List.length d)); [reflexivity|lia].
Qed.

(** Writing what is already there changes nothing. *)
Lemma store_same l p d :
  0 <= p -> firstn (List.length d) (skipn (Z.to_nat p) l) = d -> store l p d = l.
Proof.
  intros Hp Hd. apply nth_error_ext. intros k.
  rewrite nth_error_store by assumption.
  assert (Hlen : d = [] \/ (Z.to_nat p + List.length d <= List.length l)%nat).
  { apply (f_equal (@List.length byte)) in Hd.
    rewrite length_firstn, length_skipn in Hd. destruct d; [now left|right].
    cbn [List.length] in *. lia. }
  destruct (Nat.ltb_spec k (landing l p)); [reflexivity|].
  destruct (Nat.ltb_spec k (landing l p + List.length d)); [|reflexivity].
  destruct Hlen as [->|Hlen]; [simpl in *; lia|].
  unfold landing in *. rewrite Nat.min_l in * by lia.
  rewrite <- Hd at 1. rewrite nth_error_firstn, nth_error_skipn.
  destruct (Nat.ltb_spec (k - Z.to_nat p) (List.length d)); [f_equal; lia|lia].
Qed.

Lemma Forall_app_intro {A} (P : A -> Prop) l1 l2 :
  Forall P l1 -> Forall P l2 -> Forall P (l1 ++ l2).
Proof. intros. apply Forall_app. split; assumption. Qed.

Lemma apply_writes_app ws1 ws2 l :
  apply_writes (ws1 ++ ws2) l = apply_writes ws2 (apply_writes ws1 l).
Proof. apply fold_left_app. Qed.

Lemma length_apply_writes_ge ws : forall l,
  Forall nonneg_pos ws -> (List.length l <= List.length (apply_writes ws l))%nat.
Proof.
  induction ws as [|[p d] ws IH]; intros l Hws; simpl; [lia|].
  inversion Hws; subst. unfold nonneg_pos in *; simpl in *.
  etransitivity; [apply (length_store_ge l p d); assumption|].
  apply IH; assumption.
Qed.

Lemma nth_error_apply_writes_other ws : forall l k,
  Forall nonneg_pos ws -> (k < List.length l)%nat -> Forall (outside k) ws ->
  nth_error (apply_writes ws l) k = nth_error l k.
Proof.
  induction ws as [|[p d] ws IH]; intros l k Hws Hk Hout; simpl; [reflexivity|].
  inversion Hws; subst. inversion Hout; subst.
  unfold nonneg_pos, outside in *; simpl in *.
  rewrite IH; try assumption.
  - apply nth_error_store_other; assumption.
  - pose proof (length_store_ge l p d H1). lia.
Qed.

Lemma length_apply_writes_inplace ws : forall l,
  Forall (inplace (List.length l)) ws -> List.length (apply_writes ws l) = List.length l.
Proof.
  induction ws as [|[p d] ws IH]; intros l Hws; simpl; [reflexivity|].
  inversion Hws as [|? ? [Hp Hd] Hrest]; subst. cbn [fst snd] in *.
  assert (Hl : List.length (store l p d) = List.length l)
    by (apply length_store_inplace; unfold len in *; lia).
  rewrite IH; rewrite Hl; auto.
Qed.

Lemma apply_writes_same ws : forall l,
  Forall (fun w => 0 <= fst w
                   /\ firstn (List.length (snd w)) (skipn (Z.to_nat (fst w)) l) = snd w) ws ->
  apply_writes ws l = l.
Proof.
  induction ws as [|[p d] ws IH]; intros l Hws; simpl; [reflexivity|].
  inversion Hws as [|? ? [Hp Hd] Hrest]; subst. simpl in *.
  rewrite store_same by assumption. apply IH; assumption.
Qed.

(** Reading [n] bytes at [a]: equal when the bytes are. *)
Lemma read_ext (l1 l2 : bytes) (a1 a2 n : nat) :
  (forall i, (i < n)%nat -> nth_error l1 (a1 + i) = nth_error l2 (a2 + i)) ->
  firstn n (skipn a1 l1) = firstn n (skipn a2 l2).
Proof.
  intros H. apply nth_error_ext. intros i.
  rewrite !nth_error_firstn, !nth_error_skipn.
  destruct (Nat.ltb_spec i n); auto.
Qed.

Lemma read_whole (d : bytes) : firstn (List.length d) (skipn 0 d) = d.
Proof. simpl. apply firstn_all. Qed.

(** A write that starts inside the buffer and is not overlapped by the
    writes after it is read back from the final buffer. *)
Lemma read_apply_writes ws1 p d ws2 l :
  Forall nonneg_pos ws1 -> Forall nonneg_pos ws2 ->
  0 <= p <= len (apply_writes ws1 l) ->
  (forall k, p <= Z.of_nat k < p + len d -> Forall (outside k) ws2) ->
  firstn (List.length d) (skipn (Z.to_nat p) (apply_writes (ws1 ++ (p, d) :: ws2) l)) = d.
Proof.
  intros H1 H2 Hp Hout.
  rewrite apply_writes_app. cbn [apply_writes fold_left fst snd].
  fold (apply_writes ws2 (store (apply_writes ws1 l) p d)).
  set (l1 := apply_writes ws1 l) in *.
  transitivity (firstn (List.length d) (skipn 0 d)); [|apply read_whole].
  apply read_ext. intros i Hi. cbn [Nat.add].
  rewrite nth_error_apply_writes_other; try assumption.
  - rewrite nth_error_store_same by (unfold len in *; lia). f_equal. lia.
  - rewrite length_store by lia. unfold landing, len in *. lia.
  - apply Hout. unfold len. lia.
Qed.

(** ** The [struct] primitives *)

Lemma bind_Return {A B} (m : outcome A) (k : A -> outcome B) b :
  bind m k = Return b -> exists a, m = Return a /\ k a = Return b.
Proof. destruct m; simpl; intros H; [eauto|discriminate]. Qed.

Ltac bind_inv H :=
  let a := fresh "a" in
  let Ha := fresh "Ha" in
  apply bind_Return in H; destruct H as (a & Ha & H).

Lemma read_u32_range f pos : 0 <= read_u32 f pos <= u32_max.
Proof.
  unfold read_u32, u32_max.
  pose proof (le_combine_bound (firstn 4 (skipn (Z.to_nat pos) f))) as H.
  assert (Hl : (List.length (firstn 4 (skipn (Z.to_nat pos) f)) <= 4)%nat)
    by (rewrite length_firstn; lia).
  assert (2 ^ (8 * Z.of_nat (List.length (firstn 4 (skipn (Z.to_nat pos) f)))) <= 2 ^ 32)
    by (apply Z.pow_le_mono_r; lia).
  change (2 ^ 32) with 4294967296 in *. lia.
Qed.

Lemma unpack_from_I_Return f offset v :
  unpack_from_I f offset = Return v ->
  offset + 4 <= len f /\ v = read_u32 f offset.
Proof.
  unfold unpack_from_I. destruct (Z.ltb_spec (len f - offset) 4); [discriminate|].
  intros [= <-]. split; [lia|reflexivity].
Qed.

Lemma unpack_from_I_ok f offset :
  offset + 4 <= len f -> unpack_from_I f offset = Return (read_u32 f offset).
Proof.
  intros. unfold unpack_from_I. destruct (Z.ltb_spec (len f - offset) 4); [lia|reflexivity].
Qed.

Lemma unpack_from_II_Return f offset v :
  unpack_from_II f offset = Return v ->
  offset + 8 <= len f
  /\ v = (StringLiteral.length (read_literal f offset),
          StringLiteral.offset (read_literal f offset)).
Proof.
  unfold unpack_from_II. destruct (Z.ltb_spec (len f - offset) 8); [discriminate|].
  intros [= <-]. split; [lia|reflexivity].
Qed.

Lemma unpack_from_II_ok f offset :
  offset + 8 <= len f ->
  unpack_from_II f offset
  = Return (StringLiteral.length (read_literal f offset),
            StringLiteral.offset (read_literal f offset)).
Proof.
  intros. unfold unpack_from_II. destruct (Z.ltb_spec (len f - offset) 8); [lia|reflexivity].
Qed.

Lemma pack_I_Return v b : pack_I v = Return b -> 0 <= v <= u32_max /\ b = le_split 4 v.
Proof.
  unfold pack_I.
  destruct (Z.leb_spec 0 v); destruct (Z.leb_spec v u32_max); simpl;
    try discriminate. intros [= <-]. split; [lia|reflexivity].
Qed.

Lemma pack_I_ok v : 0 <= v <= u32_max -> pack_I v = Return (le_split 4 v).
Proof.
  intros. unfold pack_I.
  destruct (Z.leb_spec 0 v); destruct (Z.leb_spec v u32_max); simpl; try lia; reflexivity.
Qed.

Lemma len_literal_bytes lit : len (literal_bytes lit) = 8.
Proof. unfold literal_bytes. rewrite len_app, !len_le_split. reflexivity. Qed.

Lemma length_literal_bytes lit : List.length (literal_bytes lit) = 8%nat.
Proof. unfold literal_bytes. rewrite length_app, !length_le_split. reflexivity. Qed.

Lemma pack_into_II_Return buffer offset v1 v2 r :
  pack_into_II buffer offset v1 v2 = Return r ->
  offset + 8 <= len buffer /\ 0 <= v1 <= u32_max /\ 0 <= v2 <= u32_max
  /\ r = store buffer offset (literal_bytes (StringLiteral.mk v1 v2)).
Proof.
  unfold pack_into_II. destruct (Z.ltb_spec (len buffer - offset) 8); [discriminate|].
  intros H0. bind_inv H0. bind_inv H0.
  apply pack_I_Return in Ha as [? ->]. apply pack_I_Return in Ha0 as [? ->].
  injection H0 as <-. repeat split; try lia.
Qed.

Lemma pack_into_II_ok buffer offset v1 v2 :
  offset + 8 <= len buffer -> 0 <= v1 <= u32_max -> 0 <= v2 <= u32_max ->
  pack_into_II buffer offset v1 v2
  = Return (store buffer offset (literal_bytes (StringLiteral.mk v1 v2))).
Proof.
  intros. unfold pack_into_II. destruct (Z.ltb_spec (len buffer - offset) 8); [lia|].
  rewrite !pack_I_ok by assumption. simpl.
  unfold store. rewrite len_literal_bytes. reflexivity.
Qed.

(** Packing then reading gives the number back. *)
Lemma le_combine_le_split_u32 v : 0 <= v <= u32_max -> le_combine (le_split 4 v) = v.
Proof.
  intros. rewrite le_combine_split. apply Z.mod_small.
  unfold u32_max in *. change (2 ^ (Z.of_nat 4 * 8)) with 4294967296. lia.
Qed.

Lemma read_literal_of_bytes f pos lit :
  0 <= pos ->
  0 <= StringLiteral.length lit <= u32_max -> 0 <= StringLiteral.offset lit <= u32_max ->
  firstn 8 (skipn (Z.to_nat pos) f) = literal_bytes lit ->
  read_literal f pos = lit.
Proof.
  intros Hpos Hl Ho H. destruct lit as [l o]. unfold read_literal, read_u32, literal_bytes in *.
  cbn [StringLiteral.length StringLiteral.offset] in *. f_equal.
  - replace (firstn 4 (skipn (Z.to_nat pos) f))
      with (firstn 4 (firstn 8 (skipn (Z.to_nat pos) f)))
      by (rewrite firstn_firstn; reflexivity).
    rewrite H, firstn_app, length_le_split, Nat.sub_diag, firstn_O, app_nil_r.
    rewrite firstn_all2 by (rewrite length_le_split; lia).
    apply le_combine_le_split_u32; assumption.
  - replace (Z.to_nat (pos + 4)) with (4 + Z.to_nat pos)%nat by lia.
    rewrite <- skipn_skipn, firstn_skipn_comm. change (4 + 4)%nat with 8%nat.
    rewrite H, skipn_app, length_le_split, Nat.sub_diag, skipn_O.
    rewrite skipn_all2 by (rewrite length_le_split; lia). cbn [app].
    apply le_combine_le_split_u32; assumption.
Qed.

(** ** The constructor *)

Lemma parse_loop_Return f slo sdo n : forall i lits strs lits' strs',
  MetadataFile.parse_loop f slo sdo i n lits strs = Return (lits', strs') ->
  (n = O \/ slo + (i + Z.of_nat n) * 8 <= len f)
  /\ lits' = lits ++ read_table f slo i n
  /\ strs' = strs ++ map (payload_of f sdo) (read_table f slo i n).
Proof.
  induction n as [|n IH]; intros i lits strs lits' strs' H; simpl in H.
  - injection H as <- <-. simpl. rewrite !app_nil_r. auto.
  - bind_inv H. apply unpack_from_II_Return in Ha as [Hlen ->]. simpl in H.
    apply IH in H as (Hb & -> & ->).
    split; [right; destruct Hb as [->|Hb]; lia|].
    simpl. rewrite <- !app_assoc. split; reflexivity.
Qed.

Lemma parse_loop_ok f slo sdo n : forall i lits strs,
  n = O \/ slo + (i + Z.of_nat n) * 8 <= len f ->
  MetadataFile.parse_loop f slo sdo i n lits strs
  = Return (lits ++ read_table f slo i n,
            strs ++ map (payload_of f sdo) (read_table f slo i n)).
Proof.
  induction n as [|n IH]; intros i lits strs Hb; simpl.
  - rewrite !app_nil_r. reflexivity.
  - rewrite unpack_from_II_ok by (destruct Hb; [discriminate|lia]). simpl.
    rewrite IH by (destruct n; [left; reflexivity|right; lia]).
    rewrite <- !app_assoc. reflexivity.
Qed.

Lemma length_read_table f slo n : forall i, List.length (read_table f slo i n) = n.
Proof. induction n; intros; simpl; [reflexivity|now rewrite IHn]. Qed.

Lemma init_Return content self :
  MetadataFile.init content = Return self ->
  24 <= len content
  /\ read_u32 content 0 = MetadataFile.MAGIC
  /\ (read_u32 content 12 / 8 = 0
      \/ read_u32 content 8 + 8 * (read_u32 content 12 / 8) <= len content)
  /\ self = loaded_from content.
Proof.
  unfold MetadataFile.init, MetadataFile.parse. cbn [MetadataFile.file_data
    MetadataFile.string_literals MetadataFile.str_bytes].
  intros H. bind_inv H. apply unpack_from_I_Return in Ha as [_ ->].
  destruct (Z.eqb_spec (read_u32 content 0) MetadataFile.MAGIC) as [Hm|]; [|discriminate].
  cbn [negb] in H. bind_inv H. unfold unpack_from_i in Ha. bind_inv Ha.
  apply unpack_from_I_Return in Ha0 as [_ ->]. injection Ha as <-.
  bind_inv H. apply unpack_from_I_Return in Ha as [_ ->].
  bind_inv H. apply unpack_from_I_Return in Ha as [_ ->].
  bind_inv H. apply unpack_from_I_Return in Ha as [_ ->].
  bind_inv H. apply unpack_from_I_Return in Ha as [H24 ->].
  bind_inv H. destruct a as [lits strs]. apply parse_loop_Return in Ha as (Hb & -> & ->).
  injection H as <-. pose proof (read_u32_range content 12).
  assert (0 <= read_u32 content 12 / 8) by (apply Z.div_pos; lia).
  split; [lia|]. split; [assumption|]. split; [|reflexivity].
  destruct Hb as [Hb|Hb]; [left|right]; lia.
Qed.

Lemma init_ok content :
  24 <= len content ->
  read_u32 content 0 = MetadataFile.MAGIC ->
  (read_u32 content 12 / 8 = 0
   \/ read_u32 content 8 + 8 * (read_u32 content 12 / 8) <= len content) ->
  MetadataFile.init content = Return (loaded_from content).
Proof.
  intros H24 Hm Hb.
  unfold MetadataFile.init, MetadataFile.parse. cbn [MetadataFile.file_data
    MetadataFile.string_literals MetadataFile.str_bytes].
  rewrite unpack_from_I_ok by lia. cbn [bind]. rewrite Hm, Z.eqb_refl. cbn [negb].
  unfold unpack_from_i. rewrite !unpack_from_I_ok by lia. cbn [bind].
  pose proof (read_u32_range content 12).
  assert (0 <= read_u32 content 12 / 8) by (apply Z.div_pos; lia).
  rewrite parse_loop_ok by (destruct Hb; [left|right]; lia).
  reflexivity.
Qed.

Lemma loaded_from_inv content :
  24 <= len content ->
  read_u32 content 0 = MetadataFile.MAGIC ->
  (read_u32 content 12 / 8 = 0
   \/ read_u32 content 8 + 8 * (read_u32 content 12 / 8) <= len content) ->
  loaded_inv (loaded_from content).
Proof.
  intros H24 Hm Hb. pose proof (read_u32_range content 12).
  assert (0 <= read_u32 content 12 / 8) by (apply Z.div_pos; lia).
  constructor; unfold loaded_from; cbn; try reflexivity; try assumption.
  - unfold unpack_from_i. rewrite unpack_from_I_ok by lia. reflexivity.
  - apply read_u32_range.
  - unfold len. rewrite length_read_table. lia.
  - unfold len. rewrite length_map, length_read_table. lia.
Qed.

Lemma init_inv content self :
  MetadataFile.init content = Return self -> loaded_inv self.
Proof.
  intros H. apply init_Return in H as (H24 & Hm & Hb & ->).
  apply loaded_from_inv; assumption.
Qed.

(** ** [set_string] *)

Lemma length_replace_nth {A} (l : list A) : forall n v,
  List.length (replace_nth n l v) = List.length l.
Proof. induction l; intros [|n] v; simpl; auto. Qed.

Lemma nth_error_replace_nth {A} (l : list A) : forall n v k,
  (n < List.length l)%nat ->
  nth_error (replace_nth n l v) k = if (k =? n)%nat then Some v else nth_error l k.
Proof.
  induction l as [|a l IH]; intros [|n] v [|k] Hn; simpl in *; try lia; try reflexivity.
  apply IH. lia.
Qed.

Lemma setitem_Return {A} (l : list A) index v l' :
  setitem l index v = Return l' ->
  -len l <= index < len l
  /\ l' = replace_nth (Z.to_nat (if index <? 0 then index + len l else index)) l v.
Proof.
  unfold setitem.
  destruct (Z.ltb_spec index 0);
    match goal with |- context [(?a <=? ?b) && (?c <? ?d)] =>
      destruct (Z.leb_spec a b); destruct (Z.ltb_spec c d) end;
    simpl; try discriminate; intros [= <-]; split; (lia || reflexivity).
Qed.

Lemma setitem_Raise {A} (l : list A) index v e :
  setitem l index v = Raise e -> e = IndexError /\ (index < - len l \/ len l <= index).
Proof.
  unfold setitem.
  destruct (Z.ltb_spec index 0);
    match goal with |- context [(?a <=? ?b) && (?c <? ?d)] =>
      destruct (Z.leb_spec a b); destruct (Z.ltb_spec c d) end;
    simpl; try discriminate; intros [= <-]; split; (lia || reflexivity).
Qed.

Lemma set_string_shape self index new_value :
  exists l, fst (MetadataFile.set_string self index new_value)
            = MetadataFile.with_str_bytes self l
            /\ List.length l = List.length (MetadataFile.str_bytes self).
Proof.
  unfold MetadataFile.set_string.
  destruct (encode_utf8 new_value) as [enc|e].
  - destruct (setitem _ index _) as [l|e] eqn:E; simpl.
    + exists l. split; [reflexivity|].
      apply setitem_Return in E as [_ ->]. apply length_replace_nth.
    + exists (MetadataFile.str_bytes self). destruct self; auto.
  - exists (MetadataFile.str_bytes self). destruct self; auto.
Qed.

Lemma with_str_bytes_inv self l :
  loaded_inv self -> List.length l = List.length (MetadataFile.str_bytes self) ->
  loaded_inv (MetadataFile.with_str_bytes self l).
Proof.
  intros [] Hl. constructor; cbn; try assumption.
  unfold len in *. rewrite Hl. assumption.
Qed.

Lemma set_string_inv self index new_value :
  loaded_inv self -> loaded_inv (fst (MetadataFile.set_string self index new_value)).
Proof.
  intros H. destruct (set_string_shape self index new_value) as (l & -> & Hl).
  apply with_str_bytes_inv; assumption.
Qed.

Lemma set_strings_inv edits : forall self,
  loaded_inv self -> loaded_inv (set_strings edits self).
Proof.
  induction edits as [|[i v] edits IH]; intros self H; simpl; [assumption|].
  apply IH. apply set_string_inv. assumption.
Qed.

(** A document keeps the buffer and the header fields it was loaded with. *)
Lemma set_strings_fields edits : forall self,
  MetadataFile.file_data (set_strings edits self) = MetadataFile.file_data self
  /\ MetadataFile.string_literals (set_strings edits self) = MetadataFile.string_literals self
  /\ MetadataFile.string_literal_offset (set_strings edits self)
     = MetadataFile.string_literal_offset self
  /\ MetadataFile.string_literal_count (set_strings edits self)
     = MetadataFile.string_literal_count self
  /\ MetadataFile.string_literal_data_offset (set_strings edits self)
     = MetadataFile.string_literal_data_offset self
  /\ MetadataFile.data_info_position (set_strings edits self)
     = MetadataFile.data_info_position self
  /\ MetadataFile.version (set_strings edits self) = MetadataFile.version self.
Proof.
  induction edits as [|[i v] edits IH]; intros self; simpl; [repeat split|].
  destruct (set_string_shape self i v) as (l & E & _).
  specialize (IH (fst (MetadataFile.set_string self i v))).
  rewrite E in IH at 2 4 6 8 10 12 14. exact IH.
Qed.

Lemma document_inv content edits self :
  MetadataFile.init content = Return self -> loaded_inv (set_strings edits self).
Proof. intros H. apply set_strings_inv. apply (init_inv content). assumption. Qed.

(** ** The loops of [save] *)

Lemma total_len_cons s strs : total_len (s :: strs) = len s + total_len strs.
Proof. reflexivity. Qed.

Lemma total_len_nonneg strs : 0 <= total_len strs.
Proof.
  induction strs as [|a strs IH]; [unfold total_len; simpl; lia|].
  rewrite total_len_cons. pose proof (len_nonneg a). lia.
Qed.

Lemma total_len_app s1 s2 : total_len (s1 ++ s2) = total_len s1 + total_len s2.
Proof. induction s1; [reflexivity|]. cbn [app]. rewrite !total_len_cons. lia. Qed.

Lemma skipn_nth_error {A} (l : list A) : forall n x,
  nth_error l n = Some x -> skipn n l = x :: skipn (S n) l.
Proof.
  induction l as [|a l IH]; intros [|n] x H; simpl in *; try discriminate.
  - now injection H as ->.
  - apply IH. assumption.
Qed.

Lemma getitem_Return {A} (l : list A) i v :
  0 <= i -> getitem l i = Return v -> nth_error l (Z.to_nat i) = Some v.
Proof.
  intros Hi. unfold getitem. destruct (Z.ltb_spec i 0); [lia|].
  destruct ((0 <=? i) && (i <? len l)); [|discriminate].
  destruct (nth_error l (Z.to_nat i)); [|discriminate]. now intros [= ->].
Qed.

Lemma getitem_ok {A} (l : list A) i v :
  0 <= i -> nth_error l (Z.to_nat i) = Some v -> getitem l i = Return v.
Proof.
  intros Hi H. unfold getitem. destruct (Z.ltb_spec i 0); [lia|].
  assert (Hlt : (Z.to_nat i < List.length l)%nat)
    by (apply nth_error_Some; congruence).
  destruct (Z.leb_spec 0 i); [|lia].
  destruct (Z.ltb_spec i (len l)); [|unfold len in *; lia].
  simpl. now rewrite H.
Qed.

Lemma save_loop_Return lits : forall i strs fd pos oc lits' fd' oc',
  0 <= i ->
  MetadataFile.save_loop lits i strs fd pos oc = Return (lits', fd', oc') ->
  let part := firstn (List.length lits) (skipn (Z.to_nat i) strs) in
  List.length part = List.length lits
  /\ lits' = packed_literals part oc
  /\ fd' = apply_writes (table_writes lits' pos) fd
  /\ oc' = oc + total_len part.
Proof.
  induction lits as [|lit lits IH]; intros i strs fd pos oc lits' fd' oc' Hi H; simpl in H.
  - injection H as <- <- <-. simpl. repeat split. lia.
  - bind_inv H. rename a into s. apply getitem_Return in Ha; [|assumption].
    bind_inv H. rename a into fd1. cbn [StringLiteral.length StringLiteral.offset] in *.
    apply pack_into_II_Return in Ha0 as (_ & _ & _ & ->).
    bind_inv H. destruct a as [[l2 fd2] oc2]. injection H as <- <- <-.
    apply IH in Ha0; [|lia]. destruct Ha0 as (Hlen & -> & -> & ->).
    replace (Z.to_nat (i + 1)) with (S (Z.to_nat i)) in * by lia.
    cbv zeta. cbn [List.length]. rewrite (skipn_nth_error _ _ _ Ha). cbn [firstn].
    cbn [List.length packed_literals table_writes apply_writes fold_left fst snd].
    rewrite total_len_cons.
    repeat split; try reflexivity; lia.
Qed.

Lemma save_loop_ok lits : forall i strs fd pos oc,
  0 <= i -> (Z.to_nat i + List.length lits <= List.length strs)%nat ->
  lits = [] \/ pos + 8 * len lits <= len fd -> 0 <= pos ->
  0 <= oc ->
  oc + total_len (firstn (List.length lits) (skipn (Z.to_nat i) strs)) <= u32_max ->
  let part := firstn (List.length lits) (skipn (Z.to_nat i) strs) in
  MetadataFile.save_loop lits i strs fd pos oc
  = Return (packed_literals part oc,
            apply_writes (table_writes (packed_literals part oc) pos) fd,
            oc + total_len part).
Proof.
  induction lits as [|lit lits IH]; intros i strs fd pos oc Hi Hn Hb Hpos Hoc Hmax; simpl.
  - rewrite Z.add_0_r. reflexivity.
  - cbn [List.length] in *.
    destruct (nth_error strs (Z.to_nat i)) as [s|] eqn:E;
      [|apply nth_error_None in E; lia].
    rewrite (getitem_ok _ _ _ Hi E). cbn [bind].
    rewrite (skipn_nth_error _ _ _ E) in *. cbn [firstn] in *.
    rewrite total_len_cons in *.
    pose proof (total_len_nonneg (firstn (List.length lits) (skipn (S (Z.to_nat i)) strs))).
    pose proof (len_nonneg s).
    destruct Hb as [Hb|Hb]; [discriminate|].
    unfold len in Hb. cbn [List.length] in Hb.
    rewrite pack_into_II_ok by (unfold len in *; lia). cbn [bind].
    assert (Hlen1 : lits = [] \/ pos + 8 + 8 * len lits
                                 <= len (store fd pos (literal_bytes (StringLiteral.mk (len s) oc)))).
    { destruct lits; [left; reflexivity|right].
      assert (E1 : List.length (store fd pos (literal_bytes (StringLiteral.mk (len s) oc)))
                   = List.length fd)
        by (apply length_store_inplace; rewrite ?len_literal_bytes; unfold len; lia).
      unfold len in *. rewrite E1. cbn [List.length] in *. lia. }
    rewrite IH; replace (Z.to_nat (i + 1)) with (S (Z.to_nat i)) by lia;
      try assumption; try lia.
    cbn [bind]. cbn [packed_literals table_writes apply_writes fold_left fst snd].
    rewrite Z.add_assoc. reflexivity.
Qed.

Lemma write_loop_eq strs : forall fd p,
  MetadataFile.write_loop strs fd p = apply_writes (payload_writes strs p) fd.
Proof. induction strs as [|s strs IH]; intros; simpl; [reflexivity|]. apply IH. Qed.

Lemma store_at_end l d : store l (len l) d = l ++ d.
Proof.
  rewrite store_unfold by apply len_nonneg. unfold landing, len.
  rewrite Nat2Z.id, Nat.min_id, firstn_all.
  rewrite skipn_all2 by lia. now rewrite app_nil_r.
Qed.

Lemma padding_needed_range sdo oc : 0 <= MetadataFile.padding_needed sdo oc < 4.
Proof. unfold MetadataFile.padding_needed. apply Z.mod_pos_bound. lia. Qed.

Lemma pad_eq fd sdo oc :
  MetadataFile.pad fd sdo oc
  = (apply_writes (pad_writes (len fd) sdo oc) fd, oc + MetadataFile.padding_needed sdo oc).
Proof.
  unfold MetadataFile.pad, pad_writes.
  pose proof (padding_needed_range sdo oc) as Hr.
  destruct (Z.eqb_spec (MetadataFile.padding_needed sdo oc) 0) as [->|Hne].
  - simpl. now rewrite Z.add_0_r.
  - f_equal. destruct (_ >? _); cbn [app apply_writes fold_left fst snd].
    + rewrite store_at_end. unfold store. rewrite len_repeat, Z2Nat.id by lia. reflexivity.
    + unfold store. rewrite len_repeat, Z2Nat.id by lia. reflexivity.
Qed.

(** ** Where [save] writes *)

Lemma table_writes_nonneg lits : forall pos,
  0 <= pos -> Forall nonneg_pos (table_writes lits pos).
Proof.
  induction lits as [|lit lits IH]; intros pos Hp; simpl; constructor.
  - exact Hp.
  - apply IH. lia.
Qed.

Lemma table_writes_inplace lits : forall pos n,
  0 <= pos -> pos + 8 * len lits <= Z.of_nat n -> Forall (inplace n) (table_writes lits pos).
Proof.
  induction lits as [|lit lits IH]; intros pos n Hp Hn; simpl; constructor.
  - unfold inplace. cbn [fst snd]. rewrite len_literal_bytes.
    unfold len in *. cbn [List.length] in *. lia.
  - apply IH; unfold len in *; cbn [List.length] in *; lia.
Qed.

Lemma table_writes_outside lits : forall pos k,
  Z.of_nat k < pos \/ pos + 8 * len lits <= Z.of_nat k ->
  Forall (outside k) (table_writes lits pos).
Proof.
  induction lits as [|lit lits IH]; intros pos k Hk; simpl; constructor.
  - unfold outside. cbn [fst snd]. rewrite len_literal_bytes.
    unfold len in *. cbn [List.length] in *. lia.
  - apply IH; unfold len in *; cbn [List.length] in *; lia.
Qed.

Lemma length_table_writes lits pos fd :
  0 <= pos -> lits = [] \/ pos + 8 * len lits <= len fd ->
  List.length (apply_writes (table_writes lits pos) fd) = List.length fd.
Proof.
  intros Hp [->|Hb]; [reflexivity|].
  apply length_apply_writes_inplace. apply table_writes_inplace; assumption.
Qed.

Lemma payload_writes_nonneg strs : forall p,
  0 <= p -> Forall nonneg_pos (payload_writes strs p).
Proof.
  induction strs as [|s strs IH]; intros p Hp; simpl; constructor.
  - exact Hp.
  - apply IH. pose proof (len_nonneg s). lia.
Qed.

Lemma payload_writes_outside strs : forall p k,
  Z.of_nat k < p \/ p + total_len strs <= Z.of_nat k ->
  Forall (outside k) (payload_writes strs p).
Proof.
  induction strs as [|s strs IH]; intros p k Hk; simpl; constructor;
    rewrite total_len_cons in Hk; pose proof (len_nonneg s);
    pose proof (total_len_nonneg strs).
  - unfold outside. cbn [fst snd]. lia.
  - apply IH. lia.
Qed.

Lemma pad_writes_nonneg n sdo oc :
  0 <= n -> 0 <= sdo + oc -> Forall nonneg_pos (pad_writes n sdo oc).
Proof.
  intros Hn Hs. unfold pad_writes.
  destruct (_ =? 0); [constructor|].
  destruct (_ >? _); cbn [app]; repeat apply Forall_cons; try apply Forall_nil;
    unfold nonneg_pos; cbn [fst]; assumption.
Qed.

Lemma pad_writes_outside n sdo oc k :
  Z.of_nat k < n ->
  Z.of_nat k < sdo + oc \/ sdo + oc + MetadataFile.padding_needed sdo oc <= Z.of_nat k ->
  Forall (outside k) (pad_writes n sdo oc).
Proof.
  intros Hn Hk. unfold pad_writes. pose proof (padding_needed_range sdo oc).
  destruct (_ =? 0); [constructor|].
  destruct (_ >? _); cbn [app]; repeat apply Forall_cons; try apply Forall_nil;
    unfold outside; cbn [fst snd]; rewrite ?len_repeat; lia.
Qed.

Lemma packed_literals_length strs : forall oc,
  List.length (packed_literals strs oc) = List.length strs.
Proof. induction strs; intros; simpl; [reflexivity|now rewrite IHstrs]. Qed.

Lemma save_writes_nonneg self :
  loaded_inv self -> 0 <= MetadataFile.string_literal_offset self ->
  Forall nonneg_pos (save_writes self).
Proof.
  intros Hinv Hslo. unfold save_writes. pose proof (inv_sdo _ Hinv).
  pose proof (total_len_nonneg (MetadataFile.str_bytes self)).
  repeat apply Forall_app_intro.
  - apply table_writes_nonneg. assumption.
  - apply pad_writes_nonneg; [apply len_nonneg|lia].
  - apply payload_writes_nonneg. lia.
  - apply Forall_cons; [|apply Forall_nil].
    unfold nonneg_pos. cbn [fst]. rewrite (inv_dip _ Hinv). lia.
Qed.

Lemma inv_slo_nonneg self : loaded_inv self -> 0 <= MetadataFile.string_literal_offset self.
Proof. intros H. rewrite <- (inv_slo _ H). apply read_u32_range. Qed.

Lemma inv_lengths self :
  loaded_inv self ->
  List.length (MetadataFile.string_literals self) = List.length (MetadataFile.str_bytes self).
Proof.
  intros H. pose proof (inv_lits _ H). pose proof (inv_strs _ H). unfold len in *. lia.
Qed.

Lemma inv_table_strs self :
  loaded_inv self ->
  MetadataFile.str_bytes self = []
  \/ MetadataFile.string_literal_offset self + 8 * len (MetadataFile.str_bytes self)
     <= len (MetadataFile.file_data self).
Proof.
  intros H. pose proof (inv_strs _ H) as Hs. destruct (inv_table _ H) as [H0|Hb].
  - left. rewrite H0 in Hs. unfold len in Hs. destruct (MetadataFile.str_bytes self);
      [reflexivity|simpl in Hs; lia].
  - right. rewrite Hs. assumption.
Qed.

Lemma before_header_eq self :
  apply_writes (payload_writes (MetadataFile.str_bytes self)
                               (MetadataFile.string_literal_data_offset self))
    (apply_writes (pad_writes (len (MetadataFile.file_data self))
                              (MetadataFile.string_literal_data_offset self)
                              (total_len (MetadataFile.str_bytes self)))
       (apply_writes (table_writes (packed_literals (MetadataFile.str_bytes self) 0)
                                   (MetadataFile.string_literal_offset self))
          (MetadataFile.file_data self)))
  = before_header self.
Proof. unfold before_header. rewrite !apply_writes_app. reflexivity. Qed.

Lemma apply_writes_save_writes self :
  apply_writes (save_writes self) (MetadataFile.file_data self)
  = store (before_header self) (MetadataFile.data_info_position self) (header_pair self).
Proof.
  unfold save_writes, before_header. rewrite !app_assoc, apply_writes_app. reflexivity.
Qed.

Lemma before_header_nonneg self :
  loaded_inv self ->
  Forall nonneg_pos
    (table_writes (packed_literals (MetadataFile.str_bytes self) 0)
                  (MetadataFile.string_literal_offset self)
     ++ pad_writes (len (MetadataFile.file_data self))
                   (MetadataFile.string_literal_data_offset self)
                   (total_len (MetadataFile.str_bytes self))
     ++ payload_writes (MetadataFile.str_bytes self)
                       (MetadataFile.string_literal_data_offset self)).
Proof.
  intros Hinv. pose proof (inv_sdo _ Hinv).
  pose proof (total_len_nonneg (MetadataFile.str_bytes self)).
  repeat apply Forall_app_intro.
  - apply table_writes_nonneg. apply inv_slo_nonneg. assumption.
  - apply pad_writes_nonneg; [apply len_nonneg|lia].
  - apply payload_writes_nonneg. lia.
Qed.

Lemma length_before_header self :
  loaded_inv self ->
  (List.length (MetadataFile.file_data self) <= List.length (before_header self))%nat.
Proof.
  intros Hinv. apply length_apply_writes_ge. apply before_header_nonneg. assumption.
Qed.

Lemma length_table_applied self :
  loaded_inv self ->
  len (apply_writes (table_writes (packed_literals (MetadataFile.str_bytes self) 0)
                                  (MetadataFile.string_literal_offset self))
         (MetadataFile.file_data self))
  = len (MetadataFile.file_data self).
Proof.
  intros Hinv. unfold len. rewrite length_table_writes; [reflexivity| |].
  - apply inv_slo_nonneg. assumption.
  - destruct (inv_table_strs _ Hinv) as [->|Hb]; [left; reflexivity|right].
    unfold len in *. rewrite packed_literals_length. assumption.
Qed.

(** [save], when it returns, returns [saved self]. *)
Lemma save_Return self self' out :
  loaded_inv self -> MetadataFile.save self = Return (self', out) ->
  self' = saved self /\ out = MetadataFile.file_data (saved self)
  /\ packed_size self <= u32_max.
Proof.
  intros Hinv H. unfold MetadataFile.save in H.
  bind_inv H. destruct a as [[lits fd1] oc1].
  apply save_loop_Return in Ha; [|lia]. cbv zeta in Ha.
  rewrite (inv_lengths _ Hinv) in Ha. cbn [Z.to_nat skipn] in Ha.
  rewrite firstn_all in Ha. destruct Ha as (_ & -> & -> & ->).
  cbn [bind] in H. rewrite pad_eq, write_loop_eq in H. rewrite Z.add_0_l in H.
  rewrite (length_table_applied _ Hinv), before_header_eq in H.
  bind_inv H. apply pack_into_II_Return in Ha as (_ & _ & Hmax & ->).
  injection H as <- <-.
  unfold saved. rewrite apply_writes_save_writes.
  repeat split. unfold packed_size. lia.
Qed.

Lemma save_ok self :
  loaded_inv self -> packed_size self <= u32_max ->
  MetadataFile.save self = Return (saved self, MetadataFile.file_data (saved self)).
Proof.
  intros Hinv Hmax. unfold MetadataFile.save.
  pose proof (inv_slo_nonneg _ Hinv) as Hslo.
  pose proof (total_len_nonneg (MetadataFile.str_bytes self)) as Htot.
  pose proof (padding_needed_range (MetadataFile.string_literal_data_offset self)
                (total_len (MetadataFile.str_bytes self))) as Hpad.
  pose proof (inv_sdo _ Hinv) as Hsdo. unfold packed_size in Hmax. cbv zeta in Hmax.
  assert (Epart : firstn (List.length (MetadataFile.string_literals self))
                    (skipn (Z.to_nat 0) (MetadataFile.str_bytes self))
                  = MetadataFile.str_bytes self).
  { rewrite (inv_lengths _ Hinv). cbn [Z.to_nat skipn]. apply firstn_all. }
  rewrite save_loop_ok; rewrite ?Epart; try lia.
  - cbn [bind]. rewrite pad_eq, write_loop_eq, Z.add_0_l.
    rewrite (length_table_applied _ Hinv), before_header_eq.
    rewrite pack_into_II_ok; try lia.
    + cbn [bind]. unfold saved. rewrite apply_writes_save_writes. reflexivity.
    + rewrite (inv_dip _ Hinv).
      pose proof (inv_header _ Hinv) as H24.
      pose proof (length_before_header _ Hinv). unfold len in *. lia.
  - rewrite (inv_lengths _ Hinv). cbn [Z.to_nat]. lia.
  - pose proof (inv_table _ Hinv) as Ht. rewrite <- (inv_lits _ Hinv) in Ht.
    destruct Ht as [Ht|Ht]; [left|right; assumption].
    unfold len in Ht. destruct (MetadataFile.string_literals self);
      [reflexivity|simpl in Ht; lia].
Qed.

(** ** What the saved buffer holds *)

Lemma getslice_read {A} (l d : list A) a :
  0 <= a -> firstn (List.length d) (skipn (Z.to_nat a) l) = d ->
  getslice l a (a + len d) = d.
Proof.
  intros Ha H. unfold getslice. pose proof (len_nonneg d) as Hd.
  rewrite !adjust_index_nonneg by lia.
  assert (Hl : List.length d = Nat.min (List.length d) (List.length l - Z.to_nat a))
    by (rewrite <- H at 1; rewrite length_firstn, length_skipn; reflexivity).
  destruct d as [|x d].
  - replace (Z.to_nat _) with O by (unfold len in *; simpl; lia). reflexivity.
  - cbn [List.length] in *. unfold len in *. cbn [List.length].
    replace (Z.to_nat (Z.min a (Z.of_nat (List.length l)))) with (Z.to_nat a) by lia.
    replace (Z.to_nat _) with (S (List.length d)) by lia. exact H.
Qed.

Lemma read_length (l d : bytes) a :
  firstn (List.length d) (skipn a l) = d -> d = [] \/ (a + List.length d <= List.length l)%nat.
Proof.
  intros H. apply (f_equal (@List.length byte)) in H.
  rewrite length_firstn, length_skipn in H.
  destruct d; [left; reflexivity|right]. cbn [List.length] in *. lia.
Qed.

Lemma length_header_pair self : List.length (header_pair self) = 8%nat.
Proof. unfold header_pair. rewrite length_app, !length_le_split. reflexivity. Qed.

Lemma saved_eq self :
  loaded_inv self ->
  MetadataFile.file_data (saved self) = store (before_header self) 16 (header_pair self).
Proof.
  intros Hinv. unfold saved. cbn [MetadataFile.file_data].
  rewrite apply_writes_save_writes, (inv_dip _ Hinv). reflexivity.
Qed.

Lemma saved_header_read self :
  loaded_inv self ->
  firstn 8 (skipn 16 (MetadataFile.file_data (saved self))) = header_pair self.
Proof.
  intros Hinv. rewrite saved_eq by assumption.
  pose proof (length_before_header _ Hinv) as Hl.
  pose proof (inv_header _ Hinv) as H24. unfold len in H24.
  transitivity (firstn 8 (skipn 0 (header_pair self))).
  - apply read_ext. intros i Hi.
    rewrite nth_error_store_same; unfold len; rewrite ?length_header_pair; try lia.
    f_equal. lia.
  - rewrite <- (length_header_pair self) at 1. apply read_whole.
Qed.

Lemma length_saved_ge self :
  loaded_inv self ->
  (List.length (MetadataFile.file_data self)
   <= List.length (MetadataFile.file_data (saved self)))%nat.
Proof.
  intros Hinv. rewrite saved_eq by assumption.
  pose proof (length_before_header _ Hinv).
  pose proof (length_store_ge (before_header self) 16 (header_pair self)). lia.
Qed.

(** Frame: a byte of the loaded buffer outside the three regions is not written. *)
Lemma saved_frame self k :
  loaded_inv self ->
  (k < List.length (MetadataFile.file_data self))%nat ->
  ~ (MetadataFile.string_literal_offset self <= Z.of_nat k
     < MetadataFile.string_literal_offset self + 8 * len (MetadataFile.str_bytes self)) ->
  ~ (MetadataFile.string_literal_data_offset self <= Z.of_nat k
     < MetadataFile.string_literal_data_offset self + packed_size self) ->
  ~ (16 <= Z.of_nat k < 24) ->
  nth_error (MetadataFile.file_data (saved self)) k
  = nth_error (MetadataFile.file_data self) k.
Proof.
  intros Hinv Hk Ht Hs Hh. unfold saved. cbn [MetadataFile.file_data].
  pose proof (total_len_nonneg (MetadataFile.str_bytes self)) as Htot.
  pose proof (padding_needed_range (MetadataFile.string_literal_data_offset self)
                (total_len (MetadataFile.str_bytes self))) as Hpad.
  unfold packed_size in Hs. cbv zeta in Hs.
  apply nth_error_apply_writes_other.
  - apply save_writes_nonneg; [assumption|apply inv_slo_nonneg; assumption].
  - assumption.
  - unfold save_writes. repeat apply Forall_app_intro.
    + apply table_writes_outside. unfold len in *. rewrite packed_literals_length. lia.
    + apply pad_writes_outside; [unfold len; lia|lia].
    + apply payload_writes_outside. lia.
    + apply Forall_cons; [|apply Forall_nil]. unfold outside. cbn [fst snd].
      unfold len. rewrite length_header_pair, (inv_dip _ Hinv). lia.
Qed.

Lemma le_split_small v : 0 <= v < 256 -> le_split 4 v = [byte.of_Z v; Byte.x00; Byte.x00; Byte.x00].
Proof.
  intros Hv. unfold le_split.
  assert (E : Z.shiftr v 8 = 0)
    by (rewrite Z.shiftr_div_pow2 by lia; apply Z.div_small; simpl; lia).
  rewrite E. reflexivity.
Qed.

(** The padding bytes are zero in the saved buffer, also when the string
    data region runs into the header pair. *)
Lemma saved_padding_read self :
  loaded_inv self ->
  let sdo := MetadataFile.string_literal_data_offset self in
  let total := total_len (MetadataFile.str_bytes self) in
  let padding := MetadataFile.padding_needed sdo total in
  firstn (Z.to_nat padding) (skipn (Z.to_nat (sdo + total)) (MetadataFile.file_data (saved self)))
  = repeat Byte.x00 (Z.to_nat padding).
Proof.
  intros Hinv sdo total padding.
  pose proof (inv_sdo _ Hinv) as Hsdo. fold sdo in Hsdo.
  pose proof (total_len_nonneg (MetadataFile.str_bytes self)) as Htot. fold total in Htot.
  pose proof (padding_needed_range sdo total) as Hpad. fold padding in Hpad.
  destruct (Z.eq_dec padding 0) as [E0|Hne]; [rewrite E0; reflexivity|].
  (* before the header pair is written *)
  assert (Hb : firstn (List.length (repeat Byte.x00 (Z.to_nat padding)))
                 (skipn (Z.to_nat (sdo + total)) (before_header self))
               = repeat Byte.x00 (Z.to_nat padding)).
  { unfold before_header. fold sdo total. unfold pad_writes. fold padding.
    destruct (Z.eqb_spec padding 0) as [|_]; [contradiction|].
    rewrite <- app_assoc. cbn [app]. rewrite app_assoc.
    apply read_apply_writes.
    - apply Forall_app_intro.
      + apply table_writes_nonneg. apply inv_slo_nonneg. assumption.
      + destruct (_ >? _); [|apply Forall_nil].
        apply Forall_cons; [|apply Forall_nil]. unfold nonneg_pos. cbn [fst]. apply len_nonneg.
    - apply payload_writes_nonneg. lia.
    - split; [lia|]. rewrite apply_writes_app.
      set (l1 := apply_writes (table_writes _ _) _).
      assert (El : len l1 = len (MetadataFile.file_data self)).
      { unfold len, l1. rewrite length_table_writes; [reflexivity| |].
        - apply inv_slo_nonneg. assumption.
        - destruct (inv_table_strs _ Hinv) as [->|Hb]; [left; reflexivity|right].
          unfold len in *. rewrite packed_literals_length. assumption. }
      destruct (Z.gtb_spec (sdo + total + padding) (len (MetadataFile.file_data self)))
        as [Hgt|Hle]; cbn [apply_writes fold_left fst snd].
      + rewrite <- El, store_at_end, len_app, len_repeat. lia.
      + lia.
    - intros k Hk. apply payload_writes_outside. fold total. lia. }
  pose proof (read_length _ _ _ Hb) as Hlen.
  rewrite repeat_length in Hb, Hlen.
  rewrite saved_eq by assumption.
  rewrite <- Hb. apply read_ext. intros i Hi.
  pose proof Hb as Hr.
  destruct Hlen as [Hlen|Hlen]; [destruct (Z.to_nat padding); [lia|discriminate]|].
  set (k := (Z.to_nat (sdo + total) + i)%nat).
  assert (Hmod : (sdo + total + padding) mod 4 = 0).
  { unfold padding, MetadataFile.padding_needed. Z.div_mod_to_equations. lia. }
  destruct (Z_lt_le_dec (Z.of_nat k) 16) as [Hlo|Hlo];
    [apply nth_error_store_other; unfold len; rewrite ?length_header_pair; lia|].
  destruct (Z_lt_le_dec (Z.of_nat k) 24) as [Hhi|Hhi];
    [|apply nth_error_store_other; unfold len; rewrite ?length_header_pair; lia].
  pose proof (length_before_header _ Hinv) as Hl.
  pose proof (inv_header _ Hinv) as H24. unfold len in H24.
  rewrite nth_error_store_same
    by (unfold len; rewrite ?length_header_pair; lia).
  assert (Hzero : nth_error (before_header self) k = Some Byte.x00).
  { apply (f_equal (fun l => nth_error l i)) in Hr.
    rewrite nth_error_firstn, nth_error_skipn in Hr.
    destruct (Nat.ltb_spec i (Z.to_nat padding)); [|lia].
    rewrite nth_error_repeat in Hr by assumption. exact Hr. }
  rewrite Hzero.
  (* inside the header pair: both fields are below 256 and [k] is not a multiple of 4 *)
  assert (Hs : 0 <= sdo < 256) by (subst k; lia).
  assert (Hp : 0 <= packed_size self < 256)
    by (unfold packed_size; fold sdo total padding; subst k; lia).
  unfold header_pair. fold sdo. rewrite (le_split_small sdo Hs), (le_split_small _ Hp).
  assert (Hk4 : Z.of_nat k mod 4 <> 0).
  { subst k. Z.div_mod_to_equations. lia. }
  assert (Hcases : (k - Z.to_nat 16 = 1 \/ k - Z.to_nat 16 = 2 \/ k - Z.to_nat 16 = 3
                    \/ k - Z.to_nat 16 = 5 \/ k - Z.to_nat 16 = 6 \/ k - Z.to_nat 16 = 7)%nat).
  { Z.div_mod_to_equations. lia. }
  destruct Hcases as [-> | [-> | [-> | [-> | [-> | ->]]]]]; reflexivity.
Qed.

Lemma table_read lits : forall pos l ws2 j lit,
  0 <= pos -> pos + 8 * len lits <= len l ->
  Forall nonneg_pos ws2 ->
  (forall k, pos <= Z.of_nat k < pos + 8 * len lits -> Forall (outside k) ws2) ->
  nth_error lits j = Some lit ->
  firstn 8 (skipn (Z.to_nat (pos + 8 * Z.of_nat j))
              (apply_writes (table_writes lits pos ++ ws2) l))
  = literal_bytes lit.
Proof.
  induction lits as [|lit0 lits IH]; intros pos l ws2 j lit Hpos Hlen Hnn Hout Hj;
    [destruct j; discriminate|].
  unfold len in Hlen, Hout. cbn [List.length] in Hlen, Hout.
  destruct j as [|j]; cbn [nth_error] in Hj.
  - injection Hj as ->. cbn [table_writes app].
    rewrite <- (length_literal_bytes lit) at 1.
    replace (pos + 8 * Z.of_nat 0) with pos by lia.
    apply (read_apply_writes [] pos (literal_bytes lit)).
    + apply Forall_nil.
    + apply Forall_app_intro; [apply table_writes_nonneg; lia|assumption].
    + cbn [apply_writes fold_left]. unfold len. lia.
    + intros k Hk. rewrite len_literal_bytes in Hk. apply Forall_app_intro.
      * apply table_writes_outside. lia.
      * apply Hout. lia.
  - cbn [table_writes app apply_writes fold_left fst snd].
    fold (apply_writes (table_writes lits (pos + 8) ++ ws2) (store l pos (literal_bytes lit0))).
    replace (pos + 8 * Z.of_nat (S j)) with (pos + 8 + 8 * Z.of_nat j) by lia.
    assert (El : List.length (store l pos (literal_bytes lit0)) = List.length l)
      by (apply length_store_inplace; rewrite ?len_literal_bytes; unfold len; lia).
    apply IH; try assumption; unfold len; rewrite ?El; try lia.
    intros k Hk. apply Hout. lia.
Qed.

Lemma total_len_firstn_S strs : forall j s,
  nth_error strs j = Some s ->
  total_len (firstn (S j) strs) = total_len (firstn j strs) + len s.
Proof.
  induction strs as [|s0 strs IH]; intros [|j] s H; cbn [nth_error] in H; try discriminate.
  - injection H as ->. cbn [firstn]. rewrite total_len_cons. unfold total_len. simpl. lia.
  - cbn [firstn] in *. rewrite !total_len_cons. rewrite (IH j s H). cbn [firstn]. lia.
Qed.

Lemma total_len_firstn_le strs : forall i j,
  (i <= j)%nat -> total_len (firstn i strs) <= total_len (firstn j strs).
Proof.
  induction strs as [|s strs IH]; intros i j Hij.
  - rewrite !firstn_nil. lia.
  - destruct i as [|i]; [cbn [firstn]; apply total_len_nonneg|].
    destruct j as [|j]; [lia|]. cbn [firstn]. rewrite !total_len_cons.
    specialize (IH i j). lia.
Qed.

Lemma total_len_firstn_all strs j :
  total_len (firstn j strs) <= total_len strs.
Proof.
  rewrite <- (firstn_all strs) at 2.
  destruct (Nat.le_gt_cases j (List.length strs)).
  - apply total_len_firstn_le. assumption.
  - rewrite firstn_all2 by lia. rewrite firstn_all. lia.
Qed.

Lemma payload_read strs : forall p l ws2 j s,
  0 <= p <= len l ->
  Forall nonneg_pos ws2 ->
  (forall k, p <= Z.of_nat k < p + total_len strs -> Forall (outside k) ws2) ->
  nth_error strs j = Some s ->
  firstn (List.length s)
    (skipn (Z.to_nat (p + total_len (firstn j strs)))
       (apply_writes (payload_writes strs p ++ ws2) l))
  = s.
Proof.
  induction strs as [|s0 strs IH]; intros p l ws2 j s Hp Hnn Hout Hj;
    [destruct j; discriminate|].
  rewrite total_len_cons in Hout.
  pose proof (len_nonneg s0) as H0. pose proof (total_len_nonneg strs) as Ht.
  destruct j as [|j]; cbn [nth_error] in Hj.
  - injection Hj as ->. cbn [payload_writes app firstn].
    replace (p + total_len []) with p by (unfold total_len; simpl; lia).
    apply (read_apply_writes [] p s).
    + apply Forall_nil.
    + apply Forall_app_intro; [apply payload_writes_nonneg; lia|assumption].
    + cbn [apply_writes fold_left]. lia.
    + intros k Hk. apply Forall_app_intro.
      * apply payload_writes_outside. lia.
      * apply Hout. lia.
  - cbn [payload_writes app apply_writes fold_left fst snd firstn].
    fold (apply_writes (payload_writes strs (p + len s0) ++ ws2) (store l p s0)).
    rewrite total_len_cons.
    replace (p + (len s0 + total_len (firstn j strs)))
      with (p + len s0 + total_len (firstn j strs)) by lia.
    apply IH; try assumption.
    + unfold len at 3. rewrite length_store by lia. unfold landing, len in *. lia.
    + intros k Hk. apply Hout. lia.
Qed.

Lemma packed_literals_nth strs : forall oc j s,
  nth_error strs j = Some s ->
  nth_error (packed_literals strs oc) j
  = Some (StringLiteral.mk (len s) (oc + total_len (firstn j strs))).
Proof.
  induction strs as [|s0 strs IH]; intros oc [|j] s H; cbn [nth_error] in H; try discriminate.
  - injection H as ->. cbn [packed_literals nth_error firstn].
    do 2 f_equal. unfold total_len. simpl. lia.
  - cbn [packed_literals nth_error firstn]. rewrite (IH _ _ _ H), total_len_cons.
    do 2 f_equal. lia.
Qed.

Lemma packed_literals_nth_inv strs oc j lit :
  nth_error (packed_literals strs oc) j = Some lit ->
  exists s, nth_error strs j = Some s
            /\ lit = StringLiteral.mk (len s) (oc + total_len (firstn j strs)).
Proof.
  intros H. destruct (nth_error strs j) as [s|] eqn:E.
  - exists s. split; [reflexivity|]. rewrite (packed_literals_nth _ oc _ _ E) in H.
    congruence.
  - apply nth_error_None in E. rewrite <- (packed_literals_length strs oc) in E.
    apply nth_error_None in E. congruence.
Qed.

(** Under [table_apart] the descriptor table of the saved buffer holds the
    descriptors [save] assigned. *)
Lemma saved_table_read self j lit :
  loaded_inv self -> table_apart self ->
  nth_error (packed_literals (MetadataFile.str_bytes self) 0) j = Some lit ->
  firstn 8 (skipn (Z.to_nat (MetadataFile.string_literal_offset self + 8 * Z.of_nat j))
              (MetadataFile.file_data (saved self)))
  = literal_bytes lit.
Proof.
  intros Hinv (H24 & Hdis) Hj. unfold saved, save_writes. cbn [MetadataFile.file_data].
  pose proof (inv_sdo _ Hinv) as Hsdo.
  pose proof (total_len_nonneg (MetadataFile.str_bytes self)) as Htot.
  pose proof (padding_needed_range (MetadataFile.string_literal_data_offset self)
                (total_len (MetadataFile.str_bytes self))) as Hpad.
  unfold packed_size in Hdis. cbv zeta in Hdis.
  assert (Hb : MetadataFile.string_literal_offset self
               + 8 * len (MetadataFile.str_bytes self)
               <= len (MetadataFile.file_data self)).
  { destruct (inv_table_strs _ Hinv) as [E|Hb]; [|assumption].
    rewrite E in Hj. destruct j; discriminate. }
  apply table_read; try assumption.
  - lia.
  - unfold len in *. rewrite packed_literals_length. assumption.
  - repeat apply Forall_app_intro.
    + apply pad_writes_nonneg; [apply len_nonneg|lia].
    + apply payload_writes_nonneg. lia.
    + apply Forall_cons; [|apply Forall_nil].
      unfold nonneg_pos. cbn [fst]. rewrite (inv_dip _ Hinv). lia.
  - intros k Hk. unfold len in Hk. rewrite packed_literals_length in Hk.
    unfold len in *. repeat apply Forall_app_intro.
    + apply pad_writes_outside; unfold len; lia.
    + apply payload_writes_outside. lia.
    + apply Forall_cons; [|apply Forall_nil]. unfold outside. cbn [fst snd].
      unfold len. rewrite length_header_pair, (inv_dip _ Hinv). lia.
Qed.

(** When the string data region starts after the header and inside the
    buffer, every payload is read back from the saved buffer at its new
    offset. *)
Lemma saved_payload_read self j s :
  loaded_inv self ->
  24 <= MetadataFile.string_literal_data_offset self <= len (MetadataFile.file_data self) ->
  nth_error (MetadataFile.str_bytes self) j = Some s ->
  firstn (List.length s)
    (skipn (Z.to_nat (MetadataFile.string_literal_data_offset self
                      + total_len (firstn j (MetadataFile.str_bytes self))))
       (MetadataFile.file_data (saved self)))
  = s.
Proof.
  intros Hinv Hsdo Hj. unfold saved, save_writes. cbn [MetadataFile.file_data].
  rewrite !app_assoc. rewrite <- app_assoc.
  rewrite apply_writes_app.
  pose proof (total_len_nonneg (MetadataFile.str_bytes self)) as Htot.
  apply payload_read; try assumption.
  - split; [lia|].
    pose proof (length_apply_writes_ge
                  (table_writes (packed_literals (MetadataFile.str_bytes self) 0)
                     (MetadataFile.string_literal_offset self)
                   ++ pad_writes (len (MetadataFile.file_data self))
                        (MetadataFile.string_literal_data_offset self)
                        (total_len (MetadataFile.str_bytes self)))
                  (MetadataFile.file_data self)) as Hl.
    unfold len in *. etransitivity; [apply Hsdo|]. apply inj_le. apply Hl.
    apply Forall_app_intro.
    + apply table_writes_nonneg. apply inv_slo_nonneg. assumption.
    + apply pad_writes_nonneg; lia.
  - apply Forall_cons; [|apply Forall_nil].
    unfold nonneg_pos. cbn [fst]. rewrite (inv_dip _ Hinv). lia.
  - intros k Hk. apply Forall_cons; [|apply Forall_nil]. unfold outside. cbn [fst snd].
    unfold len. rewrite length_header_pair, (inv_dip _ Hinv). lia.
Qed.

(** ** Properties of [save] *)

Lemma document_fields content edits self0 :
  MetadataFile.init content = Return self0 ->
  MetadataFile.file_data (set_strings edits self0) = content
  /\ loaded_inv (set_strings edits self0).
Proof.
  intros H. split; [|apply (document_inv content); assumption].
  destruct (set_strings_fields edits self0) as (-> & _).
  apply init_Return in H as (_ & _ & _ & ->). reflexivity.
Qed.

(** The slots of a table that lies apart can be unpacked from the
    result of [save]. *)
Lemma saved_slot_read self i s :
  loaded_inv self -> table_apart self -> packed_size self <= u32_max ->
  nth_error (MetadataFile.str_bytes self) i = Some s ->
  unpack_from_II (MetadataFile.file_data (saved self))
    (MetadataFile.string_literal_offset self + 8 * Z.of_nat i)
  = Return (len s, total_len (firstn i (MetadataFile.str_bytes self))).
Proof.
  intros Hinv Hapart Hmax Hs.
  set (strs := MetadataFile.str_bytes self) in *.
  set (sdo := MetadataFile.string_literal_data_offset self) in *.
  pose proof (packed_literals_nth strs 0 i s Hs) as Hi. rewrite Z.add_0_l in Hi.
  set (lit := StringLiteral.mk (len s) (total_len (firstn i strs))) in *.
  pose proof (saved_table_read self i lit Hinv Hapart Hi) as Hr.
  pose proof (inv_slo_nonneg _ Hinv) as Hslo.
  pose proof (len_nonneg s). pose proof (total_len_nonneg (firstn i strs)).
  pose proof (total_len_firstn_S strs i s Hs).
  pose proof (total_len_firstn_all strs (S i)).
  pose proof (padding_needed_range sdo (total_len strs)).
  unfold packed_size in Hmax. cbv zeta in Hmax. fold strs sdo in Hmax.
  assert (Hrange : 0 <= StringLiteral.length lit <= u32_max
                   /\ 0 <= StringLiteral.offset lit <= u32_max)
    by (subst lit; cbn [StringLiteral.length StringLiteral.offset]; lia).
  rewrite unpack_from_II_ok.
  - rewrite (read_literal_of_bytes _ _ lit); try tauto; try lia.
  - pose proof Hr as Hr'. rewrite <- (length_literal_bytes lit) in Hr' at 1.
    apply read_length in Hr'. rewrite length_literal_bytes in Hr'.
    destruct Hr' as [Hr'|Hr'].
    + apply (f_equal (@List.length byte)) in Hr'. rewrite length_literal_bytes in Hr'.
      discriminate.
    + unfold len. lia.
Qed.

(** C1 as stated fails on a file whose string data region starts on the
    descriptor table: [save] writes the descriptor (4, 0) at offset 24 and
    then the payload ["abcd"] over it, so slot 0 of the result unpacks to
    (0x64636261, 0). *)
Lemma descriptors_counterexample : ~ descriptors_as_specified overlap_table_file [].
Proof.
  intros H.
  assert (E0 : MetadataFile.init overlap_table_file
               = Return (loaded_from overlap_table_file)) by (vm_compute; reflexivity).
  assert (E1 : MetadataFile.save (set_strings [] (loaded_from overlap_table_file))
               = Return (saved (loaded_from overlap_table_file),
                         MetadataFile.file_data (saved (loaded_from overlap_table_file))))
    by (vm_compute; reflexivity).
  specialize (H _ _ _ E0 E1 0%nat (bytes_of [97; 98; 99; 100]) eq_refl).
  vm_compute in H. discriminate H.
Qed.

(** C1, amended.  After [save] on a document, the eight bytes at offset
    16 of the result are the pair (string data offset, payload bytes plus
    padding), and the descriptor of index [i] of the object has the length
    of payload [i] and, as offset, the sum of the lengths of the payloads
    before it.  When the descriptor table starts at or after offset 24 and
    does not meet the repacked string data region, slot [i] of the table
    in the result unpacks to these two numbers, the spans the slots of
    the result name do not overlap, and they lie in the repacked region,
    the last one ending where the payload bytes end. *)
Theorem save_descriptors_consistent content edits self0 self' out :
  MetadataFile.init content = Return self0 ->
  MetadataFile.save (set_strings edits self0) = Return (self', out) ->
  let self := set_strings edits self0 in
  let strs := MetadataFile.str_bytes self in
  let sdo := MetadataFile.string_literal_data_offset self in
  let total := total_len strs in
  let lits := MetadataFile.string_literals self' in
  let slot := fun i : nat =>
    unpack_from_II out (MetadataFile.string_literal_offset self + 8 * Z.of_nat i) in
  getslice out 16 24
  = le_split 4 sdo ++ le_split 4 (total + (4 - (sdo + total) mod 4) mod 4)
  /\ List.length lits = List.length strs
  /\ (forall i s, nth_error strs i = Some s ->
        nth_error lits i = Some (StringLiteral.mk (len s) (total_len (firstn i strs))))
  /\ (table_apart self ->
      (forall i s, nth_error strs i = Some s ->
         slot i = Return (len s, total_len (firstn i strs)))
      /\ (forall i j la oa lb ob, (i < j < List.length strs)%nat ->
            slot i = Return (la, oa) -> slot j = Return (lb, ob) ->
            sdo + oa + la <= sdo + ob)
      /\ (forall i la oa, (i < List.length strs)%nat ->
            slot i = Return (la, oa) ->
            0 <= la /\ 0 <= oa /\ oa + la <= total
            /\ (S i = List.length strs -> oa + la = total))).
Proof.
  intros Hinit Hsave self strs sdo total lits slot.
  destruct (document_fields content edits self0 Hinit) as (Hfd & Hinv). fold self in Hfd, Hinv.
  destruct (save_Return self self' out Hinv Hsave) as (E1 & E2 & Hmax). subst self' out.
  subst lits. cbn [saved MetadataFile.string_literals]. fold strs.
  split.
  { change ((4 - (sdo + total) mod 4) mod 4) with (MetadataFile.padding_needed sdo total).
    change (le_split 4 sdo ++ _) with (header_pair self).
    replace 24 with (16 + len (header_pair self))
      by (unfold len; rewrite length_header_pair; reflexivity).
    apply getslice_read; [lia|]. rewrite length_header_pair.
    apply (saved_header_read self Hinv). }
  split; [apply packed_literals_length|].
  split; [intros i s Hi; rewrite (packed_literals_nth _ 0 _ _ Hi); reflexivity|].
  intros Hapart.
  assert (Hslot : forall i s, nth_error strs i = Some s ->
                    slot i = Return (len s, total_len (firstn i strs)))
    by (intros i s Hi; apply saved_slot_read; assumption).
  assert (Hsome : forall i, (i < List.length strs)%nat -> exists s, nth_error strs i = Some s).
  { intros i Hi. destruct (nth_error strs i) as [s|] eqn:E; [eauto|].
    apply nth_error_None in E. lia. }
  split; [exact Hslot|]. split.
  - intros i j la oa lb ob Hij Ha Hb.
    destruct (Hsome i ltac:(lia)) as (sa & Hsa). destruct (Hsome j ltac:(lia)) as (sb & Hsb).
    rewrite (Hslot i sa Hsa) in Ha. rewrite (Hslot j sb Hsb) in Hb.
    assert (Ea : la = len sa /\ oa = total_len (firstn i strs))
      by (split; congruence).
    assert (Eb : ob = total_len (firstn j strs)) by congruence.
    destruct Ea as (-> & ->). subst ob.
    pose proof (total_len_firstn_S strs i sa Hsa).
    pose proof (total_len_firstn_le strs (S i) j ltac:(lia)). lia.
  - intros i la oa Hi Ha.
    destruct (Hsome i Hi) as (sa & Hsa). rewrite (Hslot i sa Hsa) in Ha.
    assert (Ea : la = len sa /\ oa = total_len (firstn i strs))
      by (split; congruence).
    destruct Ea as (-> & ->).
    pose proof (len_nonneg sa). pose proof (total_len_nonneg (firstn i strs)).
    pose proof (total_len_firstn_S strs i sa Hsa) as HS.
    pose proof (total_len_firstn_all strs (S i)).
    repeat split; try lia.
    intros Hlast. rewrite Hlast, firstn_all in HS. fold total in HS. lia.
Qed.

(** C7.  After every [save], string data offset plus the size written at
    offset 20 is a multiple of 4; that size is the payload bytes plus the
    padding [(4 - (offset + payload bytes) mod 4) mod 4], and the padding
    bytes, right after the last payload, are zero. *)
Theorem save_aligned content edits self0 self' out :
  MetadataFile.init content = Return self0 ->
  MetadataFile.save (set_strings edits self0) = Return (self', out) ->
  let self := set_strings edits self0 in
  let sdo := MetadataFile.string_literal_data_offset self in
  let packed := total_len (MetadataFile.str_bytes self) in
  let padding := (4 - (sdo + packed) mod 4) mod 4 in
  unpack_from_I out 20 = Return (packed + padding)
  /\ (sdo + (packed + padding)) mod 4 = 0
  /\ getslice out (sdo + packed) (sdo + packed + padding) = repeat Byte.x00 (Z.to_nat padding).
Proof.
  intros Hinit Hsave self sdo packed padding.
  destruct (document_fields content edits self0 Hinit) as (Hfd & Hinv). fold self in Hfd, Hinv.
  destruct (save_Return self self' out Hinv Hsave) as (E1 & E2 & Hmax). subst self' out.
  pose proof (inv_sdo _ Hinv) as Hsdo. fold sdo in Hsdo.
  pose proof (total_len_nonneg (MetadataFile.str_bytes self)) as Htot. fold packed in Htot.
  pose proof (padding_needed_range sdo packed) as Hpad.
  change (MetadataFile.padding_needed sdo packed) with padding in Hpad.
  assert (Hps : packed_size self = packed + padding) by reflexivity.
  split; [|split].
  - pose proof (length_saved_ge self Hinv) as Hl.
    pose proof (inv_header _ Hinv) as H24. unfold len in H24.
    rewrite unpack_from_I_ok by (unfold len; lia). f_equal.
    pose proof (read_literal_of_bytes (MetadataFile.file_data (saved self)) 16
                  (StringLiteral.mk sdo (packed_size self))) as Hr.
    cbn [StringLiteral.length StringLiteral.offset] in Hr.
    specialize (Hr ltac:(lia) ltac:(lia) ltac:(lia) (saved_header_read self Hinv)).
    apply (f_equal StringLiteral.offset) in Hr.
    cbn [read_literal StringLiteral.offset] in Hr. rewrite <- Hps. exact Hr.
  - unfold padding. Z.div_mod_to_equations. lia.
  - pose proof (saved_padding_read self Hinv) as Hr. cbv zeta in Hr.
    fold sdo packed in Hr. change (MetadataFile.padding_needed sdo packed) with padding in Hr.
    replace padding with (len (repeat Byte.x00 (Z.to_nat padding))) at 1
      by (rewrite len_repeat; lia).
    apply getslice_read; [lia|]. rewrite repeat_length. exact Hr.
Qed.

(** C8.  [save] changes no byte of the loaded buffer outside the
    descriptor table, the repacked string data region (payloads and
    padding) and the header pair at 16..24, and the result is never
    shorter than the loaded buffer. *)
Theorem save_frame content edits self0 self' out :
  MetadataFile.init content = Return self0 ->
  MetadataFile.save (set_strings edits self0) = Return (self', out) ->
  let self := set_strings edits self0 in
  let slo := MetadataFile.string_literal_offset self in
  let sdo := MetadataFile.string_literal_data_offset self in
  let count := MetadataFile.string_literal_count self in
  len content <= len out
  /\ forall k, 0 <= k < len content ->
       ~ (slo <= k < slo + 8 * count) ->
       ~ (sdo <= k < sdo + packed_size self) ->
       ~ (16 <= k < 24) ->
       nth_error out (Z.to_nat k) = nth_error content (Z.to_nat k).
Proof.
  intros Hinit Hsave self slo sdo count.
  destruct (document_fields content edits self0 Hinit) as (Hfd & Hinv). fold self in Hfd, Hinv.
  destruct (save_Return self self' out Hinv Hsave) as (E1 & E2 & Hmax). subst self' out.
  split.
  - pose proof (length_saved_ge self Hinv) as Hl. rewrite Hfd in Hl. unfold len. lia.
  - intros k Hk Ht Hs Hh. rewrite <- Hfd. rewrite <- Hfd in Hk. unfold len in Hk.
    apply saved_frame; try assumption; rewrite ?Z2Nat.id by lia; try assumption.
    + lia.
    + rewrite (inv_strs _ Hinv). exact Ht.
Qed.

(** ** Loading what [save] returned *)

Lemma read_u32_ext f g p :
  (forall i, (i < 4)%nat -> nth_error f (Z.to_nat p + i) = nth_error g (Z.to_nat p + i)) ->
  read_u32 f p = read_u32 g p.
Proof. intros H. unfold read_u32. f_equal. apply read_ext. exact H. Qed.

Lemma saved_header_field self p :
  loaded_inv self -> regular_layout self -> 0 <= p -> p + 4 <= 16 ->
  read_u32 (MetadataFile.file_data (saved self)) p = read_u32 (MetadataFile.file_data self) p.
Proof.
  intros Hinv (Hsdo & Hreg) Hp Hp'. apply read_u32_ext. intros i Hi.
  pose proof (inv_header _ Hinv) as H24. unfold len in H24.
  pose proof (total_len_nonneg (MetadataFile.str_bytes self)).
  apply saved_frame; try assumption; try lia.
  destruct Hreg as [->|(Hslo & _)]; [unfold len; simpl; lia|lia].
Qed.

Lemma saved_header_fields self :
  loaded_inv self -> packed_size self <= u32_max ->
  read_u32 (MetadataFile.file_data (saved self)) 16
  = MetadataFile.string_literal_data_offset self
  /\ read_u32 (MetadataFile.file_data (saved self)) 20 = packed_size self.
Proof.
  intros Hinv Hmax. pose proof (inv_sdo _ Hinv) as Hsdo.
  pose proof (total_len_nonneg (MetadataFile.str_bytes self)) as Htot.
  pose proof (padding_needed_range (MetadataFile.string_literal_data_offset self)
                (total_len (MetadataFile.str_bytes self))) as Hpad.
  assert (Hps : 0 <= packed_size self) by (unfold packed_size; lia).
  pose proof (read_literal_of_bytes (MetadataFile.file_data (saved self)) 16
                (StringLiteral.mk (MetadataFile.string_literal_data_offset self)
                                  (packed_size self))) as Hr.
  cbn [StringLiteral.length StringLiteral.offset] in Hr.
  specialize (Hr ltac:(lia) ltac:(lia) ltac:(lia) (saved_header_read self Hinv)).
  split.
  - apply (f_equal StringLiteral.length) in Hr. exact Hr.
  - apply (f_equal StringLiteral.offset) in Hr. exact Hr.
Qed.

Lemma read_table_nth f slo n : forall i j,
  (j < n)%nat ->
  nth_error (read_table f slo i n) j = Some (read_literal f (slo + (i + Z.of_nat j) * 8)).
Proof.
  induction n as [|n IH]; intros i j Hj; [lia|].
  destruct j as [|j]; cbn [read_table nth_error].
  - do 2 f_equal. lia.
  - rewrite IH by lia. do 2 f_equal. lia.
Qed.

Lemma packed_literals_range strs j lit :
  total_len strs <= u32_max ->
  nth_error (packed_literals strs 0) j = Some lit ->
  0 <= StringLiteral.length lit <= u32_max /\ 0 <= StringLiteral.offset lit <= u32_max.
Proof.
  intros Hmax Hj. apply packed_literals_nth_inv in Hj as (s & Hs & ->).
  cbn [StringLiteral.length StringLiteral.offset].
  pose proof (len_nonneg s). pose proof (total_len_nonneg (firstn j strs)).
  pose proof (total_len_firstn_S strs j s Hs).
  pose proof (total_len_firstn_all strs (S j)). lia.
Qed.

Lemma saved_read_table self :
  loaded_inv self -> regular_layout self -> packed_size self <= u32_max ->
  read_table (MetadataFile.file_data (saved self)) (MetadataFile.string_literal_offset self)
             0 (List.length (MetadataFile.str_bytes self))
  = packed_literals (MetadataFile.str_bytes self) 0.
Proof.
  intros Hinv (Hsdo & Hreg) Hmax. apply nth_error_ext. intros j.
  pose proof (padding_needed_range (MetadataFile.string_literal_data_offset self)
                (total_len (MetadataFile.str_bytes self))) as Hpad.
  unfold packed_size in Hmax. cbv zeta in Hmax.
  destruct (Nat.lt_ge_cases j (List.length (MetadataFile.str_bytes self))) as [Hj|Hj].
  - rewrite read_table_nth by assumption.
    destruct (nth_error (packed_literals (MetadataFile.str_bytes self) 0) j) as [lit|] eqn:E.
    + f_equal. destruct Hreg as [E0|Hapart]; [rewrite E0 in Hj; simpl in Hj; lia|].
      assert (Ht : total_len (MetadataFile.str_bytes self) <= u32_max) by lia.
      destruct (packed_literals_range _ _ _ Ht E).
      apply read_literal_of_bytes; try assumption.
      * pose proof (inv_slo_nonneg _ Hinv). lia.
      * replace (MetadataFile.string_literal_offset self + (0 + Z.of_nat j) * 8)
          with (MetadataFile.string_literal_offset self + 8 * Z.of_nat j) by lia.
        apply saved_table_read; assumption.
    + apply nth_error_None in E. rewrite packed_literals_length in E. lia.
  - transitivity (@None StringLiteral.t); [|symmetry]; apply nth_error_None.
    + rewrite length_read_table. assumption.
    + rewrite packed_literals_length. assumption.
Qed.

Lemma saved_payloads self :
  loaded_inv self ->
  24 <= MetadataFile.string_literal_data_offset self <= len (MetadataFile.file_data self) ->
  map (payload_of (MetadataFile.file_data (saved self))
                  (MetadataFile.string_literal_data_offset self))
      (packed_literals (MetadataFile.str_bytes self) 0)
  = MetadataFile.str_bytes self.
Proof.
  intros Hinv Hsdo. apply nth_error_ext. intros j. rewrite nth_error_map.
  destruct (nth_error (MetadataFile.str_bytes self) j) as [s|] eqn:E.
  - rewrite (packed_literals_nth _ 0 _ _ E). cbn [option_map]. f_equal.
    unfold payload_of. cbn [StringLiteral.length StringLiteral.offset].
    rewrite Z.add_0_l. apply getslice_read.
    + pose proof (total_len_nonneg (firstn j (MetadataFile.str_bytes self))). lia.
    + apply saved_payload_read; assumption.
  - replace (nth_error (packed_literals (MetadataFile.str_bytes self) 0) j)
      with (@None StringLiteral.t); [reflexivity|].
    symmetry. apply nth_error_None. rewrite packed_literals_length.
    apply nth_error_None. assumption.
Qed.

Lemma inv_version_eq self :
  loaded_inv self ->
  MetadataFile.version self
  = (if read_u32 (MetadataFile.file_data self) 4 <? 2147483648
     then read_u32 (MetadataFile.file_data self) 4
     else read_u32 (MetadataFile.file_data self) 4 - 4294967296).
Proof.
  intros Hinv. pose proof (inv_version _ Hinv) as Hv.
  pose proof (inv_header _ Hinv). unfold unpack_from_i in Hv.
  rewrite unpack_from_I_ok in Hv by lia. cbn [bind] in Hv. now injection Hv as <-.
Qed.

(** Under a regular layout the constructor accepts the saved buffer and
    rebuilds the document: same payloads, the descriptors [save] assigned. *)
Lemma init_saved self :
  loaded_inv self -> regular_layout self -> packed_size self <= u32_max ->
  MetadataFile.init (MetadataFile.file_data (saved self)) = Return (reloaded self).
Proof.
  intros Hinv Hreg Hmax.
  pose proof (length_saved_ge _ Hinv) as Hl.
  pose proof (inv_header _ Hinv) as H24.
  pose proof (saved_header_field self 0 Hinv Hreg ltac:(lia) ltac:(lia)) as E0.
  pose proof (saved_header_field self 4 Hinv Hreg ltac:(lia) ltac:(lia)) as E4.
  pose proof (saved_header_field self 8 Hinv Hreg ltac:(lia) ltac:(lia)) as E8.
  pose proof (saved_header_field self 12 Hinv Hreg ltac:(lia) ltac:(lia)) as E12.
  destruct (saved_header_fields self Hinv Hmax) as (E16 & E20).
  rewrite (inv_slo _ Hinv) in E8. rewrite (inv_magic _ Hinv) in E0.
  pose proof (inv_count _ Hinv) as Hc. rewrite <- E12 in Hc.
  rewrite init_ok.
  - f_equal. unfold loaded_from, reloaded. cbv zeta.
    rewrite E4, E8, E16, E20, <- Hc, <- (inv_version_eq _ Hinv).
    replace (Z.to_nat (MetadataFile.string_literal_count self))
      with (List.length (MetadataFile.str_bytes self))
      by (pose proof (inv_strs _ Hinv); unfold len in *; lia).
    rewrite (saved_read_table self Hinv Hreg Hmax).
    rewrite (saved_payloads self Hinv (proj1 Hreg)). reflexivity.
  - unfold len in *. lia.
  - exact E0.
  - rewrite E8, <- Hc. destruct (inv_table _ Hinv) as [Ht|Ht]; [left; assumption|right].
    unfold len in *. lia.
Qed.

(** ** Saving again *)

Lemma table_writes_Forall (P : Z * bytes -> Prop) lits : forall pos,
  (forall j lit, nth_error lits j = Some lit -> P (pos + 8 * Z.of_nat j, literal_bytes lit)) ->
  Forall P (table_writes lits pos).
Proof.
  induction lits as [|lit0 lits IH]; intros pos H; cbn [table_writes]; constructor.
  - specialize (H O lit0 eq_refl). replace (pos + 8 * Z.of_nat 0) with pos in H by lia. exact H.
  - apply IH. intros j lit Hj. specialize (H (S j) lit Hj).
    replace (pos + 8 + 8 * Z.of_nat j) with (pos + 8 * Z.of_nat (S j)) by lia. exact H.
Qed.

Lemma payload_writes_Forall (P : Z * bytes -> Prop) strs : forall p,
  (forall j s, nth_error strs j = Some s -> P (p + total_len (firstn j strs), s)) ->
  Forall P (payload_writes strs p).
Proof.
  induction strs as [|s0 strs IH]; intros p H; cbn [payload_writes]; constructor.
  - specialize (H O s0 eq_refl). cbn [firstn] in H.
    replace (p + total_len []) with p in H by (unfold total_len; simpl; lia). exact H.
  - apply IH. intros j s Hj. specialize (H (S j) s Hj). cbn [firstn] in H.
    rewrite total_len_cons in H.
    replace (p + len s0 + total_len (firstn j strs))
      with (p + (len s0 + total_len (firstn j strs))) by lia. exact H.
Qed.

(** Saving an object that holds the saved buffer and the same payloads
    writes, byte for byte, what the buffer already holds. *)
Lemma save_writes_same self again :
  loaded_inv self -> regular_layout self -> packed_size self <= u32_max ->
  MetadataFile.str_bytes again = MetadataFile.str_bytes self ->
  MetadataFile.string_literal_offset again = MetadataFile.string_literal_offset self ->
  MetadataFile.string_literal_data_offset again = MetadataFile.string_literal_data_offset self ->
  MetadataFile.data_info_position again = 16 ->
  MetadataFile.file_data again = MetadataFile.file_data (saved self) ->
  apply_writes (save_writes again) (MetadataFile.file_data again) = MetadataFile.file_data again.
Proof.
  intros Hinv Hreg Hmax Estr Eslo Esdo Edip Efd.
  pose proof (inv_sdo _ Hinv) as Hsdo.
  pose proof (inv_slo_nonneg _ Hinv) as Hslo.
  pose proof (total_len_nonneg (MetadataFile.str_bytes self)) as Htot.
  pose proof (padding_needed_range (MetadataFile.string_literal_data_offset self)
                (total_len (MetadataFile.str_bytes self))) as Hpad.
  apply apply_writes_same. unfold save_writes, header_pair, packed_size.
  rewrite Estr, Eslo, Esdo, Edip, Efd.
  repeat apply Forall_app_intro.
  - apply table_writes_Forall. intros j lit Hj. cbn [fst snd]. split; [lia|].
    rewrite length_literal_bytes.
    destruct Hreg as (_ & [E0|Hapart]); [rewrite E0 in Hj; destruct j; discriminate|].
    apply saved_table_read; assumption.
  - pose proof (saved_padding_read self Hinv) as Hr. cbv zeta in Hr.
    unfold pad_writes.
    destruct (Z.eqb_spec (MetadataFile.padding_needed
                            (MetadataFile.string_literal_data_offset self)
                            (total_len (MetadataFile.str_bytes self))) 0) as [|Hne];
      [apply Forall_nil|].
    pose proof Hr as Hlen. rewrite <- (repeat_length Byte.x00 (Z.to_nat _)) in Hlen at 1.
    apply read_length in Hlen. rewrite repeat_length in Hlen.
    destruct Hlen as [Hlen|Hlen].
    { apply (f_equal (@List.length byte)) in Hlen. rewrite repeat_length in Hlen.
      simpl in Hlen. lia. }
    destruct (Z.gtb_spec
                (MetadataFile.string_literal_data_offset self
                 + total_len (MetadataFile.str_bytes self)
                 + MetadataFile.padding_needed
                     (MetadataFile.string_literal_data_offset self)
                     (total_len (MetadataFile.str_bytes self)))
                (len (MetadataFile.file_data (saved self)))) as [Hgt|Hle];
      [unfold len in Hgt; lia|].
    cbn [app]. apply Forall_cons; [|apply Forall_nil]. cbn [fst snd].
    split; [lia|]. rewrite repeat_length. exact Hr.
  - apply payload_writes_Forall. intros j s Hj. cbn [fst snd].
    pose proof (total_len_nonneg (firstn j (MetadataFile.str_bytes self))).
    split; [lia|]. apply saved_payload_read; [assumption|apply Hreg|assumption].
  - apply Forall_cons; [|apply Forall_nil]. cbn [fst snd]. split; [lia|].
    pose proof (saved_header_read self Hinv) as Hr.
    pose proof (length_header_pair self) as Hl. unfold header_pair, packed_size in Hr, Hl.
    rewrite Hl. exact Hr.
Qed.

Lemma save_again self again :
  loaded_inv self -> regular_layout self -> packed_size self <= u32_max ->
  loaded_inv again ->
  MetadataFile.str_bytes again = MetadataFile.str_bytes self ->
  MetadataFile.string_literal_offset again = MetadataFile.string_literal_offset self ->
  MetadataFile.string_literal_data_offset again = MetadataFile.string_literal_data_offset self ->
  MetadataFile.file_data again = MetadataFile.file_data (saved self) ->
  MetadataFile.save again = Return (saved again, MetadataFile.file_data (saved self)).
Proof.
  intros Hinv Hreg Hmax Hinv' Estr Eslo Esdo Efd.
  assert (Eps : packed_size again = packed_size self)
    by (unfold packed_size; rewrite Estr, Esdo; reflexivity).
  rewrite save_ok; [|assumption|rewrite Eps; assumption].
  do 2 f_equal. unfold saved at 1. cbn [MetadataFile.file_data].
  rewrite (save_writes_same self again); try assumption.
  apply (inv_dip _ Hinv').
Qed.

Lemma saved_inv self :
  loaded_inv self -> regular_layout self -> packed_size self <= u32_max ->
  loaded_inv (saved self).
Proof.
  intros Hinv Hreg Hmax.
  pose proof (init_inv _ _ (init_saved self Hinv Hreg Hmax)) as [].
  constructor; cbn in *; try assumption. apply (inv_dip _ Hinv).
Qed.

(** C2, amended.  For a document with a regular layout (header,
    descriptor table and repacked string data region pairwise disjoint,
    string data offset inside the file), the constructor accepts the bytes
    [save] returns and the strings of the reloaded document are those of
    the document saved. *)
Theorem roundtrip_regular content edits self0 :
  MetadataFile.init content = Return self0 ->
  regular_layout (set_strings edits self0) ->
  roundtrip_at content edits.
Proof.
  intros Hinit Hreg s0 self' out Hinit' Hsave.
  rewrite Hinit in Hinit'. injection Hinit' as <-.
  pose proof (document_inv content edits self0 Hinit) as Hinv.
  destruct (save_Return _ _ _ Hinv Hsave) as (_ & -> & Hmax).
  exists (reloaded (set_strings edits self0)). split.
  - apply init_saved; assumption.
  - reflexivity.
Qed.

(** C6, amended.  For a document with a regular layout, loading the bytes
    [save] returned and saving again returns the same bytes, and so does
    calling [save] a second time on the same object. *)
Theorem idempotent_regular content edits self0 :
  MetadataFile.init content = Return self0 ->
  regular_layout (set_strings edits self0) ->
  idempotent_at content edits.
Proof.
  intros Hinit Hreg s0 self' out Hinit' Hsave.
  rewrite Hinit in Hinit'. injection Hinit' as <-.
  pose proof (document_inv content edits self0 Hinit) as Hinv.
  destruct (save_Return _ _ _ Hinv Hsave) as (-> & -> & Hmax).
  set (self := set_strings edits self0) in *.
  split.
  - exists (reloaded self), (saved (reloaded self)). split.
    + apply init_saved; assumption.
    + apply save_again; try assumption; try reflexivity.
      apply (init_inv (MetadataFile.file_data (saved self))).
      apply init_saved; assumption.
  - exists (saved (saved self)).
    apply save_again; try assumption; try reflexivity.
    apply saved_inv; assumption.
Qed.

Lemma sample_init : MetadataFile.init sample_file = Return sample_doc.
Proof. vm_compute. reflexivity. Qed.

Lemma sample_save :
  MetadataFile.save sample_edited
  = Return (saved sample_edited, MetadataFile.file_data (saved sample_edited)).
Proof. vm_compute. reflexivity. Qed.

Lemma sample_regular : regular_layout sample_edited.
Proof.
  unfold regular_layout, table_apart.
  change (MetadataFile.string_literal_data_offset sample_edited) with 32.
  change (MetadataFile.string_literal_offset sample_edited) with 24.
  replace (len (MetadataFile.file_data sample_edited)) with 38 by (vm_compute; reflexivity).
  replace (len (MetadataFile.str_bytes sample_edited)) with 1 by (vm_compute; reflexivity).
  lia.
Qed.

Lemma save_descriptors_consistent_witness :
  table_apart sample_edited
  /\ unpack_from_II (MetadataFile.file_data (saved sample_edited)) 24 = Return (6, 0)
  /\ getslice (MetadataFile.file_data (saved sample_edited)) 16 24
     = bytes_of [32; 0; 0; 0; 8; 0; 0; 0].
Proof.
  assert (Hap : table_apart sample_edited)
    by (unfold table_apart; vm_compute; split; [|left]; discriminate).
  destruct (save_descriptors_consistent sample_file [(0, hello)] sample_doc
              (saved sample_edited) (MetadataFile.file_data (saved sample_edited))
              sample_init sample_save) as (Hh & _ & _ & Ht).
  destruct (Ht Hap) as (Hslot & _).
  split; [exact Hap|]. split; [|exact Hh].
  exact (Hslot 0%nat (bytes_of [104; 101; 108; 108; 111; 0]) eq_refl).
Defined.

Lemma save_aligned_witness :
  MetadataFile.init sample_file = Return sample_doc
  /\ MetadataFile.save (set_strings [(0, hello)] sample_doc)
     = Return (saved sample_edited, MetadataFile.file_data (saved sample_edited))
  /\ unpack_from_I (MetadataFile.file_data (saved sample_edited)) 20 = Return 8.
Proof.
  split; [exact sample_init|]. split; [exact sample_save|].
  exact (proj1 (save_aligned sample_file [(0, hello)] sample_doc
                  (saved sample_edited) (MetadataFile.file_data (saved sample_edited))
                  sample_init sample_save)).
Defined.

Lemma save_frame_witness :
  MetadataFile.init sample_file = Return sample_doc
  /\ MetadataFile.save (set_strings [(0, hello)] sample_doc)
     = Return (saved sample_edited, MetadataFile.file_data (saved sample_edited))
  /\ len sample_file <= len (MetadataFile.file_data (saved sample_edited)).
Proof.
  split; [exact sample_init|]. split; [exact sample_save|].
  exact (proj1 (save_frame sample_file [(0, hello)] sample_doc
                  (saved sample_edited) (MetadataFile.file_data (saved sample_edited))
                  sample_init sample_save)).
Defined.

Lemma roundtrip_regular_witness :
  MetadataFile.init sample_file = Return sample_doc
  /\ regular_layout (set_strings [(0, hello)] sample_doc)
  /\ roundtrip_at sample_file [(0, hello)].
Proof.
  split; [exact sample_init|]. split; [exact sample_regular|].
  exact (roundtrip_regular sample_file [(0, hello)] sample_doc sample_init sample_regular).
Defined.

Lemma idempotent_regular_witness :
  MetadataFile.init sample_file = Return sample_doc
  /\ regular_layout (set_strings [(0, hello)] sample_doc)
  /\ idempotent_at sample_file [(0, hello)].
Proof.
  split; [exact sample_init|]. split; [exact sample_regular|].
  exact (idempotent_regular sample_file [(0, hello)] sample_doc sample_init sample_regular).
Defined.

(** C2 as stated fails on a file whose string data region starts on the
    header pair: the saved bytes load, but the string read back is
    ["\x10"], not ["abc"]. *)
Lemma roundtrip_counterexample : ~ roundtrip_at overlap_header_file [].
Proof.
  intros H.
  assert (E0 : MetadataFile.init overlap_header_file
               = Return (loaded_from overlap_header_file)) by (vm_compute; reflexivity).
  assert (E1 : MetadataFile.save (set_strings [] (loaded_from overlap_header_file))
               = Return (saved (loaded_from overlap_header_file),
                         MetadataFile.file_data (saved (loaded_from overlap_header_file))))
    by (vm_compute; reflexivity).
  destruct (H _ _ _ E0 E1) as (again & Hinit & Hstr).
  vm_compute in Hinit. injection Hinit as <-. vm_compute in Hstr. discriminate Hstr.
Qed.

(** C6 as stated fails on a file whose string data region starts on the
    descriptor table: the saved bytes load, with a 12-byte payload, and
    saving the reloaded document writes the size 12 where the first save
    wrote 4. *)
Lemma idempotent_counterexample : ~ idempotent_at overlap_table_file [].
Proof.
  intros H.
  assert (E0 : MetadataFile.init overlap_table_file
               = Return (loaded_from overlap_table_file)) by (vm_compute; reflexivity).
  assert (E1 : MetadataFile.save (set_strings [] (loaded_from overlap_table_file))
               = Return (saved (loaded_from overlap_table_file),
                         MetadataFile.file_data (saved (loaded_from overlap_table_file))))
    by (vm_compute; reflexivity).
  destruct (H _ _ _ E0 E1) as ((again & self'' & Hinit & Hsave) & _).
  vm_compute in Hinit. injection Hinit as <-. vm_compute in Hsave. discriminate Hsave.
Qed.

(** ** The constructor on short and truncated files *)

Lemma unpack_from_I_short f offset :
  len f < offset + 4 -> unpack_from_I f offset = Raise (struct_error 4 offset (len f)).
Proof.
  intros. unfold unpack_from_I. destruct (Z.ltb_spec (len f - offset) 4); [reflexivity|lia].
Qed.

(** C10.  On a buffer that starts with the magic and is shorter than 24
    bytes the constructor raises while it reads the header: the exception
    is the [struct] error of a 4-byte read at one of the offsets 4, 8, 12,
    16, 20 -- not the "Invalid metadata file" exception of the magic test
    and not a failure of the descriptor loop, whose reads are 8 bytes
    long -- and no object is built. *)
Theorem short_header_fails content :
  len content < 24 ->
  firstn 4 content = le_split 4 MetadataFile.MAGIC ->
  exists offset,
    MetadataFile.init content = Raise (struct_error 4 offset (len content))
    /\ In offset [4; 8; 12; 16; 20].
Proof.
  intros Hlen Hmagic.
  assert (H4 : 4 <= len content).
  { apply (f_equal (@List.length byte)) in Hmagic.
    rewrite length_firstn, length_le_split in Hmagic. unfold len. lia. }
  assert (Em : read_u32 content 0 = MetadataFile.MAGIC).
  { unfold read_u32. cbn [Z.to_nat skipn]. rewrite Hmagic.
    apply le_combine_le_split_u32. unfold MetadataFile.MAGIC, u32_max. lia. }
  unfold MetadataFile.init, MetadataFile.parse. cbn [MetadataFile.file_data].
  rewrite unpack_from_I_ok by lia. cbn [bind]. rewrite Em, Z.eqb_refl. cbn [negb].
  unfold unpack_from_i.
  destruct (Z_lt_le_dec (len content) 8);
    [exists 4; rewrite (unpack_from_I_short content 4) by lia;
     split; [reflexivity|cbn; auto 10]|].
  rewrite (unpack_from_I_ok content 4) by lia. cbn [bind].
  destruct (Z_lt_le_dec (len content) 12);
    [exists 8; rewrite (unpack_from_I_short content 8) by lia;
     split; [reflexivity|cbn; auto 10]|].
  rewrite (unpack_from_I_ok content 8) by lia. cbn [bind].
  destruct (Z_lt_le_dec (len content) 16);
    [exists 12; rewrite (unpack_from_I_short content 12) by lia;
     split; [reflexivity|cbn; auto 10]|].
  rewrite (unpack_from_I_ok content 12) by lia. cbn [bind].
  destruct (Z_lt_le_dec (len content) 20);
    [exists 16; rewrite (unpack_from_I_short content 16) by lia;
     split; [reflexivity|cbn; auto 10]|].
  rewrite (unpack_from_I_ok content 16) by lia. cbn [bind].
  exists 20. rewrite (unpack_from_I_short content 20) by lia.
  split; [reflexivity|cbn; auto 10].
Qed.

Lemma short_header_fails_witness :
  len short_file < 24
  /\ firstn 4 short_file = le_split 4 MetadataFile.MAGIC
  /\ exists offset,
       MetadataFile.init short_file = Raise (struct_error 4 offset (len short_file))
       /\ In offset [4; 8; 12; 16; 20].
Proof.
  assert (H1 : len short_file < 24) by (vm_compute; reflexivity).
  assert (H2 : firstn 4 short_file = le_split 4 MetadataFile.MAGIC)
    by (vm_compute; reflexivity).
  split; [exact H1|]. split; [exact H2|].
  exact (short_header_fails short_file H1 H2).
Defined.

Lemma len_getslice {A} (l : list A) a b :
  0 <= a -> 0 <= b ->
  len (getslice l a b) = Z.max 0 (Z.min b (len l) - Z.min a (len l)).
Proof.
  intros Ha Hb. unfold getslice. rewrite !adjust_index_nonneg by assumption.
  unfold len. rewrite length_firstn, length_skipn. lia.
Qed.

Lemma nth_error_getslice {A} (l : list A) a b k :
  0 <= a -> 0 <= b ->
  Z.of_nat k < Z.min b (len l) - Z.min a (len l) ->
  nth_error (getslice l a b) k = nth_error l (Z.to_nat (Z.min a (len l)) + k).
Proof.
  intros Ha Hb Hk. unfold getslice. rewrite !adjust_index_nonneg by assumption.
  rewrite nth_error_firstn, nth_error_skipn.
  destruct (Nat.ltb_spec k (Z.to_nat (Z.min b (len l) - Z.min a (len l)))); [reflexivity|lia].
Qed.

(** C3 as stated fails: the constructor accepts the truncated file. *)
Lemma truncated_payload_counterexample : ~ truncated_payload_rejected truncated_file.
Proof.
  intros H.
  destruct H as (e & He).
  - exists O, (StringLiteral.mk 6 0). split; vm_compute; reflexivity.
  - vm_compute in He. discriminate He.
Qed.

(** C3, amended.  The constructor does not check payload spans: whenever
    the magic is right, the 24-byte header is complete and the descriptor
    table lies inside the buffer, it returns an object, and the payload of
    each descriptor is the slice of its span clipped to the buffer, so it
    is shorter than the descriptor's length, possibly empty, when the span
    runs past the end. *)
Theorem init_clips_payloads content :
  24 <= len content ->
  read_u32 content 0 = MetadataFile.MAGIC ->
  (read_u32 content 12 / 8 = 0
   \/ read_u32 content 8 + 8 * (read_u32 content 12 / 8) <= len content) ->
  exists self,
    MetadataFile.init content = Return self
    /\ forall j lit,
         nth_error (MetadataFile.string_literals self) j = Some lit ->
         let start := MetadataFile.string_literal_data_offset self + StringLiteral.offset lit in
         let stop := start + StringLiteral.length lit in
         exists payload,
           nth_error (MetadataFile.str_bytes self) j = Some payload
           /\ payload = getslice content start stop
           /\ len payload = Z.min stop (len content) - Z.min start (len content)
           /\ forall k, (Z.of_nat k < len payload) ->
                nth_error payload k = nth_error content (Z.to_nat start + k).
Proof.
  intros H24 Hm Hb. exists (loaded_from content). split; [apply init_ok; assumption|].
  intros j lit Hj. cbn [loaded_from MetadataFile.string_literals MetadataFile.str_bytes
                        MetadataFile.string_literal_data_offset] in *.
  cbv zeta.
  set (start := read_u32 content 16 + StringLiteral.offset lit).
  set (stop := start + StringLiteral.length lit).
  assert (Hlit : 0 <= StringLiteral.offset lit /\ 0 <= StringLiteral.length lit).
  { destruct (Nat.lt_ge_cases j (Z.to_nat (read_u32 content 12 / 8))) as [Hlt|Hge].
    - rewrite read_table_nth in Hj by assumption. injection Hj as <-.
      cbn [read_literal StringLiteral.offset StringLiteral.length].
      split; apply read_u32_range.
    - rewrite <- (length_read_table content (read_u32 content 8) (Z.to_nat (read_u32 content 12 / 8)) 0)
        in Hge.
      apply nth_error_None in Hge. congruence. }
  pose proof (read_u32_range content 16).
  assert (Hs : 0 <= start <= stop) by (unfold start, stop; lia).
  exists (getslice content start stop). split; [|split; [reflexivity|split]].
  - rewrite nth_error_map, Hj. reflexivity.
  - rewrite len_getslice by lia. lia.
  - intros k Hk. rewrite len_getslice in Hk by lia.
    rewrite nth_error_getslice by lia. f_equal. lia.
Qed.

Lemma init_clips_payloads_witness :
  24 <= len truncated_file
  /\ read_u32 truncated_file 0 = MetadataFile.MAGIC
  /\ exists self, MetadataFile.init truncated_file = Return self.
Proof.
  assert (H1 : 24 <= len truncated_file) by (vm_compute; discriminate).
  assert (H2 : read_u32 truncated_file 0 = MetadataFile.MAGIC) by (vm_compute; reflexivity).
  assert (H3 : read_u32 truncated_file 12 / 8 = 0
               \/ read_u32 truncated_file 8 + 8 * (read_u32 truncated_file 12 / 8)
                  <= len truncated_file)
    by (right; vm_compute; discriminate).
  split; [exact H1|]. split; [exact H2|].
  destruct (init_clips_payloads truncated_file H1 H2 H3) as (self & Hinit & _).
  exists self. exact Hinit.
Defined.

(** ** [set_string] and the string count *)

Lemma set_strings_count edits : forall self,
  loaded_inv self ->
  MetadataFile.string_literal_count (set_strings edits self)
  = MetadataFile.string_literal_count self
  /\ len (MetadataFile.str_bytes (set_strings edits self))
     = MetadataFile.string_literal_count self.
Proof.
  intros self Hinv. destruct (set_strings_fields edits self) as (_ & _ & _ & Hc & _).
  split; [exact Hc|]. rewrite <- Hc. apply inv_strs. apply set_strings_inv. assumption.
Qed.

(** C4.  For a zero-based index ([0 <= index]) and a text that has a
    UTF-8 encoding, [set_string] on a document with [n] strings raises
    [IndexError] exactly when [index >= n] and returns exactly when
    [index < n]; it raises nothing else, and when it raises the object is
    unchanged.  When it returns, payload [index] is the encoded text
    followed by one NUL byte, and every other payload, the descriptors,
    the buffer and the header fields are unchanged.  No sequence of calls
    changes the number of strings. *)
Theorem set_string_spec content edits self0 index text encoded :
  MetadataFile.init content = Return self0 ->
  encode_utf8 text = Return encoded ->
  0 <= index ->
  let self := set_strings edits self0 in
  let n := MetadataFile.string_literal_count self in
  let self' := fst (MetadataFile.set_string self index text) in
  let r := snd (MetadataFile.set_string self index text) in
  index_error_iff_past_end self index text
  /\ (r = Return tt <-> index < n)
  /\ (forall e, r = Raise e -> e = IndexError /\ self' = self)
  /\ (r = Return tt ->
      nth_error (MetadataFile.str_bytes self') (Z.to_nat index)
      = Some (encoded ++ [Byte.x00])
      /\ (forall k, k <> Z.to_nat index ->
            nth_error (MetadataFile.str_bytes self') k
            = nth_error (MetadataFile.str_bytes self) k)
      /\ MetadataFile.string_literals self' = MetadataFile.string_literals self
      /\ MetadataFile.file_data self' = MetadataFile.file_data self
      /\ MetadataFile.string_literal_offset self' = MetadataFile.string_literal_offset self
      /\ MetadataFile.string_literal_data_offset self'
         = MetadataFile.string_literal_data_offset self
      /\ MetadataFile.string_literal_count self' = n)
  /\ (forall more,
        MetadataFile.string_literal_count (set_strings more self) = n
        /\ len (MetadataFile.str_bytes (set_strings more self)) = n).
Proof.
  intros Hinit Henc Hidx self n self' r.
  pose proof (document_inv content edits self0 Hinit) as Hinv. fold self in Hinv.
  pose proof (inv_strs _ Hinv) as Hn. fold n in Hn.
  assert (Hn0 : 0 <= n) by (rewrite <- Hn; apply len_nonneg).
  unfold index_error_iff_past_end. fold n.
  subst self' r. unfold MetadataFile.set_string. rewrite Henc.
  destruct (setitem (MetadataFile.str_bytes self) index (encoded ++ [Byte.x00]))
    as [l|e] eqn:E; cbn [fst snd].
  - apply setitem_Return in E as (Hi & ->). rewrite Hn in Hi.
    destruct (Z.ltb_spec index 0) as [|_]; [lia|].
    split; [split; [discriminate|lia]|].
    split; [split; [lia|reflexivity]|].
    split; [discriminate|].
    split; [|intros more; apply set_strings_count; assumption].
    intros _. cbn [MetadataFile.with_str_bytes MetadataFile.str_bytes
                   MetadataFile.string_literals MetadataFile.file_data
                   MetadataFile.string_literal_offset MetadataFile.string_literal_count
                   MetadataFile.string_literal_data_offset].
    assert (Hlt : (Z.to_nat index < List.length (MetadataFile.str_bytes self))%nat)
      by (unfold len in Hn; lia).
    split; [|split; [|repeat split; reflexivity]].
    + rewrite nth_error_replace_nth by assumption. now rewrite Nat.eqb_refl.
    + intros k Hk. rewrite nth_error_replace_nth by assumption.
      destruct (Nat.eqb_spec k (Z.to_nat index)); [contradiction|reflexivity].
  - apply setitem_Raise in E as (-> & Hi). rewrite Hn in Hi.
    split; [split; [lia|reflexivity]|].
    split; [split; [discriminate|lia]|].
    split; [intros e [= <-]; split; reflexivity|].
    split; [discriminate|intros more; apply set_strings_count; assumption].
Qed.

Lemma set_string_spec_witness :
  0 <= 1
  /\ snd (MetadataFile.set_string (set_strings [(0, hello)] sample_doc) 1 hello)
     = Raise IndexError
  /\ (snd (MetadataFile.set_string (set_strings [(0, hello)] sample_doc) 0 hello) = Return tt
      <-> 0 < MetadataFile.string_literal_count (set_strings [(0, hello)] sample_doc)).
Proof.
  assert (H2 : encode_utf8 hello = Return (bytes_of hello)) by (vm_compute; reflexivity).
  assert (H1 : 0 <= 1) by lia. assert (H0 : 0 <= 0) by lia.
  split; [exact H1|]. split.
  - apply (proj1 (set_string_spec sample_file [(0, hello)] sample_doc 1 hello (bytes_of hello)
                    sample_init H2 H1)).
    vm_compute. discriminate.
  - exact (proj1 (proj2 (set_string_spec sample_file [(0, hello)] sample_doc 0 hello
                           (bytes_of hello) sample_init H2 H0))).
Defined.

(** ** The page route *)

(** C9 as stated fails for a negative page size: page 1 of size -1 of a
    two-string file is specified as the empty slice [0 .. -1), and the
    route returns one string. *)
Lemma page_counterexample : ~ page_as_specified two_strings_file 1 (-1).
Proof.
  intros H.
  assert (E0 : MetadataFile.init two_strings_file = Return (loaded_from two_strings_file))
    by (vm_compute; reflexivity).
  destruct (H _ E0) as (batch & has_more & Hpage & Hlen & _).
  vm_compute in Hpage. injection Hpage as <- <-. vm_compute in Hlen. discriminate Hlen.
Qed.

Lemma loaded_count_strings content self :
  MetadataFile.init content = Return self ->
  len (snd (MetadataFile.get_strings self)) = MetadataFile.string_literal_count self.
Proof.
  intros H. pose proof (inv_strs _ (init_inv _ _ H)) as Hs.
  unfold MetadataFile.get_strings. cbn [snd]. unfold len in *. now rewrite length_map.
Qed.

(** C9, amended.  For a page number [page >= 1] and a page size
    [limit >= 0], the route returns the decoded strings at the indices
    [(page-1)*limit .. min(page*limit, count) - 1], the first index
    [(page-1)*limit], and a flag that is true exactly when
    [min(page*limit, count) < count]. *)
Theorem page_nonnegative_limit content page limit :
  1 <= page -> 0 <= limit -> page_as_specified content page limit.
Proof.
  intros Hp Hl self Hinit. cbv zeta.
  pose proof (loaded_count_strings content self Hinit) as Hc.
  unfold get_strings_page. rewrite Hinit. cbn [bind].
  set (all_strings := snd (MetadataFile.get_strings self)) in *.
  set (count := MetadataFile.string_literal_count self) in *.
  set (first := (page - 1) * limit).
  assert (Hf : 0 <= first) by (unfold first; apply Z.mul_nonneg_nonneg; lia).
  replace (page * limit) with (first + limit) by (unfold first; ring).
  rewrite Hc.
  exists (getslice all_strings first (Z.min (first + limit) count)),
         (Z.min (first + limit) count <? count).
  pose proof (len_nonneg all_strings) as Hn. rewrite Hc in Hn.
  split; [reflexivity|]. split; [|split].
  - rewrite len_getslice by lia. rewrite Hc. lia.
  - intros k Hk.
    rewrite nth_error_getslice; rewrite ?Hc; try lia. f_equal. lia.
  - apply Z.ltb_lt.
Qed.

Lemma page_nonnegative_limit_witness :
  1 <= 2 /\ 0 <= 1 /\ page_as_specified two_strings_file 2 1.
Proof.
  assert (H1 : 1 <= 2) by lia. assert (H2 : 0 <= 1) by lia.
  split; [exact H1|]. split; [exact H2|].
  exact (page_nonnegative_limit two_strings_file 2 1 H1 H2).
Defined.

(** ** Decoding for display *)

Lemma decode_utf8_ignore_cons b0 s1 :
  decode_utf8_ignore (b0 :: s1)
  = match decode_step b0 s1 with
    | (Some c, rest) => c :: decode_utf8_ignore rest
    | (None, rest) => decode_utf8_ignore rest
    end.
Proof.
  unfold decode_step. cbn [decode_utf8_ignore].
  repeat match goal with
         | |- context [if ?c <? ?d then _ else _] => destruct (c <? d)
         end; try reflexivity.
  - destruct s1 as [|b1 s2]; [reflexivity|]. destruct (is_cont b1); reflexivity.
  - destruct s1 as [|b1 [|b2 s3]]; try reflexivity.
    match goal with |- context [if ?c then _ else _] => destruct c end; reflexivity.
  - destruct s1 as [|b1 [|b2 [|b3 s4]]]; try reflexivity.
    match goal with |- context [if ?c then _ else _] => destruct c end; reflexivity.
Qed.

Lemma is_cont_nul : is_cont Byte.x00 = false.
Proof. reflexivity. Qed.

(** A NUL byte ends any pending multi-byte sequence: a step on [q1]
    followed by NUL is the step on [q1], with the NUL left to decode. *)
Lemma decode_step_app_nul b0 q1 r :
  decode_step b0 (q1 ++ Byte.x00 :: r)
  = (fst (decode_step b0 q1), snd (decode_step b0 q1) ++ Byte.x00 :: r).
Proof.
  unfold decode_step.
  repeat match goal with
         | |- context [if ?c <? ?d then _ else _] => destruct (c <? d)
         end; try reflexivity.
  - destruct q1 as [|b1 q2]; cbn [app]; try reflexivity.
    destruct (is_cont b1); reflexivity.
  - destruct q1 as [|b1 [|b2 q3]]; cbn [app].
    + destruct r; reflexivity.
    + rewrite is_cont_nul, Bool.andb_false_r. reflexivity.
    + match goal with |- context [if ?c then _ else _] => destruct c end; reflexivity.
  - destruct q1 as [|b1 [|b2 [|b3 q4]]]; cbn [app].
    + destruct r as [|r1 [|r2 r3]]; reflexivity.
    + destruct r as [|r1 r2]; try reflexivity.
      rewrite is_cont_nul, Bool.andb_false_r. reflexivity.
    + rewrite is_cont_nul, Bool.andb_false_r. reflexivity.
    + match goal with |- context [if ?c then _ else _] => destruct c end; reflexivity.
Qed.

Lemma decode_step_length b0 q1 :
  (List.length (snd (decode_step b0 q1)) <= List.length q1)%nat.
Proof.
  unfold decode_step.
  repeat match goal with
         | |- context [if ?c <? ?d then _ else _] => destruct (c <? d)
         end; cbn [snd]; try lia.
  - destruct q1 as [|b1 q2]; cbn [snd]; [lia|].
    destruct (is_cont b1); cbn [snd List.length]; lia.
  - destruct q1 as [|b1 [|b2 q3]]; cbn [snd List.length]; try lia.
    match goal with |- context [if ?c then _ else _] => destruct c end;
      cbn [snd List.length]; lia.
  - destruct q1 as [|b1 [|b2 [|b3 q4]]]; cbn [snd List.length]; try lia.
    match goal with |- context [if ?c then _ else _] => destruct c end;
      cbn [snd List.length]; lia.
Qed.

Lemma decode_nul_cons r : decode_utf8_ignore (Byte.x00 :: r) = 0 :: decode_utf8_ignore r.
Proof. rewrite decode_utf8_ignore_cons. reflexivity. Qed.

Lemma decode_app_nul_bounded n : forall q r,
  (List.length q <= n)%nat ->
  decode_utf8_ignore (q ++ Byte.x00 :: r)
  = decode_utf8_ignore q ++ 0 :: decode_utf8_ignore r.
Proof.
  induction n as [|n IH]; intros q r Hn.
  - destruct q; [|simpl in Hn; lia]. apply decode_nul_cons.
  - destruct q as [|b0 q1]; [apply decode_nul_cons|].
    cbn [app List.length] in *. rewrite !decode_utf8_ignore_cons, decode_step_app_nul.
    pose proof (decode_step_length b0 q1) as Hl.
    destruct (decode_step b0 q1) as [[c|] rest]; cbn [fst snd] in *;
      rewrite IH by lia; reflexivity.
Qed.

(** Decoding commutes with a NUL byte in the payload. *)
Lemma decode_app_nul q r :
  decode_utf8_ignore (q ++ Byte.x00 :: r)
  = decode_utf8_ignore q ++ 0 :: decode_utf8_ignore r.
Proof. apply (decode_app_nul_bounded (List.length q)). lia. Qed.

Lemma decode_repeat_nul k : decode_utf8_ignore (repeat Byte.x00 k) = repeat 0 k.
Proof.
  induction k as [|k IH]; [reflexivity|].
  cbn [repeat]. rewrite decode_nul_cons, IH. reflexivity.
Qed.

Lemma decode_app_nuls q k :
  decode_utf8_ignore (q ++ repeat Byte.x00 k) = decode_utf8_ignore q ++ repeat 0 k.
Proof.
  destruct k as [|k]; [cbn [repeat]; now rewrite !app_nil_r|].
  cbn [repeat]. rewrite decode_app_nul, decode_repeat_nul. reflexivity.
Qed.

Lemma byte_in_nul b : byte_in b [Byte.x00] = true -> b = Byte.x00.
Proof.
  unfold byte_in. cbn [existsb]. rewrite Bool.orb_false_r. intros H.
  apply Z.eqb_eq in H. apply byte.unsigned_inj. symmetry. exact H.
Qed.

(** A payload is its stripped part followed by NUL bytes only. *)
Lemma rstrip_nul_decompose p :
  exists k, p = rstrip p [Byte.x00] ++ repeat Byte.x00 k.
Proof.
  induction p as [|b p (k & IH)]; [exists O; reflexivity|].
  unfold rstrip in *. cbn [fold_right].
  destruct (fold_right _ [] p) as [|x t] eqn:E.
  - cbn [app] in IH. destruct (byte_in b [Byte.x00]) eqn:Eb.
    + apply byte_in_nul in Eb. subst b. exists (S k). cbn [app repeat]. now rewrite <- IH.
    + exists k. cbn [app]. now rewrite <- IH.
  - exists k. cbn [app] in *. now rewrite <- IH.
Qed.

Lemma strip_trailing_nul_repeat k : strip_trailing_nul (repeat 0 k) = [].
Proof.
  induction k as [|k IH]; [reflexivity|].
  unfold strip_trailing_nul in *. cbn [repeat fold_right]. rewrite IH. reflexivity.
Qed.

Lemma strip_trailing_nul_app_nuls l k :
  strip_trailing_nul (l ++ repeat 0 k) = strip_trailing_nul l.
Proof.
  induction l as [|c l IH]; [apply strip_trailing_nul_repeat|].
  unfold strip_trailing_nul in *. cbn [app fold_right]. rewrite IH. reflexivity.
Qed.

(** C5 as stated fails: an ignored byte after a NUL keeps the NUL in the
    text the code returns, while decoding first and stripping the text
    removes it. *)
Lemma decode_text_counterexample :
  MetadataFile.decode_text [Byte.x61; Byte.x00; Byte.xff]
  <> spec_decode_text [Byte.x61; Byte.x00; Byte.xff].
Proof. vm_compute. discriminate. Qed.

(** C5, amended.  [decode_text] strips the trailing NUL bytes of the
    payload first and decodes what is left, dropping ill-formed bytes;
    [get_strings] does not modify the object.  Decoding first and
    stripping the trailing NUL characters of the text, as the spec words
    it, gives [decode_text] with its trailing NUL characters stripped: the
    two differ exactly when [decode_text] ends in a NUL character. *)
Theorem decode_text_strips_bytes_first self p :
  MetadataFile.get_strings self
  = (self, map MetadataFile.decode_text (MetadataFile.str_bytes self))
  /\ MetadataFile.decode_text p = decode_utf8_ignore (rstrip p [Byte.x00])
  /\ spec_decode_text p = strip_trailing_nul (MetadataFile.decode_text p)
  /\ (spec_decode_text p = MetadataFile.decode_text p
      <-> strip_trailing_nul (MetadataFile.decode_text p) = MetadataFile.decode_text p).
Proof.
  assert (E : spec_decode_text p = strip_trailing_nul (MetadataFile.decode_text p)).
  { unfold spec_decode_text, MetadataFile.decode_text.
    destruct (rstrip_nul_decompose p) as (k & Hk).
    rewrite Hk at 1. rewrite decode_app_nuls, strip_trailing_nul_app_nuls. reflexivity. }
  split; [reflexivity|]. split; [reflexivity|]. split; [exact E|].
  rewrite E. reflexivity.
Qed.

(** * Further properties of the code *)

(** ** Which files the constructor accepts *)

(** X1.  A file of at least four bytes that does not start with the magic
    is rejected with the exception "Invalid metadata file", whatever
    follows the first four bytes. *)
Theorem init_invalid_magic content :
  4 <= len content ->
  read_u32 content 0 <> MetadataFile.MAGIC ->
  MetadataFile.init content = Raise (Exception "Invalid metadata file").
Proof.
  intros H4 Hm. unfold MetadataFile.init, MetadataFile.parse. cbn [MetadataFile.file_data].
  rewrite unpack_from_I_ok by lia. cbn [bind].
  destruct (Z.eqb_spec (read_u32 content 0) MetadataFile.MAGIC); [contradiction|reflexivity].
Qed.

Lemma init_invalid_magic_witness :
  4 <= len (bytes_of [0; 0; 0; 0; 1; 0; 0; 0])
  /\ read_u32 (bytes_of [0; 0; 0; 0; 1; 0; 0; 0]) 0 <> MetadataFile.MAGIC
  /\ MetadataFile.init (bytes_of [0; 0; 0; 0; 1; 0; 0; 0])
     = Raise (Exception "Invalid metadata file").
Proof.
  assert (H1 : 4 <= len (bytes_of [0; 0; 0; 0; 1; 0; 0; 0])) by (vm_compute; discriminate).
  assert (H2 : read_u32 (bytes_of [0; 0; 0; 0; 1; 0; 0; 0]) 0 <> MetadataFile.MAGIC)
    by (vm_compute; discriminate).
  split; [exact H1|]. split; [exact H2|].
  exact (init_invalid_magic _ H1 H2).
Defined.

Lemma parse_loop_Raise f slo sdo n : forall i lits strs,
  0 <= slo -> 0 <= i -> (0 < n)%nat -> len f < slo + (i + Z.of_nat n) * 8 ->
  exists k,
    i <= k < i + Z.of_nat n
    /\ MetadataFile.parse_loop f slo sdo i n lits strs
       = Raise (struct_error 8 (slo + k * 8) (len f))
    /\ len f < slo + k * 8 + 8
    /\ (forall j, i <= j < k -> slo + j * 8 + 8 <= len f).
Proof.
  induction n as [|n IH]; intros i lits strs Hslo Hi Hn Hlen; [lia|].
  cbn [MetadataFile.parse_loop].
  destruct (Z_lt_le_dec (len f) (slo + i * 8 + 8)) as [Hshort|Hfit].
  - exists i. split; [lia|]. split; [|split; [lia|intros j Hj; lia]].
    unfold unpack_from_II.
    destruct (Z.ltb_spec (len f - (slo + i * 8)) 8); [reflexivity|lia].
  - rewrite unpack_from_II_ok by lia. cbn [bind].
    destruct n as [|n]; [lia|].
    destruct (IH (i + 1) (lits ++ [StringLiteral.mk
                                    (StringLiteral.length (read_literal f (slo + i * 8)))
                                    (StringLiteral.offset (read_literal f (slo + i * 8)))])
                 (strs ++ [getslice f
                             (sdo + StringLiteral.offset (read_literal f (slo + i * 8)))
                             (sdo + StringLiteral.offset (read_literal f (slo + i * 8))
                              + StringLiteral.length (read_literal f (slo + i * 8)))])
                 Hslo ltac:(lia) ltac:(lia) ltac:(lia)) as (k & Hk & E & Hs & Hmin).
    exists k. split; [lia|]. split; [exact E|]. split; [lia|].
    intros j Hj. destruct (Z.eq_dec j i) as [->|Hne]; [lia|]. apply Hmin. lia.
Qed.

(** X2.  When the header is complete and the magic right but the
    descriptor table runs past the end of the file, the constructor raises
    the [struct] error of the 8-byte read of the first descriptor that
    does not fit: descriptor [k] ends past the end of the file, every
    descriptor before it lies inside.  No object is built. *)
Theorem init_truncated_table content :
  24 <= len content ->
  read_u32 content 0 = MetadataFile.MAGIC ->
  0 < read_u32 content 12 / 8 ->
  len content < read_u32 content 8 + 8 * (read_u32 content 12 / 8) ->
  exists k,
    0 <= k < read_u32 content 12 / 8
    /\ MetadataFile.init content
       = Raise (struct_error 8 (read_u32 content 8 + k * 8) (len content))
    /\ len content < read_u32 content 8 + k * 8 + 8
    /\ (forall j, 0 <= j < k -> read_u32 content 8 + j * 8 + 8 <= len content).
Proof.
  intros H24 Hm Hc Hlen.
  unfold MetadataFile.init, MetadataFile.parse. cbn [MetadataFile.file_data
    MetadataFile.string_literals MetadataFile.str_bytes].
  rewrite unpack_from_I_ok by lia. cbn [bind]. rewrite Hm, Z.eqb_refl. cbn [negb].
  unfold unpack_from_i. rewrite !unpack_from_I_ok by lia. cbn [bind].
  pose proof (read_u32_range content 8) as Hslo.
  destruct (parse_loop_Raise content (read_u32 content 8) (read_u32 content 16)
              (Z.to_nat (read_u32 content 12 / 8)) 0 [] []
              ltac:(lia) ltac:(lia) ltac:(lia) ltac:(lia)) as (k & Hk & E & Hs & Hmin).
  exists k. rewrite E. cbn [bind]. split; [lia|]. split; [reflexivity|].
  split; [lia|exact Hmin].
Qed.

(** The two-string file cut inside its second descriptor: descriptor 0
    lies inside, the read of descriptor 1 at offset 32 fails. *)
Lemma init_truncated_table_witness :
  exists k,
    0 <= k < read_u32 (firstn 36 two_strings_file) 12 / 8
    /\ MetadataFile.init (firstn 36 two_strings_file)
       = Raise (struct_error 8 (read_u32 (firstn 36 two_strings_file) 8 + k * 8)
                  (len (firstn 36 two_strings_file)))
    /\ len (firstn 36 two_strings_file)
       < read_u32 (firstn 36 two_strings_file) 8 + k * 8 + 8
    /\ (forall j, 0 <= j < k ->
          read_u32 (firstn 36 two_strings_file) 8 + j * 8 + 8
          <= len (firstn 36 two_strings_file)).
Proof.
  apply init_truncated_table; vm_compute; (reflexivity || discriminate).
Defined.

(** X3.  The constructor builds an object exactly when the file has the
    24 header bytes, starts with the magic, and holds the whole descriptor
    table (or the table has no descriptor); nothing else is checked. *)
Theorem init_accepts_iff content :
  (exists self, MetadataFile.init content = Return self)
  <-> (24 <= len content
       /\ read_u32 content 0 = MetadataFile.MAGIC
       /\ (read_u32 content 12 / 8 = 0
           \/ read_u32 content 8 + 8 * (read_u32 content 12 / 8) <= len content)).
Proof.
  split.
  - intros (self & H). apply init_Return in H as (H24 & Hm & Hb & _). auto.
  - intros (H24 & Hm & Hb). exists (loaded_from content). apply init_ok; assumption.
Qed.

(** X15.  A loaded object keeps the file bytes as they are and has
    [table size // 8] strings and as many descriptors, a table size that
    is not a multiple of 8 being rounded down. *)
Theorem init_string_count content self :
  MetadataFile.init content = Return self ->
  MetadataFile.string_literal_count self = read_u32 content 12 / 8
  /\ len (MetadataFile.str_bytes self) = read_u32 content 12 / 8
  /\ len (MetadataFile.string_literals self) = read_u32 content 12 / 8
  /\ MetadataFile.file_data self = content.
Proof.
  intros H. pose proof (init_inv _ _ H) as Hinv.
  apply init_Return in H as (_ & _ & _ & ->).
  pose proof (inv_strs _ Hinv) as Hs. pose proof (inv_lits _ Hinv) as Hl.
  cbn [loaded_from MetadataFile.string_literal_count MetadataFile.str_bytes
       MetadataFile.string_literals MetadataFile.file_data] in *.
  auto.
Qed.

Lemma init_string_count_witness :
  MetadataFile.init two_strings_file = Return (loaded_from two_strings_file)
  /\ len (MetadataFile.str_bytes (loaded_from two_strings_file))
     = read_u32 two_strings_file 12 / 8.
Proof.
  assert (H : MetadataFile.init two_strings_file = Return (loaded_from two_strings_file))
    by (vm_compute; reflexivity).
  split; [exact H|].
  exact (proj1 (proj2 (init_string_count two_strings_file _ H))).
Defined.

(** ** [save] on documents *)

(** X4.  [save] returns on every document whose payload bytes plus padding
    fit in 32 bits; it returns the buffer of the object, and leaves the
    payloads and the header fields of the object as they were. *)
Theorem save_returns content edits self0 :
  MetadataFile.init content = Return self0 ->
  packed_size (set_strings edits self0) <= u32_max ->
  exists self' out,
    MetadataFile.save (set_strings edits self0) = Return (self', out)
    /\ out = MetadataFile.file_data self'
    /\ MetadataFile.str_bytes self' = MetadataFile.str_bytes (set_strings edits self0)
    /\ MetadataFile.string_literal_offset self' = MetadataFile.string_literal_offset self0
    /\ MetadataFile.string_literal_data_offset self'
       = MetadataFile.string_literal_data_offset self0
    /\ MetadataFile.string_literal_count self' = MetadataFile.string_literal_count self0.
Proof.
  intros Hinit Hmax.
  pose proof (document_inv content edits self0 Hinit) as Hinv.
  destruct (set_strings_fields edits self0) as (_ & _ & Eslo & Ec & Esdo & _).
  exists (saved (set_strings edits self0)),
         (MetadataFile.file_data (saved (set_strings edits self0))).
  split; [apply save_ok; assumption|]. cbn [saved MetadataFile.str_bytes
    MetadataFile.string_literal_offset MetadataFile.string_literal_data_offset
    MetadataFile.string_literal_count MetadataFile.file_data].
  auto.
Qed.

Lemma save_returns_witness :
  exists self' out,
    MetadataFile.save (set_strings [(0, hello)] sample_doc) = Return (self', out)
    /\ out = MetadataFile.file_data self'.
Proof.
  assert (H : packed_size (set_strings [(0, hello)] sample_doc) <= u32_max)
    by (vm_compute; discriminate).
  destruct (save_returns sample_file [(0, hello)] sample_doc sample_init H)
    as (self' & out & Hs & Ho & _).
  exists self', out. split; assumption.
Defined.

Lemma len_payload_writes strs : forall p l,
  0 <= p <= len l ->
  len (apply_writes (payload_writes strs p) l) = Z.max (len l) (p + total_len strs).
Proof.
  induction strs as [|s strs IH]; intros p l Hp.
  - cbn [payload_writes apply_writes fold_left]. unfold total_len. simpl. lia.
  - cbn [payload_writes apply_writes fold_left fst snd].
    fold (apply_writes (payload_writes strs (p + len s)) (store l p s)).
    rewrite total_len_cons.
    pose proof (len_nonneg s). pose proof (total_len_nonneg strs).
    assert (El : len (store l p s) = Z.max (len l) (p + len s)).
    { unfold len at 1. rewrite length_store by lia. unfold landing, len in *. lia. }
    rewrite IH by lia. rewrite El. lia.
Qed.

Lemma len_pad_writes l sdo oc :
  0 <= sdo + oc ->
  len (apply_writes (pad_writes (len l) sdo oc) l)
  = if MetadataFile.padding_needed sdo oc =? 0 then len l
    else Z.max (len l) (sdo + oc + MetadataFile.padding_needed sdo oc).
Proof.
  intros Hs. unfold pad_writes. pose proof (padding_needed_range sdo oc) as Hp.
  destruct (Z.eqb_spec (MetadataFile.padding_needed sdo oc) 0); [reflexivity|].
  destruct (Z.gtb_spec (sdo + oc + MetadataFile.padding_needed sdo oc) (len l));
    cbn [app apply_writes fold_left fst snd].
  - rewrite store_at_end. unfold len at 1.
    rewrite length_store_inplace.
    + fold (len (l ++ repeat Byte.x00 (Z.to_nat (sdo + oc + MetadataFile.padding_needed sdo oc
                                                  - len l)))).
      rewrite len_app, len_repeat. lia.
    + lia.
    + rewrite len_app, !len_repeat. lia.
  - unfold len at 1. rewrite length_store_inplace; rewrite ?len_repeat; unfold len in *; lia.
Qed.

(** X5.  When the string data offset lies inside the loaded buffer (or at
    its end), the result of [save] is as long as the longer of the loaded
    buffer and the end of the repacked region: it grows only as far as
    the repacked strings need and never shrinks. *)
Theorem save_length content edits self0 self' out :
  MetadataFile.init content = Return self0 ->
  MetadataFile.save (set_strings edits self0) = Return (self', out) ->
  MetadataFile.string_literal_data_offset self0 <= len content ->
  len out
  = Z.max (len content)
          (MetadataFile.string_literal_data_offset self0
           + packed_size (set_strings edits self0)).
Proof.
  intros Hinit Hsave Hsdo.
  destruct (document_fields content edits self0 Hinit) as (Hfd & Hinv).
  destruct (set_strings_fields edits self0) as (_ & _ & _ & _ & Esdo & _).
  destruct (save_Return _ _ _ Hinv Hsave) as (_ & -> & Hmax).
  set (self := set_strings edits self0) in *.
  rewrite saved_eq by assumption.
  pose proof (inv_sdo _ Hinv) as Hs0. rewrite Esdo in Hs0.
  pose proof (inv_header _ Hinv) as H24. rewrite Hfd in H24.
  pose proof (total_len_nonneg (MetadataFile.str_bytes self)) as Htot.
  pose proof (padding_needed_range (MetadataFile.string_literal_data_offset self0)
                (total_len (MetadataFile.str_bytes self))) as Hpad.
  assert (Eb : len (before_header self)
               = Z.max (len content)
                       (MetadataFile.string_literal_data_offset self0 + packed_size self)).
  { rewrite <- before_header_eq. rewrite Esdo.
    assert (E1 : len (apply_writes
                        (pad_writes (len (MetadataFile.file_data self))
                           (MetadataFile.string_literal_data_offset self0)
                           (total_len (MetadataFile.str_bytes self)))
                        (apply_writes
                           (table_writes (packed_literals (MetadataFile.str_bytes self) 0)
                              (MetadataFile.string_literal_offset self))
                           (MetadataFile.file_data self)))
                 = if MetadataFile.padding_needed
                        (MetadataFile.string_literal_data_offset self0)
                        (total_len (MetadataFile.str_bytes self)) =? 0
                   then len content
                   else Z.max (len content)
                          (MetadataFile.string_literal_data_offset self0
                           + total_len (MetadataFile.str_bytes self)
                           + MetadataFile.padding_needed
                               (MetadataFile.string_literal_data_offset self0)
                               (total_len (MetadataFile.str_bytes self)))).
    { rewrite <- (length_table_applied _ Hinv) at 1.
      rewrite len_pad_writes by lia. rewrite (length_table_applied _ Hinv), Hfd.
      reflexivity. }
    rewrite len_payload_writes.
    - rewrite E1. unfold packed_size. rewrite Esdo.
      destruct (Z.eqb_spec (MetadataFile.padding_needed
                              (MetadataFile.string_literal_data_offset self0)
                              (total_len (MetadataFile.str_bytes self))) 0) as [E0|];
        [rewrite E0|]; lia.
    - rewrite E1.
      destruct (Z.eqb_spec (MetadataFile.padding_needed
                              (MetadataFile.string_literal_data_offset self0)
                              (total_len (MetadataFile.str_bytes self))) 0); lia. }
  unfold len at 1. rewrite length_store_inplace.
  - exact Eb.
  - lia.
  - unfold len at 1. rewrite length_header_pair. lia.
Qed.

Lemma save_length_witness :
  len (MetadataFile.file_data (saved sample_edited)) = Z.max (len sample_file) (32 + 8).
Proof.
  exact (save_length sample_file [(0, hello)] sample_doc (saved sample_edited)
           (MetadataFile.file_data (saved sample_edited)) sample_init sample_save
           ltac:(vm_compute; discriminate)).
Defined.

(** ** UTF-8: what [set_string] writes and [get_strings] reads *)

Lemma byte_unsigned_of_Z_small x : 0 <= x < 256 -> byte.unsigned (byte.of_Z x) = x.
Proof.
  intros H. rewrite byte.unsigned_of_Z. unfold byte.wrap. change (2 ^ 8) with 256.
  apply Z.mod_small. assumption.
Qed.

Lemma Some_eq {A} (a b : A) : Some a = Some b -> a = b.
Proof. intros H. injection H. auto. Qed.

Ltac cmp_cases :=
  repeat match goal with
         | |- context [?a <? ?b] =>
             destruct (Z.ltb_spec a b); try (exfalso; Z.div_mod_to_equations; lia)
         | |- context [?a <=? ?b] =>
             destruct (Z.leb_spec a b); try (exfalso; Z.div_mod_to_equations; lia)
         | |- context [?a =? ?b] =>
             destruct (Z.eqb_spec a b); try (exfalso; Z.div_mod_to_equations; lia)
         end.

(** Decoding the encoding of one character gives the character back. *)
Lemma decode_encode_char c bs rest :
  encode_char c = Some bs ->
  decode_utf8_ignore (bs ++ rest) = c :: decode_utf8_ignore rest.
Proof.
  unfold encode_char.
  destruct (Z.ltb_spec c 0); [discriminate|].
  destruct (Z.ltb_spec c 128);
    [|destruct (Z.ltb_spec c 2048);
      [|destruct (Z.ltb_spec c 65536);
        [destruct ((55296 <=? c) && (c <? 57344)) eqn:Es; [discriminate|]
        |destruct (Z.ltb_spec c 1114112); [|discriminate]]]];
    intros Hbs; apply Some_eq in Hbs; subst bs; cbn [app];
    rewrite decode_utf8_ignore_cons; unfold decode_step, is_cont, cont_bits;
    rewrite !byte_unsigned_of_Z_small by (Z.div_mod_to_equations; lia).
  - cmp_cases. reflexivity.
  - cmp_cases. cbn [andb]. f_equal. Z.div_mod_to_equations. lia.
  - apply Bool.andb_false_iff in Es.
    rewrite Z.leb_gt, Z.ltb_ge in Es.
    cmp_cases; cbn [andb negb]; f_equal; Z.div_mod_to_equations; lia.
  - cmp_cases; cbn [andb negb]; f_equal; Z.div_mod_to_equations; lia.
Qed.

Lemma decode_of_encode text : forall encoded,
  encode_utf8 text = Return encoded -> decode_utf8_ignore encoded = text.
Proof.
  induction text as [|c text IH]; intros encoded H; cbn [encode_utf8] in H.
  - injection H as <-. reflexivity.
  - destruct (encode_char c) as [bs|] eqn:Ec; [|discriminate].
    bind_inv H. injection H as <-.
    rewrite (decode_encode_char c bs a Ec). f_equal. apply IH. assumption.
Qed.

Lemma decode_step_scalar b0 s1 c rest :
  decode_step b0 s1 = (Some c, rest) -> scalar_value c.
Proof.
  unfold decode_step, is_cont, cont_bits, scalar_value. intros H.
  pose proof (byte.unsigned_range b0) as R0. change (2 ^ 8) with 256 in R0.
  destruct s1 as [|b1 [|b2 [|b3 s4]]];
    try (pose proof (byte.unsigned_range b1) as R1; change (2 ^ 8) with 256 in R1);
    try (pose proof (byte.unsigned_range b2) as R2; change (2 ^ 8) with 256 in R2);
    try (pose proof (byte.unsigned_range b3) as R3; change (2 ^ 8) with 256 in R3);
    repeat match type of H with
           | context [if ?x then _ else _] => destruct x eqn:?
           end;
    try discriminate; injection H as <- <-;
    repeat match goal with
           | E : _ && _ = true |- _ => apply Bool.andb_true_iff in E; destruct E
           | E : negb _ = true |- _ => apply Bool.negb_true_iff in E
           | E : _ && _ = false |- _ => apply Bool.andb_false_iff in E
           | E : (_ <? _) = true |- _ => apply Z.ltb_lt in E
           | E : (_ <? _) = false |- _ => apply Z.ltb_ge in E
           | E : (_ <=? _) = true |- _ => apply Z.leb_le in E
           | E : (_ <=? _) = false |- _ => apply Z.leb_gt in E
           | E : (_ =? _) = true |- _ => apply Z.eqb_eq in E
           | E : (_ =? _) = false |- _ => apply Z.eqb_neq in E
           end;
    lia.
Qed.

Lemma decode_scalar_bounded n : forall s,
  (List.length s <= n)%nat -> Forall scalar_value (decode_utf8_ignore s).
Proof.
  induction n as [|n IH]; intros s Hn.
  - destruct s; [constructor|simpl in Hn; lia].
  - destruct s as [|b0 s1]; [constructor|]. cbn [List.length] in Hn.
    rewrite decode_utf8_ignore_cons. pose proof (decode_step_length b0 s1) as Hl.
    destruct (decode_step b0 s1) as [[c|] rest] eqn:E; cbn [snd] in Hl.
    + constructor; [apply (decode_step_scalar b0 s1 c rest E)|apply IH; lia].
    + apply IH. lia.
Qed.

(** X6.  UTF-8 round trip: when [encode("utf-8")] returns, decoding its
    bytes gives the text back, nothing dropped; and a text that encodes
    holds only scalar values (no surrogate, nothing past U+10FFFF). *)
Theorem decode_encode_utf8 text encoded :
  encode_utf8 text = Return encoded ->
  decode_utf8_ignore encoded = text /\ Forall scalar_value text.
Proof.
  intros H. pose proof (decode_of_encode text encoded H) as E.
  split; [exact E|]. rewrite <- E.
  apply (decode_scalar_bounded (List.length encoded)). lia.
Qed.

Lemma decode_encode_utf8_witness :
  encode_utf8 [8364; 97; 128512; 0; 233]
  = Return (bytes_of [226; 130; 172; 97; 240; 159; 152; 128; 0; 195; 169])
  /\ decode_utf8_ignore (bytes_of [226; 130; 172; 97; 240; 159; 152; 128; 0; 195; 169])
     = [8364; 97; 128512; 0; 233].
Proof.
  assert (H : encode_utf8 [8364; 97; 128512; 0; 233]
              = Return (bytes_of [226; 130; 172; 97; 240; 159; 152; 128; 0; 195; 169]))
    by (vm_compute; reflexivity).
  split; [exact H|]. exact (proj1 (decode_encode_utf8 _ _ H)).
Defined.

Lemma encode_char_scalar c : scalar_value c -> exists bs, encode_char c = Some bs.
Proof.
  unfold scalar_value, encode_char. intros (Hr & Hs).
  destruct (Z.ltb_spec c 0); [lia|].
  destruct (Z.ltb_spec c 128); [eauto|].
  destruct (Z.ltb_spec c 2048); [eauto|].
  destruct (Z.ltb_spec c 65536).
  - destruct (Z.leb_spec 55296 c); destruct (Z.ltb_spec c 57344); cbn [andb]; eauto. lia.
  - destruct (Z.ltb_spec c 1114112); [eauto|lia].
Qed.

Lemma encode_utf8_scalar text :
  Forall scalar_value text -> exists encoded, encode_utf8 text = Return encoded.
Proof.
  induction 1 as [|c text Hc _ (enc & IH)]; [exists []; reflexivity|].
  destruct (encode_char_scalar c Hc) as (bs & Ec).
  exists (bs ++ enc). cbn [encode_utf8]. rewrite Ec, IH. reflexivity.
Qed.

(** X8.  Whatever the payload, the text [get_strings] shows for it can be
    encoded again: it holds no surrogate and no code point past U+10FFFF,
    so passing a displayed string back to [set_string] never raises
    [UnicodeEncodeError]. *)
Theorem displayed_text_encodes p self index :
  Forall scalar_value (MetadataFile.decode_text p)
  /\ (exists encoded, encode_utf8 (MetadataFile.decode_text p) = Return encoded)
  /\ snd (MetadataFile.set_string self index (MetadataFile.decode_text p))
     <> Raise UnicodeEncodeError.
Proof.
  assert (Hs : Forall scalar_value (MetadataFile.decode_text p))
    by (apply (decode_scalar_bounded (List.length (rstrip p [Byte.x00]))); lia).
  destruct (encode_utf8_scalar _ Hs) as (enc & He).
  split; [exact Hs|]. split; [eauto|].
  unfold MetadataFile.set_string. rewrite He.
  destruct (setitem _ index _) as [l|e] eqn:E; cbn [snd]; [discriminate|].
  apply setitem_Raise in E as (-> & _). discriminate.
Qed.

(** *** Stripping and encoding *)

Lemma rstrip_app a b chars :
  rstrip (a ++ b) chars
  = match rstrip b chars with
    | [] => rstrip a chars
    | _ :: _ => a ++ rstrip b chars
    end.
Proof.
  induction a as [|x a IH]; cbn [app].
  - destruct (rstrip b chars); reflexivity.
  - unfold rstrip in *. cbn [fold_right]. rewrite IH.
    destruct (fold_right _ [] b) as [|y t]; [reflexivity|].
    cbn [app]. destruct (a ++ y :: t) eqn:E; [|reflexivity].
    destruct a; discriminate.
Qed.

Lemma rstrip_app_nul u : rstrip (u ++ [Byte.x00]) [Byte.x00] = rstrip u [Byte.x00].
Proof. rewrite rstrip_app. reflexivity. Qed.

Lemma byte_in_nul_false b : byte.unsigned b <> 0 -> byte_in b [Byte.x00] = false.
Proof.
  intros H. unfold byte_in. cbn [existsb]. rewrite Bool.orb_false_r.
  apply Z.eqb_neq. change (byte.unsigned Byte.x00) with 0. lia.
Qed.

(** The encoding of a character other than NUL holds no trailing NUL
    byte; NUL is encoded as one NUL byte. *)
Lemma encode_char_rstrip c bs :
  encode_char c = Some bs ->
  bs <> []
  /\ (c = 0 -> bs = [Byte.x00])
  /\ (c <> 0 -> rstrip bs [Byte.x00] = bs).
Proof.
  unfold encode_char.
  destruct (Z.ltb_spec c 0); [discriminate|].
  destruct (Z.ltb_spec c 128);
    [|destruct (Z.ltb_spec c 2048);
      [|destruct (Z.ltb_spec c 65536);
        [destruct ((55296 <=? c) && (c <? 57344)); [discriminate|]
        |destruct (Z.ltb_spec c 1114112); [|discriminate]]]];
    intros Hbs; apply Some_eq in Hbs; subst bs;
    (split; [discriminate|]); (split; [intros ->; try lia; reflexivity|]);
    intros Hc; unfold rstrip; cbn [fold_right];
    rewrite byte_in_nul_false
      by (rewrite byte_unsigned_of_Z_small by (Z.div_mod_to_equations; lia);
          Z.div_mod_to_equations; lia);
    reflexivity.
Qed.

Lemma encode_strip_trailing_nul text : forall encoded,
  encode_utf8 text = Return encoded ->
  encode_utf8 (strip_trailing_nul text) = Return (rstrip encoded [Byte.x00]).
Proof.
  induction text as [|c text IH]; intros encoded H; cbn [encode_utf8] in H.
  - injection H as <-. reflexivity.
  - destruct (encode_char c) as [bs|] eqn:Ec; [|discriminate].
    bind_inv H. injection H as <-. rename a into enc1.
    specialize (IH enc1 Ha).
    destruct (encode_char_rstrip c bs Ec) as (Hne & H0 & Hn0).
    rewrite rstrip_app. unfold strip_trailing_nul in *. cbn [fold_right].
    destruct (fold_right _ [] text) as [|x l] eqn:Et.
    + cbn [encode_utf8] in IH. injection IH as IH. rewrite <- IH.
      destruct (Z.eqb_spec c 0) as [->|Hc].
      * rewrite (H0 eq_refl). reflexivity.
      * cbn [encode_utf8]. rewrite Ec. cbn [bind]. rewrite app_nil_r, (Hn0 Hc). reflexivity.
    + assert (Hr : rstrip enc1 [Byte.x00] <> []).
      { cbn [encode_utf8] in IH. destruct (encode_char x) as [bx|] eqn:Ex; [|discriminate].
        bind_inv IH. injection IH as IH. rewrite <- IH.
        destruct (encode_char_rstrip x bx Ex) as (Hbx & _). destruct bx; [contradiction|].
        discriminate. }
      destruct (rstrip enc1 [Byte.x00]) as [|y t] eqn:Er; [contradiction|].
      change (encode_utf8 (c :: x :: l))
        with (match encode_char c with
              | None => Raise UnicodeEncodeError
              | Some bs => rest <- encode_utf8 (x :: l) ;; Return (bs ++ rest)
              end).
      rewrite Ec, IH. reflexivity.
Qed.

(** What [get_strings] shows for the payload [set_string] stores. *)
Lemma decode_text_stored text encoded :
  encode_utf8 text = Return encoded ->
  MetadataFile.decode_text (encoded ++ [Byte.x00]) = strip_trailing_nul text.
Proof.
  intros H. unfold MetadataFile.decode_text. rewrite rstrip_app_nul.
  apply decode_of_encode. apply encode_strip_trailing_nul. assumption.
Qed.

Lemma set_string_shows self index text :
  loaded_inv self ->
  snd (MetadataFile.set_string self index text) = Return tt ->
  let n := MetadataFile.string_literal_count self in
  let self' := fst (MetadataFile.set_string self index text) in
  let i := Z.to_nat (if index <? 0 then index + n else index) in
  nth_error (snd (MetadataFile.get_strings self')) i = Some (strip_trailing_nul text)
  /\ (forall k, k <> i ->
        nth_error (snd (MetadataFile.get_strings self')) k
        = nth_error (snd (MetadataFile.get_strings self)) k)
  /\ len (snd (MetadataFile.get_strings self')) = n.
Proof.
  intros Hinv Hok n self' i.
  pose proof (inv_strs _ Hinv) as Hn. fold n in Hn.
  subst self'. unfold MetadataFile.set_string in *.
  destruct (encode_utf8 text) as [enc|e] eqn:Eenc; [|discriminate Hok].
  destruct (setitem (MetadataFile.str_bytes self) index (enc ++ [Byte.x00]))
    as [l|e] eqn:E; [|discriminate Hok].
  cbn [fst snd MetadataFile.get_strings MetadataFile.with_str_bytes MetadataFile.str_bytes].
  apply setitem_Return in E as (Hi & ->). rewrite Hn in *. fold i.
  assert (Hlt : (i < List.length (MetadataFile.str_bytes self))%nat)
    by (unfold len in Hn; subst i; destruct (Z.ltb_spec index 0); lia).
  split; [|split].
  - rewrite nth_error_map, nth_error_replace_nth, Nat.eqb_refl by assumption.
    cbn [option_map]. f_equal. apply decode_text_stored. assumption.
  - intros k Hk. rewrite !nth_error_map, nth_error_replace_nth by assumption.
    destruct (Nat.eqb_spec k i); [contradiction|reflexivity].
  - unfold len in *. rewrite length_map, length_replace_nth. assumption.
Qed.

(** X7.  After a successful [set_string] of [text] at [index] on a
    document, [get_strings] shows at that index the text without its
    trailing NUL characters, and shows every other string as before. *)
Theorem set_string_then_get_strings content edits self0 index text :
  MetadataFile.init content = Return self0 ->
  let self := set_strings edits self0 in
  let n := MetadataFile.string_literal_count self in
  let self' := fst (MetadataFile.set_string self index text) in
  let i := Z.to_nat (if index <? 0 then index + n else index) in
  snd (MetadataFile.set_string self index text) = Return tt ->
  nth_error (snd (MetadataFile.get_strings self')) i = Some (strip_trailing_nul text)
  /\ (forall k, k <> i ->
        nth_error (snd (MetadataFile.get_strings self')) k
        = nth_error (snd (MetadataFile.get_strings self)) k)
  /\ len (snd (MetadataFile.get_strings self')) = n.
Proof.
  intros Hinit self n self' i Hok.
  pose proof (document_inv content edits self0 Hinit) as Hinv.
  exact (set_string_shows self index text Hinv Hok).
Qed.

Lemma set_string_then_get_strings_witness :
  nth_error (snd (MetadataFile.get_strings
                    (fst (MetadataFile.set_string (set_strings [] sample_doc) 0
                            (hello ++ [0; 0]))))) 0
  = Some (strip_trailing_nul (hello ++ [0; 0])).
Proof.
  exact (proj1 (set_string_then_get_strings sample_file [] sample_doc 0 (hello ++ [0; 0])
                  sample_init ltac:(vm_compute; reflexivity))).
Defined.

(** ** Calls of [set_string], one after the other *)

Lemma replace_nth_twice {A} (l : list A) : forall n v w,
  replace_nth n (replace_nth n l v) w = replace_nth n l w.
Proof. induction l as [|a l IH]; intros [|n] v w; simpl; congruence. Qed.

Lemma replace_nth_comm {A} (l : list A) : forall i j v w,
  i <> j ->
  replace_nth i (replace_nth j l w) v = replace_nth j (replace_nth i l v) w.
Proof.
  induction l as [|a l IH]; intros [|i] [|j] v w H; simpl; try congruence.
  f_equal. apply IH. congruence.
Qed.

Lemma setitem_ok {A} (l : list A) index v :
  - len l <= index < len l ->
  setitem l index v
  = Return (replace_nth (Z.to_nat (if index <? 0 then index + len l else index)) l v).
Proof.
  intros H. unfold setitem.
  destruct (Z.ltb_spec index 0);
    match goal with |- context [(?a <=? ?b) && (?c <? ?d)] =>
      destruct (Z.leb_spec a b); destruct (Z.ltb_spec c d) end;
    try lia; reflexivity.
Qed.

Lemma setitem_out_of_range {A} (l : list A) index v :
  index < - len l \/ len l <= index -> setitem l index v = Raise IndexError.
Proof.
  intros H. unfold setitem.
  destruct (Z.ltb_spec index 0);
    match goal with |- context [(?a <=? ?b) && (?c <? ?d)] =>
      destruct (Z.leb_spec a b); destruct (Z.ltb_spec c d) end;
    try lia; reflexivity.
Qed.

Lemma len_replace_nth {A} (l : list A) n v : len (replace_nth n l v) = len l.
Proof. unfold len. now rewrite length_replace_nth. Qed.

(** X9.  Two calls of [set_string] with texts that encode.  With the
    same index the second call wins, as if the first had not been made.
    With two valid indices, negative ones counted from the end: when they
    address the same position the second call wins, and when they address
    different positions the order of the calls does not matter. *)
Theorem set_string_compose self i j t1 t2 e1 e2 :
  encode_utf8 t1 = Return e1 ->
  encode_utf8 t2 = Return e2 ->
  let n := len (MetadataFile.str_bytes self) in
  let position := fun index => if index <? 0 then index + n else index in
  fst (MetadataFile.set_string (fst (MetadataFile.set_string self i t1)) i t2)
  = fst (MetadataFile.set_string self i t2)
  /\ (- n <= i < n -> - n <= j < n ->
      (position i = position j ->
       fst (MetadataFile.set_string (fst (MetadataFile.set_string self i t1)) j t2)
       = fst (MetadataFile.set_string self j t2))
      /\ (position i <> position j ->
          fst (MetadataFile.set_string (fst (MetadataFile.set_string self i t1)) j t2)
          = fst (MetadataFile.set_string (fst (MetadataFile.set_string self j t2)) i t1))).
Proof.
  intros H1 H2 n position. unfold MetadataFile.set_string. rewrite H1, H2.
  pose proof (len_nonneg (MetadataFile.str_bytes self)) as Hn. fold n in Hn.
  split.
  - destruct (Z_lt_le_dec i (- n)) as [Hlo|Hlo];
      [|destruct (Z_lt_le_dec i n) as [Hhi|Hhi]].
    + rewrite (setitem_out_of_range (MetadataFile.str_bytes self) i (e1 ++ [Byte.x00]))
        by (fold n; lia).
      cbn [fst]. rewrite ?H2. reflexivity.
    + rewrite (setitem_ok (MetadataFile.str_bytes self) i (e1 ++ [Byte.x00]))
        by (fold n; lia).
      rewrite (setitem_ok (MetadataFile.str_bytes self) i (e2 ++ [Byte.x00]))
        by (fold n; lia).
      cbn [fst]. rewrite ?H2. cbn [MetadataFile.with_str_bytes MetadataFile.str_bytes].
      rewrite setitem_ok by (rewrite len_replace_nth; fold n; lia). cbn [fst].
      rewrite len_replace_nth, replace_nth_twice. reflexivity.
    + rewrite (setitem_out_of_range (MetadataFile.str_bytes self) i (e1 ++ [Byte.x00]))
        by (fold n; lia).
      cbn [fst]. rewrite ?H2. reflexivity.
  - intros Hi Hj.
    assert (Pi : 0 <= position i < n) by (subst position; cbv beta; destruct (Z.ltb_spec i 0); lia).
    assert (Pj : 0 <= position j < n) by (subst position; cbv beta; destruct (Z.ltb_spec j 0); lia).
    rewrite (setitem_ok (MetadataFile.str_bytes self) i (e1 ++ [Byte.x00])) by (fold n; lia).
    rewrite (setitem_ok (MetadataFile.str_bytes self) j (e2 ++ [Byte.x00])) by (fold n; lia).
    cbn [fst]. rewrite ?H1, ?H2. cbn [MetadataFile.with_str_bytes MetadataFile.str_bytes].
    fold n. change (if i <? 0 then i + n else i) with (position i).
    change (if j <? 0 then j + n else j) with (position j).
    rewrite (setitem_ok (replace_nth (Z.to_nat (position i)) (MetadataFile.str_bytes self)
                           (e1 ++ [Byte.x00])) j)
      by (rewrite len_replace_nth; fold n; lia).
    rewrite (setitem_ok (replace_nth (Z.to_nat (position j)) (MetadataFile.str_bytes self)
                           (e2 ++ [Byte.x00])) i)
      by (rewrite len_replace_nth; fold n; lia).
    cbn [fst]. rewrite !len_replace_nth. fold n.
    change (if i <? 0 then i + n else i) with (position i).
    change (if j <? 0 then j + n else j) with (position j).
    cbn [MetadataFile.with_str_bytes MetadataFile.file_data MetadataFile.string_literals
         MetadataFile.str_bytes MetadataFile.version MetadataFile.string_literal_offset
         MetadataFile.string_literal_count MetadataFile.data_info_position
         MetadataFile.string_literal_data_offset MetadataFile.string_literal_data_count].
    split; intros Hp.
    + rewrite Hp, replace_nth_twice. reflexivity.
    + rewrite (replace_nth_comm (MetadataFile.str_bytes self)
                 (Z.to_nat (position j)) (Z.to_nat (position i))) by lia.
      reflexivity.
Qed.

(** On the two-string file: [-1] and [1] address the same string, [-1]
    and [0] different ones. *)
Lemma set_string_compose_witness :
  fst (MetadataFile.set_string
         (fst (MetadataFile.set_string (loaded_from two_strings_file) (-1) hello)) 1 [120])
  = fst (MetadataFile.set_string (loaded_from two_strings_file) 1 [120])
  /\ fst (MetadataFile.set_string
            (fst (MetadataFile.set_string (loaded_from two_strings_file) (-1) hello)) 0 [120])
     = fst (MetadataFile.set_string
              (fst (MetadataFile.set_string (loaded_from two_strings_file) 0 [120]))
              (-1) hello).
Proof.
  assert (E1 : encode_utf8 hello = Return (bytes_of hello)) by (vm_compute; reflexivity).
  assert (E2 : encode_utf8 [120] = Return (bytes_of [120])) by (vm_compute; reflexivity).
  destruct (set_string_compose (loaded_from two_strings_file) (-1) 1 hello [120]
              (bytes_of hello) (bytes_of [120]) E1 E2) as (_ & Hsame).
  destruct (set_string_compose (loaded_from two_strings_file) (-1) 0 hello [120]
              (bytes_of hello) (bytes_of [120]) E1 E2) as (_ & Hdiff).
  split.
  - apply Hsame; vm_compute; intuition discriminate.
  - apply Hdiff; vm_compute; intuition discriminate.
Defined.

(** ** Paging through a file *)

Lemma getslice_firstn_skipn {A} (l : list A) a b :
  0 <= a -> 0 <= b ->
  getslice l a b = firstn (Z.to_nat (b - a)) (skipn (Z.to_nat a) l).
Proof.
  intros Ha Hb. apply nth_error_ext. intros i.
  unfold getslice. rewrite !adjust_index_nonneg by assumption.
  rewrite !nth_error_firstn, !nth_error_skipn. unfold len.
  destruct (Nat.ltb_spec i (Z.to_nat (Z.min b (Z.of_nat (List.length l))
                                      - Z.min a (Z.of_nat (List.length l)))));
    destruct (Nat.ltb_spec i (Z.to_nat (b - a))); try lia.
  - f_equal. lia.
  - symmetry. apply nth_error_None. lia.
  - reflexivity.
Qed.

Lemma firstn_add_skipn {A} (l : list A) : forall a b,
  firstn (a + b) l = firstn a l ++ firstn b (skipn a l).
Proof.
  induction l as [|x l IH]; intros a b.
  - rewrite !firstn_nil, skipn_nil, firstn_nil. reflexivity.
  - destruct a as [|a]; [reflexivity|]. cbn [Nat.add firstn skipn app]. now rewrite IH.
Qed.

Lemma firstn_clip {A} (l : list A) m m' :
  (m = m' \/ (List.length l <= m /\ List.length l <= m'))%nat ->
  firstn m l = firstn m' l.
Proof.
  intros [->|[H1 H2]]; [reflexivity|]. now rewrite !firstn_all2 by assumption.
Qed.

Lemma page_strings_eq content self page limit :
  MetadataFile.init content = Return self ->
  1 <= page -> 0 <= limit ->
  page_strings content page limit
  = firstn (Z.to_nat limit)
      (skipn (Z.to_nat ((page - 1) * limit)) (snd (MetadataFile.get_strings self))).
Proof.
  intros Hinit Hp Hl. unfold page_strings, get_strings_page. rewrite Hinit. cbn [bind].
  set (all_strings := snd (MetadataFile.get_strings self)).
  set (first := (page - 1) * limit).
  assert (Hf : 0 <= first) by (unfold first; apply Z.mul_nonneg_nonneg; lia).
  pose proof (len_nonneg all_strings) as Hn.
  rewrite getslice_firstn_skipn by lia.
  apply firstn_clip. rewrite length_skipn. unfold len in *. lia.
Qed.

(** X10.  For a page size [limit > 0], the pages 1, 2, ..., [k] of the
    route, one after the other, are the first [k * limit] strings of the
    file: no string is shown twice or skipped, and the pages up to the
    first one that reaches the string count are all the strings. *)
Theorem pages_cover content self limit k :
  MetadataFile.init content = Return self ->
  0 < limit ->
  pages_upto content limit k
  = firstn (k * Z.to_nat limit) (snd (MetadataFile.get_strings self))
  /\ (MetadataFile.string_literal_count self <= Z.of_nat k * limit ->
      pages_upto content limit k = snd (MetadataFile.get_strings self)).
Proof.
  intros Hinit Hl.
  assert (E : pages_upto content limit k
              = firstn (k * Z.to_nat limit) (snd (MetadataFile.get_strings self))).
  { unfold pages_upto. induction k as [|k IH]; [reflexivity|].
    rewrite seq_S, map_app, concat_app, IH. cbn [map List.concat]. rewrite app_nil_r.
    rewrite (page_strings_eq content self) by (try assumption; lia).
    replace (Z.to_nat ((Z.of_nat (1 + k) - 1) * limit)) with (k * Z.to_nat limit)%nat by nia.
    rewrite <- firstn_add_skipn. f_equal. lia. }
  split; [exact E|].
  intros Hc. rewrite E. apply firstn_all2.
  pose proof (loaded_count_strings content self Hinit) as Hn. unfold len in Hn. nia.
Qed.

Lemma pages_cover_witness :
  pages_upto two_strings_file 1 2
  = snd (MetadataFile.get_strings (loaded_from two_strings_file)).
Proof.
  exact (proj2 (pages_cover two_strings_file (loaded_from two_strings_file) 1 2
                  ltac:(vm_compute; reflexivity) ltac:(lia))
               ltac:(vm_compute; discriminate)).
Defined.

(** ** The routes *)

(** X14.  [edit] of App.py lists the first hundred strings of the file,
    or all of them when the file holds fewer. *)
Theorem edit_first_hundred content self :
  MetadataFile.init content = Return self ->
  exists strings,
    App.edit (Some content) = App.EditPage strings
    /\ len strings = Z.min 100 (MetadataFile.string_literal_count self)
    /\ strings = firstn 100 (snd (MetadataFile.get_strings self)).
Proof.
  intros Hinit. unfold App.edit. rewrite Hinit.
  pose proof (loaded_count_strings content self Hinit) as Hn.
  exists (getslice (snd (MetadataFile.get_strings self)) 0 100).
  split; [reflexivity|]. split.
  - rewrite len_getslice by lia. rewrite Hn.
    pose proof (len_nonneg (snd (MetadataFile.get_strings self))). lia.
  - rewrite getslice_firstn_skipn by lia. reflexivity.
Qed.

Lemma edit_first_hundred_witness :
  exists strings,
    App.edit (Some two_strings_file) = App.EditPage strings
    /\ len strings = Z.min 100 (MetadataFile.string_literal_count (loaded_from two_strings_file))
    /\ strings = firstn 100 (snd (MetadataFile.get_strings (loaded_from two_strings_file))).
Proof.
  exact (edit_first_hundred two_strings_file (loaded_from two_strings_file)
           ltac:(vm_compute; reflexivity)).
Defined.

Lemma save_Raise_size self e :
  loaded_inv self -> MetadataFile.save self = Raise e -> u32_max < packed_size self.
Proof.
  intros Hinv H. destruct (Z_le_gt_dec (packed_size self) u32_max) as [Hle|Hgt]; [|lia].
  rewrite (save_ok self Hinv Hle) in H. discriminate.
Qed.

Lemma encode_utf8_Raise text : forall e,
  encode_utf8 text = Raise e -> e = UnicodeEncodeError.
Proof.
  induction text as [|c text IH]; intros e H; cbn [encode_utf8] in H; [discriminate|].
  destruct (encode_char c) as [bs|]; [|congruence].
  destruct (encode_utf8 text) as [rest|e'] eqn:E; cbn [bind] in H; [discriminate|].
  injection H as <-. apply IH. reflexivity.
Qed.

Lemma set_string_Raise self index text e :
  snd (MetadataFile.set_string self index text) = Raise e ->
  fst (MetadataFile.set_string self index text) = self
  /\ (e = IndexError \/ e = UnicodeEncodeError).
Proof.
  unfold MetadataFile.set_string.
  destruct (encode_utf8 text) as [enc|e'] eqn:Eenc.
  - destruct (setitem _ index _) as [l|e'] eqn:E; cbn [fst snd]; [discriminate|].
    intros [= <-]. apply setitem_Raise in E as (-> & _). auto.
  - cbn [fst snd]. intros [= <-]. apply encode_utf8_Raise in Eenc. auto.
Qed.

(** X11.  [update] of app.py on an existing file, cause by cause.  When
    the constructor raises, or [set_string] raises (an index out of range
    or a text that does not encode), the answer is that error and the
    file is as it was.  When both return, [save] raises exactly when the
    repacked strings need more than 32 bits of size: then the answer is
    its error and the file is left empty, because it was opened for
    writing before [save] was called; otherwise the answer is success and
    the file holds the bytes [save] returned.  Conversely, an error
    answer with a changed file comes only from [save] raising, and a
    success only from all three steps returning. *)
Theorem update_outcome content index new_value :
  let r := update (Some content) index new_value in
  (forall e, MetadataFile.init content = Raise e -> r = (Some content, UpdateError e))
  /\ (forall self0 e,
        MetadataFile.init content = Return self0 ->
        snd (MetadataFile.set_string self0 index new_value) = Raise e ->
        r = (Some content, UpdateError e) /\ (e = IndexError \/ e = UnicodeEncodeError))
  /\ (forall self0,
        MetadataFile.init content = Return self0 ->
        snd (MetadataFile.set_string self0 index new_value) = Return tt ->
        let self1 := fst (MetadataFile.set_string self0 index new_value) in
        (u32_max < packed_size self1 ->
         exists e, MetadataFile.save self1 = Raise e /\ r = (Some [], UpdateError e))
        /\ (packed_size self1 <= u32_max ->
            MetadataFile.save self1 = Return (saved self1, MetadataFile.file_data (saved self1))
            /\ r = (Some (MetadataFile.file_data (saved self1)), UpdateSuccess)))
  /\ (forall e, snd r = UpdateError e -> fst r <> Some content ->
        fst r = Some []
        /\ exists self0,
             MetadataFile.init content = Return self0
             /\ snd (MetadataFile.set_string self0 index new_value) = Return tt
             /\ MetadataFile.save (fst (MetadataFile.set_string self0 index new_value))
                = Raise e
             /\ u32_max < packed_size (fst (MetadataFile.set_string self0 index new_value)))
  /\ (snd r = UpdateSuccess ->
      exists self0 self' output,
        MetadataFile.init content = Return self0
        /\ snd (MetadataFile.set_string self0 index new_value) = Return tt
        /\ MetadataFile.save (fst (MetadataFile.set_string self0 index new_value))
           = Return (self', output)
        /\ fst r = Some output).
Proof.
  cbv zeta. unfold update.
  split; [intros e He; rewrite He; reflexivity|].
  split.
  { intros self0 e Hinit Hr. rewrite Hinit.
    destruct (set_string_Raise self0 index new_value e Hr) as (_ & He).
    destruct (MetadataFile.set_string self0 index new_value) as [self1 [[]|e']];
      cbn [snd] in Hr; [discriminate|].
    injection Hr as ->. split; [reflexivity|exact He]. }
  split.
  { intros self0 Hinit Hr. rewrite Hinit.
    pose proof (set_string_inv self0 index new_value (init_inv _ _ Hinit)) as Hinv.
    destruct (MetadataFile.set_string self0 index new_value) as [self1 [[]|e']];
      cbn [fst snd] in *; [|discriminate].
    split.
    - intros Hbig. destruct (MetadataFile.save self1) as [[self' output]|e] eqn:Hsave.
      + destruct (save_Return _ _ _ Hinv Hsave) as (_ & _ & Hmax). lia.
      + exists e. split; reflexivity.
    - intros Hfit. rewrite (save_ok self1 Hinv Hfit). split; reflexivity. }
  destruct (MetadataFile.init content) as [self0|e0] eqn:Hinit.
  2:{ cbn [fst snd]. split; [intros e _ H; contradiction H; reflexivity|discriminate]. }
  pose proof (set_string_inv self0 index new_value (init_inv _ _ Hinit)) as Hinv.
  destruct (MetadataFile.set_string self0 index new_value) as [self1 [[]|e']] eqn:Hset;
    cbn [fst snd] in *.
  2:{ split; [intros e _ H; contradiction H; reflexivity|discriminate]. }
  destruct (MetadataFile.save self1) as [[self' output]|e1] eqn:Hsave; cbn [fst snd].
  - split; [discriminate|]. intros _. exists self0, self', output.
    rewrite Hset. cbn [fst snd]. auto.
  - split; [|discriminate]. intros e [= <-] _. split; [reflexivity|].
    exists self0. rewrite Hset. cbn [fst snd]. repeat split; try assumption.
    apply (save_Raise_size self1 e1); assumption.
Qed.

(** X12.  On a request whose filename is not empty, the two copies of
    [update] answer alike and leave the same file, provided the repacked
    strings fit in 32 bits of size when the file loads and the edit
    returns.  On a request without a filename, or with an empty one,
    [update] of App.py answers "Missing filename" and leaves the file, an
    answer [update] of app.py never gives.  And [update] of App.py, which
    calls [save] before it opens the file, leaves the file as it was
    whenever it answers with an error. *)
Theorem update_copies_agree filename file index new_value :
  (App.not_filename filename = false ->
   (forall content self0,
      file = Some content ->
      MetadataFile.init content = Return self0 ->
      packed_size (fst (MetadataFile.set_string self0 index new_value)) <= u32_max) ->
   App.update filename file index new_value = update file index new_value)
  /\ (App.not_filename filename = true ->
      App.update filename file index new_value = (file, UpdateMissingFilename)
      /\ snd (update file index new_value) <> UpdateMissingFilename)
  /\ (forall e, snd (App.update filename file index new_value) = UpdateError e ->
        fst (App.update filename file index new_value) = file).
Proof.
  unfold App.update, update.
  destruct (App.not_filename filename).
  { split; [discriminate|]. split; [|discriminate]. intros _. split; [reflexivity|].
    destruct file as [content|]; [|discriminate].
    destruct (MetadataFile.init content) as [self0|e]; [|discriminate].
    destruct (MetadataFile.set_string self0 index new_value) as [self1 [[]|e]];
      [|discriminate].
    destruct (MetadataFile.save self1) as [[self' output]|e]; discriminate. }
  split; [|split; [discriminate|]].
  - intros _ Hsize. destruct file as [content|]; [|reflexivity].
    destruct (MetadataFile.init content) as [self0|e] eqn:Hinit; [|reflexivity].
    specialize (Hsize content self0 eq_refl Hinit).
    pose proof (set_string_inv self0 index new_value (init_inv _ _ Hinit)) as Hinv.
    destruct (MetadataFile.set_string self0 index new_value) as [self1 [[]|e]];
      [|reflexivity].
    cbn [fst] in *. rewrite (save_ok self1 Hinv Hsize). reflexivity.
  - intros e. destruct file as [content|]; [|discriminate].
    destruct (MetadataFile.init content) as [self0|e0]; [|reflexivity].
    destruct (MetadataFile.set_string self0 index new_value) as [self1 [[]|e1]];
      [|reflexivity].
    destruct (MetadataFile.save self1) as [[self' output]|e'];
      cbn [fst snd]; [discriminate|reflexivity].
Qed.

Lemma update_copies_agree_witness :
  App.update (Some "sample.dat"%string) (Some sample_file) 0 hello
  = update (Some sample_file) 0 hello
  /\ App.update (Some EmptyString) None 0 hello = (None, UpdateMissingFilename)
  /\ fst (App.update (Some "short.dat"%string) (Some short_file) 0 hello) = Some short_file.
Proof.
  destruct (update_copies_agree (Some "sample.dat"%string) (Some sample_file) 0 hello)
    as (H1 & _ & _).
  destruct (update_copies_agree (Some EmptyString) None 0 hello) as (_ & H2 & _).
  destruct (update_copies_agree (Some "short.dat"%string) (Some short_file) 0 hello)
    as (_ & _ & H3).
  split; [|split].
  - apply H1; [reflexivity|]. intros content self0 [= <-] H.
    rewrite sample_init in H. injection H as <-. vm_compute. discriminate.
  - exact (proj1 (H2 eq_refl)).
  - apply (H3 (struct_error 4 8 8)). vm_compute. reflexivity.
Defined.

(** X13.  After a successful [update] of a file with a regular layout,
    the stored file loads again, shows at the updated index the new text
    without its trailing NUL characters and every other string as before,
    and [download] returns the stored file byte for byte. *)
Theorem update_then_read content index new_value self0 output :
  MetadataFile.init content = Return self0 ->
  update (Some content) index new_value = (Some output, UpdateSuccess) ->
  regular_layout (fst (MetadataFile.set_string self0 index new_value)) ->
  let n := MetadataFile.string_literal_count self0 in
  let i := Z.to_nat (if index <? 0 then index + n else index) in
  exists again,
    MetadataFile.init output = Return again
    /\ nth_error (snd (MetadataFile.get_strings again)) i = Some (strip_trailing_nul new_value)
    /\ (forall k, k <> i ->
          nth_error (snd (MetadataFile.get_strings again)) k
          = nth_error (snd (MetadataFile.get_strings self0)) k)
    /\ download (Some output) = DownloadAttachment output.
Proof.
  intros Hinit Hup Hreg n i. unfold update in Hup. rewrite Hinit in Hup.
  destruct (MetadataFile.set_string self0 index new_value) as [self1 [[]|e]] eqn:Hset;
    [|discriminate Hup].
  cbn [fst] in Hreg.
  assert (Hinv : loaded_inv self1).
  { replace self1 with (fst (MetadataFile.set_string self0 index new_value))
      by (rewrite Hset; reflexivity).
    apply set_string_inv. apply (init_inv content). assumption. }
  destruct (MetadataFile.save self1) as [[self' out]|e] eqn:Hsave; [|discriminate Hup].
  injection Hup as <-.
  destruct (save_Return _ _ _ Hinv Hsave) as (-> & -> & Hmax).
  pose proof (init_saved self1 Hinv Hreg Hmax) as Hre.
  pose proof (set_string_shows self0 index new_value (init_inv _ _ Hinit)) as Hshow.
  cbv zeta in Hshow. rewrite Hset in Hshow.
  cbn [fst snd] in Hshow. destruct (Hshow eq_refl) as (Hi & Hk & _).
  exists (reloaded self1). split; [exact Hre|].
  split; [exact Hi|]. split; [exact Hk|].
  unfold download. rewrite Hre.
  rewrite (save_again self1 (reloaded self1)); try assumption; try reflexivity.
  apply (init_inv _ _ Hre).
Qed.

Lemma update_then_read_witness :
  exists again,
    MetadataFile.init (MetadataFile.file_data (saved sample_edited)) = Return again
    /\ download (Some (MetadataFile.file_data (saved sample_edited)))
       = DownloadAttachment (MetadataFile.file_data (saved sample_edited)).
Proof.
  destruct (update_then_read sample_file 0 hello sample_doc
              (MetadataFile.file_data (saved sample_edited)) sample_init
              ltac:(vm_compute; reflexivity) sample_regular)
    as (again & H1 & _ & _ & H2).
  exists again. split; assumption.
Defined.

(** ** Edges: pages before the first, string data past the end *)

(** X16.  A page number [page <= 0] is not rejected (page size
    [limit > 0]): the start index is negative and the slice counts from
    the end of the list.  Page 0 is empty, with the flag true exactly when
    the file has strings; a negative page returns the strings at
    [max(0, count + (page-1)*limit) .. max(0, count + page*limit) - 1]
    and the flag is always true. *)
Theorem page_not_positive content self page limit :
  MetadataFile.init content = Return self ->
  page <= 0 -> 0 < limit ->
  let n := MetadataFile.string_literal_count self in
  let all_strings := snd (MetadataFile.get_strings self) in
  let lo := Z.max 0 (n + (page - 1) * limit) in
  let hi := Z.max 0 (n + page * limit) in
  get_strings_page content page limit
  = Return (if page =? 0 then []
            else firstn (Z.to_nat (hi - lo)) (skipn (Z.to_nat lo) all_strings),
            (page - 1) * limit,
            if page =? 0 then 0 <? n else true).
Proof.
  intros Hinit Hp Hl n all_strings lo hi.
  pose proof (loaded_count_strings content self Hinit) as Hc.
  fold n in Hc. fold all_strings in Hc.
  pose proof (len_nonneg all_strings) as Hn. rewrite Hc in Hn.
  unfold get_strings_page. rewrite Hinit. cbn [bind]. fold all_strings. rewrite Hc.
  assert (Hs : (page - 1) * limit < 0) by nia.
  assert (He : (page - 1) * limit + limit = page * limit) by ring.
  assert (Hle : page * limit <= 0) by nia.
  rewrite He. rewrite (Z.min_l (page * limit) n) by lia.
  unfold getslice. rewrite Hc. unfold adjust_index.
  destruct (Z.ltb_spec ((page - 1) * limit) 0); [|lia].
  destruct (Z.eqb_spec page 0) as [->|Hne].
  - cbn [Z.mul]. destruct (Z.ltb_spec 0 0); [lia|].
    replace (Z.to_nat (Z.min 0 n - Z.max 0 ((0 - 1) * limit + n))) with 0%nat by lia.
    reflexivity.
  - assert (Hneg : page * limit < 0) by nia.
    destruct (Z.ltb_spec (page * limit) 0); [|lia].
    destruct (Z.ltb_spec (page * limit) n); [|lia].
    subst lo hi.
    rewrite (Z.add_comm (page * limit) n), (Z.add_comm ((page - 1) * limit) n).
    reflexivity.
Qed.

Lemma page_not_positive_witness :
  get_strings_page two_strings_file (-1) 1 = Return ([[97; 98]], -2, true).
Proof.
  exact (page_not_positive two_strings_file (loaded_from two_strings_file) (-1) 1
           ltac:(vm_compute; reflexivity) ltac:(lia) ltac:(lia)).
Defined.

Lemma store_past_end l p d : len l <= p -> store l p d = l ++ d.
Proof.
  intros Hp. pose proof (len_nonneg l) as Hl.
  rewrite store_unfold by lia. unfold landing, len in *.
  rewrite Nat.min_r by lia. rewrite firstn_all.
  rewrite skipn_all2 by lia. now rewrite app_nil_r.
Qed.

Lemma payload_writes_past_end strs : forall p l,
  len l <= p -> apply_writes (payload_writes strs p) l = l ++ List.concat strs.
Proof.
  induction strs as [|s strs IH]; intros p l Hp.
  - cbn [payload_writes apply_writes fold_left List.concat]. now rewrite app_nil_r.
  - cbn [payload_writes apply_writes fold_left fst snd List.concat].
    fold (apply_writes (payload_writes strs (p + len s)) (store l p s)).
    rewrite store_past_end by assumption.
    rewrite IH by (rewrite len_app; lia). now rewrite <- app_assoc.
Qed.

Lemma len_concat strs : len (List.concat strs) = total_len strs.
Proof.
  induction strs as [|s strs IH]; [reflexivity|].
  cbn [List.concat]. rewrite len_app, total_len_cons, IH. reflexivity.
Qed.

(** X17.  When the string data offset lies past the end of the loaded
    buffer and the strings end on a multiple of four (no padding is
    written), [save] does not extend the buffer to the offset: each
    payload is a slice assignment past the end, which appends.  The
    result is as long as the loaded buffer plus the payloads, holds the
    payloads directly after the old end, and its header still names the
    offset past the old end. *)
Theorem save_appends_past_end content edits self0 self' out :
  MetadataFile.init content = Return self0 ->
  MetadataFile.save (set_strings edits self0) = Return (self', out) ->
  len content < MetadataFile.string_literal_data_offset self0 ->
  MetadataFile.padding_needed (MetadataFile.string_literal_data_offset self0)
    (total_len (MetadataFile.str_bytes (set_strings edits self0))) = 0 ->
  len out = len content + total_len (MetadataFile.str_bytes (set_strings edits self0))
  /\ skipn (Z.to_nat (len content)) out
     = List.concat (MetadataFile.str_bytes (set_strings edits self0))
  /\ firstn 4 (skipn 16 out)
     = le_split 4 (MetadataFile.string_literal_data_offset self0).
Proof.
  intros Hinit Hsave Hpast Hpad.
  destruct (document_fields content edits self0 Hinit) as (Hfd & Hinv).
  destruct (set_strings_fields edits self0) as (_ & _ & _ & _ & Esdo & _).
  destruct (save_Return _ _ _ Hinv Hsave) as (_ & -> & Hmax).
  pose proof (saved_header_read _ Hinv) as Hread.
  set (self := set_strings edits self0) in *.
  pose proof (inv_header _ Hinv) as H24. rewrite Hfd in H24.
  pose proof (length_table_applied _ Hinv) as HT.
  set (T := apply_writes (table_writes (packed_literals (MetadataFile.str_bytes self) 0)
                            (MetadataFile.string_literal_offset self))
              (MetadataFile.file_data self)) in *.
  rewrite Hfd in HT.
  assert (Eb : before_header self = T ++ List.concat (MetadataFile.str_bytes self)).
  { rewrite <- before_header_eq. fold T. unfold pad_writes. rewrite Esdo, Hpad.
    cbn [Z.eqb apply_writes fold_left].
    apply payload_writes_past_end. lia. }
  assert (HL : List.length (store (before_header self) 16 (header_pair self))
               = List.length (before_header self)).
  { apply length_store_inplace; [lia|]. rewrite Eb, len_app. unfold len at 1.
    rewrite length_header_pair.
    pose proof (len_nonneg (List.concat (MetadataFile.str_bytes self))). lia. }
  split; [|split].
  - rewrite saved_eq by assumption. unfold len at 1. rewrite HL.
    fold (len (before_header self)). rewrite Eb, len_app, len_concat. lia.
  - rewrite saved_eq by assumption.
    apply nth_error_ext. intros k. rewrite nth_error_skipn.
    assert (ET : Z.to_nat (len content) = List.length T) by (unfold len in *; lia).
    destruct (Nat.lt_ge_cases k (List.length (List.concat (MetadataFile.str_bytes self))))
      as [Hk|Hk].
    + rewrite nth_error_store_other.
      * rewrite Eb, ET, nth_error_app2 by lia. f_equal. lia.
      * lia.
      * rewrite Eb, length_app. lia.
      * right. unfold len at 1. rewrite length_header_pair. unfold len in *. lia.
    + transitivity (@None Byte.byte).
      * apply nth_error_None. rewrite HL, Eb, length_app. lia.
      * symmetry. apply nth_error_None. assumption.
  - transitivity (firstn 4 (firstn 8 (skipn 16 (MetadataFile.file_data (saved self)))));
      [rewrite firstn_firstn; reflexivity|].
    rewrite Hread. unfold header_pair. rewrite Esdo.
    rewrite firstn_app, length_le_split, Nat.sub_diag, firstn_O, app_nil_r.
    apply firstn_all2. rewrite length_le_split. lia.
Qed.

Lemma save_appends_past_end_witness :
  skipn (Z.to_nat (len past_end_file))
    (MetadataFile.file_data (saved (set_strings [(0, hello)] (loaded_from past_end_file))))
  = bytes_of (hello ++ [0]).
Proof.
  exact (proj1 (proj2
    (save_appends_past_end past_end_file [(0, hello)] (loaded_from past_end_file)
       (saved (set_strings [(0, hello)] (loaded_from past_end_file)))
       (MetadataFile.file_data (saved (set_strings [(0, hello)] (loaded_from past_end_file))))
       ltac:(vm_compute; reflexivity) ltac:(vm_compute; reflexivity)
       ltac:(vm_compute; reflexivity) ltac:(vm_compute; reflexivity)))).
Defined.

(** ** Indices below zero *)

(** X18.  [set_string] takes the index as Python's item assignment does:
    on a document with [n] strings and for a text that has a UTF-8
    encoding, an index in [-n .. -1] is accepted and addresses the string
    [index + n], counted from the end; [IndexError] is raised exactly when
    [index >= n] or [index < -n], and then the object is unchanged. *)
Theorem set_string_index_range content edits self0 index text encoded :
  MetadataFile.init content = Return self0 ->
  encode_utf8 text = Return encoded ->
  let self := set_strings edits self0 in
  let n := MetadataFile.string_literal_count self in
  let self' := fst (MetadataFile.set_string self index text) in
  let r := snd (MetadataFile.set_string self index text) in
  let i := Z.to_nat (if index <? 0 then index + n else index) in
  (r = Raise IndexError <-> n <= index \/ index < - n)
  /\ (r = Return tt <-> - n <= index < n)
  /\ (r = Raise IndexError -> self' = self)
  /\ (r = Return tt ->
      nth_error (MetadataFile.str_bytes self') i = Some (encoded ++ [Byte.x00])
      /\ (forall k, k <> i ->
            nth_error (MetadataFile.str_bytes self') k
            = nth_error (MetadataFile.str_bytes self) k)
      /\ MetadataFile.string_literals self' = MetadataFile.string_literals self
      /\ MetadataFile.file_data self' = MetadataFile.file_data self).
Proof.
  intros Hinit Henc self n self' r i.
  pose proof (document_inv content edits self0 Hinit) as Hinv. fold self in Hinv.
  pose proof (inv_strs _ Hinv) as Hn. fold n in Hn.
  assert (Hn0 : 0 <= n) by (rewrite <- Hn; apply len_nonneg).
  subst self' r. unfold MetadataFile.set_string. rewrite Henc.
  destruct (setitem (MetadataFile.str_bytes self) index (encoded ++ [Byte.x00]))
    as [l|e] eqn:E; cbn [fst snd].
  - apply setitem_Return in E as (Hi & ->). rewrite Hn in Hi.
    split; [split; [discriminate|lia]|].
    split; [split; [lia|reflexivity]|].
    split; [discriminate|].
    intros _. cbn [MetadataFile.with_str_bytes MetadataFile.str_bytes
                   MetadataFile.string_literals MetadataFile.file_data].
    rewrite Hn. fold i.
    assert (Hlt : (i < List.length (MetadataFile.str_bytes self))%nat)
      by (unfold len in Hn; subst i; destruct (Z.ltb_spec index 0); lia).
    split; [|split; [|split; reflexivity]].
    + rewrite nth_error_replace_nth by assumption. now rewrite Nat.eqb_refl.
    + intros k Hk. rewrite nth_error_replace_nth by assumption.
      destruct (Nat.eqb_spec k i); [contradiction|reflexivity].
  - apply setitem_Raise in E as (-> & Hi). rewrite Hn in Hi.
    split; [split; [lia|reflexivity]|].
    split; [split; [discriminate|lia]|].
    split; [reflexivity|discriminate].
Qed.

(** On the one-string sample document, [-1] is accepted and [-2] is not. *)
Lemma set_string_index_range_witness :
  snd (MetadataFile.set_string (set_strings [] sample_doc) (-1) hello) = Return tt
  /\ snd (MetadataFile.set_string (set_strings [] sample_doc) (-2) hello) = Raise IndexError.
Proof.
  assert (H2 : encode_utf8 hello = Return (bytes_of hello)) by (vm_compute; reflexivity).
  split.
  - apply (proj1 (proj2 (set_string_index_range sample_file [] sample_doc (-1) hello
                           (bytes_of hello) sample_init H2))).
    vm_compute. intuition discriminate.
  - apply (proj1 (set_string_index_range sample_file [] sample_doc (-2) hello
                    (bytes_of hello) sample_init H2)).
    right. vm_compute. reflexivity.
Defined.
